(** * XDE WorldManager: scene composition and lifecycle

    A shallow embedding of [src/core.py] (class [WorldManager]) and the
    properties of its scene-composition, marker and clean-up methods, and
    of the methods that create, wire, start and stop the agents and drive
    the viewer.

    The physics and graphics engines are external: they are reached only
    through side-effecting calls.  They are modelled by an interface
    ([Backend]) giving the effect of every call the manager issues and the
    queries it reads; every call issued is also recorded, in order, in a
    log, so that ordering properties can be stated for any engine. *)

From Stdlib Require Import String List Arith ZArith Lia Bool.
From Equations Require Import Equations.
From Equations.Prop Require Import Logic.
Import ListNotations.
Open Scope string_scope.
Open Scope list_scope.

(** ** Python list operations used by the source *)

Module Py.

(** Exceptions raised by the manager's own code. *)
Inductive Exn : Type :=
  | AttributeError   (* attribute access on [None] *)
  | IndexError       (* sequence index out of range *)
  | ValueError.      (* [list.remove(x)]: x not in list *)

(** [x in l] *)
Definition contains (x : string) (l : list string) : bool :=
  existsb (String.eqb x) l.

(** [l.remove(x)]: drops the first element equal to [x]; [None] stands for
    the [ValueError] raised when there is none. *)
Fixpoint remove (x : string) (l : list string) : option (list string) :=
  match l with
  | [] => None
  | y :: l' =>
      if String.eqb x y then Some l'
      else match remove x l' with
           | Some r => Some (y :: r)
           | None => None
           end
  end.

(** [l[-1]] *)
Fixpoint last_item (l : list string) : option string :=
  match l with
  | [] => None
  | [x] => Some x
  | _ :: l' => last_item l'
  end.

Lemma remove_length x l r : remove x l = Some r -> length l = S (length r).
Proof.
  revert r. induction l as [|y l IH]; simpl; intros r H; [discriminate|].
  destruct (String.eqb x y).
  - now inversion H.
  - destruct (remove x l) as [r'|]; [|discriminate].
    inversion H; subst. simpl. now rewrite (IH r').
Qed.

End Py.

(** ** Data model: the World descriptor ([scene_pb2]) *)

#[local] Set Warnings "-register-all".

Inductive PhysicalNode : Type :=
  PNode (rigid_body : string) (inner_joint : string)
        (children : list PhysicalNode).

Inductive GraphicalNode : Type :=
  GNode (name : string) (gchildren : list GraphicalNode).

Record Marker : Type := { marker_name : string }.

Record Mechanism : Type := { mechanism_name : string }.

Record PhysicalScene : Type := {
  nodes : list PhysicalNode;
  mechanisms : list Mechanism;
  contact_materials : list string }.

Record GraphicalScene : Type := {
  root_node : GraphicalNode;
  markers : list Marker }.

Record Scene : Type := {
  physical_scene : PhysicalScene;
  graphical_scene : GraphicalScene }.

Record World : Type := { scene : Scene }.

Definition rigid_body (n : PhysicalNode) : string :=
  match n with PNode rb _ _ => rb end.
Definition inner_joint (n : PhysicalNode) : string :=
  match n with PNode _ ij _ => ij end.
Definition children (n : PhysicalNode) : list PhysicalNode :=
  match n with PNode _ _ ch => ch end.
Definition name (n : GraphicalNode) : string :=
  match n with GNode s _ => s end.
Definition gchildren (n : GraphicalNode) : list GraphicalNode :=
  match n with GNode _ ch => ch end.

(** In-place updates of the two repeated fields the manager mutates. *)
Definition set_contact_materials (l : list string) (w : World) : World :=
  let sc := scene w in
  let ps := physical_scene sc in
  {| scene := {| physical_scene :=
                   {| nodes := nodes ps; mechanisms := mechanisms ps;
                      contact_materials := l |};
                 graphical_scene := graphical_scene sc |} |}.

Definition set_markers (l : list Marker) (w : World) : World :=
  let sc := scene w in
  let gs := graphical_scene sc in
  {| scene := {| physical_scene := physical_scene sc;
                 graphical_scene :=
                   {| root_node := root_node gs; markers := l |} |} |}.

(** *** The two loops of [addWorldToPhysic] over the aliased list

    [Lmat] is bound to the repeated field itself, not to a copy, so the
    [for] loop iterates (by index) over the very list it removes from, and
    the final [extend(Lmat)] extends the list with itself. *)

(** [for mat in Lmat: if mat in known: Lmat.remove(mat)], resumed at index
    [i].  The iterator reads [Lmat[i]] and stops when [i] is out of range. *)
Equations? drop_known (known : list string) (i : nat) (l : list string)
  : option (list string) by wf (length l - i) lt :=
  drop_known known i l with inspect (nth_error l i) := {
    | exist _ None _ => Some l
    | exist _ (Some mat) Hi with Py.contains mat known := {
        | false => drop_known known (S i) l
        | true with inspect (Py.remove mat l) := {
            | exist _ None _ => None
            | exist _ (Some l') Hr => drop_known known (S i) l' } } }.
Proof.
  - assert (i < length l) by (apply nth_error_Some; congruence).
    apply Py.remove_length in Hr. lia.
  - assert (i < length l) by (apply nth_error_Some; congruence). lia.
Qed.

(** [while len(l): l.remove(l[-1])] *)
Equations? clear_by_last (l : list string) : option (list string)
  by wf (length l) lt :=
  clear_by_last l with inspect (Py.last_item l) := {
    | exist _ None _ => Some l
    | exist _ (Some x) _ with inspect (Py.remove x l) := {
        | exist _ None _ => None
        | exist _ (Some l') Hr => clear_by_last l' } }.
Proof.
  apply Py.remove_length in Hr. lia.
Qed.

(** ** The engines, seen from the manager *)

(** The side-effecting calls the manager issues on the physics agent
    ([self.phy.s], its body-state connector [ocb], the main scene
    [self.ms]), on the two builders, on the contact helper and on the
    graphical scene ([self.graph_scn]). *)
Inductive Call : Type :=
  | phy_deserializeWorld (w : World)
  | graph_deserializeWorld (w : World)
  | phy_deleteComponent (c : string)
  | ocb_addBody (b : string)
  | ocb_removeBody (b : string)
  | ms_removeRigidBody (b : string)
  | ms_removeUnusedContactMaterials
  | ms_clean
  | contact_removeAllInteractionsInvolving (b : string)
  | scn_removeNode (n : string)
  | scn_clearScene
  | mk_addMarker (n : string) (thin : bool)
  | mk_removeMarker (n : string)
  | mk_clearMarkers
  | glyph_clearCollections
  | mat_clearMaterials.

(** An engine state [B] with the effect of each call and the queries the
    manager reads.  [ocbBodies] (the bodies registered on the body-state
    output connector) is never read by the manager; it is there to state
    what a removal leaves registered. *)
Class Backend (B : Type) : Type := {
  do_call : Call -> B -> B;
  getComponents : B -> list string;
  getType : B -> string -> string;
  getBodyNames : B -> list string;
  getContactMaterials : B -> list string;
  nodeExists : B -> string -> bool;
  getMarkerLabels : B -> list string;
  ocbBodies : B -> list string }.

(** Agent and scene handles held by the manager ([None] until created). *)
Inductive Handle : Type := handle (label : string).

Record WorldManager : Type := {
  phy : option Handle;
  graph : option Handle;
  clock : option Handle;
  ms : option Handle;
  xcd : option Handle;
  graph_scn : option Handle;
  icsync : option Handle }.

(** [WorldManager.__init__] *)
Definition init : WorldManager :=
  {| phy := None; graph := None; clock := None; ms := None; xcd := None;
     graph_scn := None; icsync := None |}.

(** What the simulation looks like between two statements: the manager
    object [self], the caller's World object, the engines, the calls issued
    so far (oldest first) and what [verbose_print] has written. *)
Record Sim (B : Type) : Type := {
  manager : WorldManager;
  world : World;
  engine : B;
  calls : list Call;
  stdout : list string }.
Arguments manager {B} _.
Arguments world {B} _.
Arguments engine {B} _.
Arguments calls {B} _.
Arguments stdout {B} _.

Inductive Outcome (B A : Type) : Type :=
  | Returns (a : A) (s : Sim B)
  | Raises (e : Py.Exn) (s : Sim B).
Arguments Returns {B A} _ _.
Arguments Raises {B A} _ _.

(** The state left by a method, however it ended. *)
Definition final {B A} (o : Outcome B A) : Sim B :=
  match o with Returns _ s => s | Raises _ s => s end.

Definition returns {B A} (o : Outcome B A) : bool :=
  match o with Returns _ _ => true | Raises _ _ => false end.

Definition M (B A : Type) : Type := Sim B -> Outcome B A.

Definition ret {B A} (a : A) : M B A := fun s => Returns a s.

Definition bind {B A C} (m : M B A) (k : A -> M B C) : M B C :=
  fun s => match m s with
           | Returns a s' => k a s'
           | Raises e s' => Raises e s'
           end.

Definition raise {B A} (e : Py.Exn) : M B A := fun s => Raises e s.

Declare Scope py_scope.
Delimit Scope py_scope with py.
Notation "x <- c1 ;; c2" := (bind c1 (fun x => c2))
  (at level 61, c1 at next level, right associativity) : py_scope.
Notation "c1 ;; c2" := (bind c1 (fun _ => c2))
  (at level 61, right associativity) : py_scope.
Open Scope py_scope.

(** [for x in l: body(x)] over a list that the body does not change. *)
Definition for_each {B X} (l : list X) (body : X -> M B unit) : M B unit :=
  (fix go (l : list X) : M B unit :=
     match l with
     | [] => ret tt
     | x :: l' => body x ;; go l'
     end) l.

(** [self.f.attr], with [self.f] possibly [None] *)
Definition deref {B} (f : WorldManager -> option Handle) : M B Handle :=
  fun s => match f (manager s) with
           | Some h => Returns h s
           | None => Raises Py.AttributeError s
           end.

Definition get_self {B} : M B WorldManager := fun s => Returns (manager s) s.

(** [l[0]] *)
Definition first_item {B X} (l : list X) : M B X :=
  match l with
  | x :: _ => ret x
  | [] => raise Py.IndexError
  end.

Definition get_world {B} : M B World := fun s => Returns (world s) s.

Definition put_world {B} (w : World) : M B unit :=
  fun s => Returns tt {| manager := manager s; world := w; engine := engine s;
                         calls := calls s; stdout := stdout s |}.

(** A query reads the engine and changes nothing. *)
Definition query {B X} (f : B -> X) : M B X :=
  fun s => Returns (f (engine s)) s.

(** A call acts on the engine and is logged. *)
Definition call {B} `{Backend B} (c : Call) : M B unit :=
  fun s => Returns tt {| manager := manager s; world := world s; engine := do_call c (engine s);
                         calls := calls s ++ [c]; stdout := stdout s |}.

Definition print {B} (msg : string) : M B unit :=
  fun s => Returns tt {| manager := manager s; world := world s; engine := engine s;
                         calls := calls s; stdout := stdout s ++ [msg] |}.

(** The contact-material field of the caller's World, as the one shared
    object every name for it reads and writes. *)
Definition materials {B} : M B (list string) :=
  fun s => Returns (contact_materials (physical_scene (scene (world s)))) s.

Definition set_materials {B} (l : list string) : M B unit :=
  w <- get_world ;; put_world (set_contact_materials l w).

(** Python results of the list loops: [None] is a [ValueError]. *)
Definition or_ValueError {B A} (o : option A) : M B A :=
  match o with
  | Some a => ret a
  | None => raise Py.ValueError
  end.

(** *** Helpers of the [desc] package *)

(** Modelled from the spec: [desc.core.visitDepthFirst] is not part of the
    source tree; it applies [function] to the node and then visits the
    children depth-first, in their order of declaration. *)
Fixpoint visitDepthFirst {S : Type} (function : PhysicalNode -> S -> S)
  (node : PhysicalNode) (acc : S) : S :=
  match node with
  | PNode _ _ ch =>
      (fix visit (l : list PhysicalNode) (acc : S) : S :=
         match l with
         | [] => acc
         | c :: l' => visit l' (visitDepthFirst function c acc)
         end) ch (function node acc)
  end.

(** Modelled from the spec: [desc.physic.getRigidBodyNames] is not part of
    the source tree; it lists the rigid bodies reachable in the physical
    scene, depth-first, in order of declaration. *)
Definition getRigidBodyNames (ps : PhysicalScene) : list string :=
  fold_left (fun acc n =>
               visitDepthFirst (fun node acc => acc ++ [rigid_body node]) n acc)
            (nodes ps) [].

(** ** The methods of [WorldManager]

    Names are Python 2 byte strings, on which [str] is the identity.  Each
    method takes the World it is given from the state and leaves it there,
    as the caller's object. *)

(** [marker_name_list] of [addFreeMarkers]: one name, or a sequence. *)
Inductive Names : Type :=
  | Single (n : string)
  | Sequence (l : list string).

(** [hasattr(marker_name_list, '__iter__')]: false on a Python 2 string. *)
Definition has_iter (a : Names) : bool :=
  match a with
  | Single _ => false
  | Sequence _ => true
  end.

Section Methods.

Context {B : Type} `{Backend B}.

(** The module global [verbose]. *)
Variable verbose : bool.

Definition verbose_print (msg : string) : M B unit :=
  if verbose then print msg else ret tt.

Definition addWorldToPhysic : M B unit :=
  (* Lmat = new_world.scene.physical_scene.contact_materials: no copy *)
  Lmat <- materials ;;
  match Lmat with
  | [] => ret tt
  | _ :: _ =>
      (* scene.getContactMaterials() is read at each iteration, from an
         engine the loop does not change *)
      _ <- deref ms ;;
      known <- query getContactMaterials ;;
      kept <- or_ValueError (drop_known known 0 Lmat) ;;
      set_materials kept
  end ;;
  (* deserializeWorld(self.phy, self.ms, self.xcd, new_world): the three
     attributes are passed on as they are, set or not *)
  new_world <- get_world ;;
  call (phy_deserializeWorld new_world) ;;
  l <- materials ;;
  emptied <- or_ValueError (clear_by_last l) ;;
  set_materials emptied ;;
  (* contact_materials.extend(Lmat), Lmat being contact_materials *)
  target <- materials ;;
  Lmat <- materials ;;
  set_materials (target ++ Lmat).

Definition addWorldToGraphic : M B unit :=
  self <- get_self ;;
  match graph self with
  | None => ret tt
  | Some _ =>
      new_world <- get_world ;;
      call (graph_deserializeWorld new_world) ;;
      verbose_print "CREATE CONNECTION PHY/GRAPH..." ;;
      _ <- deref phy ;;
      for_each (getRigidBodyNames (physical_scene (scene new_world)))
               (fun b => call (ocb_addBody b))
  end.

Definition addWorld : M B unit :=
  _ <- deref phy ;;
  verbose_print "CREATE WORLD..." ;;
  addWorldToPhysic ;;
  addWorldToGraphic.

Fixpoint deleteNodeInPhysicalAgent (node : PhysicalNode) : M B unit :=
  match node with
  | PNode body_name _ ch =>
      for_each ch deleteNodeInPhysicalAgent ;;
      call (contact_removeAllInteractionsInvolving body_name) ;;
      call (ocb_removeBody body_name)
  end.

Fixpoint deleteNodeInGraphicalAgent (node : GraphicalNode) : M B unit :=
  match node with
  | GNode nname ch =>
      for_each ch deleteNodeInGraphicalAgent ;;
      verbose_print ("deleting " ++ nname)%string ;;
      present <- query (fun e => nodeExists e nname) ;;
      if present then call (scn_removeNode nname) else ret tt
  end.

Definition removeWorldFromGraphic : M B unit :=
  self <- get_self ;;
  match graph_scn self with
  | None => ret tt
  | Some _ =>
      verbose_print "REMOVE CONNECTION PHY/GRAPH..." ;;
      _ <- deref phy ;;
      old_world <- get_world ;;
      root <- first_item (nodes (physical_scene (scene old_world))) ;;
      deleteNodeInPhysicalAgent root ;;
      verbose_print "REMOVE GRAPHICAL WORLD..." ;;
      deleteNodeInGraphicalAgent
        (root_node (graphical_scene (scene old_world))) ;;
      verbose_print "REMOVE MARKERS..." ;;
      for_each (markers (graphical_scene (scene old_world)))
        (fun marker =>
           labels <- query getMarkerLabels ;;
           if Py.contains (marker_name marker) labels
           then verbose_print ("Remove " ++ marker_name marker)%string ;;
                call (mk_removeMarker (marker_name marker))
           else ret tt)
  end.

Fixpoint removeRigidBodyChildren (node : PhysicalNode) : M B unit :=
  match node with
  | PNode rbname joint ch =>
      for_each ch removeRigidBodyChildren ;;
      verbose_print ("deleting " ++ rbname)%string ;;
      _ <- deref ms ;;
      bodies <- query getBodyNames ;;
      (if Py.contains rbname bodies
       then call (ms_removeRigidBody rbname) else ret tt) ;;
      for_each [rbname; (rbname ++ ".comp")%string; joint]
        (fun to_del =>
           _ <- deref phy ;;
           comps <- query getComponents ;;
           if Py.contains to_del comps
           then call (phy_deleteComponent to_del) else ret tt)
  end.

Definition removeWorldFromPhysic : M B unit :=
  verbose_print "REMOVE PHYSICAL WORLD..." ;;
  old_world <- get_world ;;
  for_each (mechanisms (physical_scene (scene old_world)))
    (fun mechanism =>
       _ <- deref phy ;;
       call (phy_deleteComponent (mechanism_name mechanism))) ;;
  for_each (nodes (physical_scene (scene old_world)))
    removeRigidBodyChildren ;;
  verbose_print "REMOVE UNUSED MATERIAL..." ;;
  _ <- deref ms ;;
  call ms_removeUnusedContactMaterials.

Definition removeWorld : M B unit :=
  removeWorldFromGraphic ;;
  removeWorldFromPhysic.

Definition cleanGraph : M B unit :=
  self <- get_self ;;
  match graph_scn self with
  | None => ret tt
  | Some _ =>
      call scn_clearScene ;;
      call mk_clearMarkers ;;
      call glyph_clearCollections ;;
      call mat_clearMaterials
  end.

Definition cleanPhy : M B unit :=
  self <- get_self ;;
  match phy self with
  | None => ret tt
  | Some _ =>
      _ <- deref ms ;;
      call ms_clean ;;
      for_each ["Robot"; "RigidBody"; "Composite"]
        (fun kind =>
           comps <- query (fun e =>
                       filter (fun comp => String.eqb (getType e comp) kind)
                              (getComponents e)) ;;
           for_each comps (fun c => call (phy_deleteComponent c))) ;;
      comps <- query getComponents ;;
      for_each comps (fun c => call (phy_deleteComponent c))
  end.

Definition addFreeMarkers (marker_name_list : Names) : M B unit :=
  let marker_name_list :=
    match marker_name_list with
    | Single n => [n]
    | Sequence l => l
    end in
  for_each marker_name_list
    (fun marker_name =>
       world <- get_world ;;
       (* marker = markers.add(); marker.name = marker_name *)
       put_world
         (set_markers (markers (graphical_scene (scene world))
                         ++ [{| marker_name := marker_name |}]) world)).

(** [allNodeNames] after the visits of [addMarkers] and [removeMarkers]. *)
Definition allNodeNames (world : World) : list string :=
  fold_left
    (fun acc child =>
       visitDepthFirst (fun node acc => acc ++ [rigid_body node]) child acc)
    (nodes (physical_scene (scene world))) [].

Definition addMarkers (bodies_to_display : option (list string))
  (thin_markers : bool) : M B unit :=
  self <- get_self ;;
  match graph_scn self with
  | None => verbose_print "No graphic agent. Nothing to do."
  | Some _ =>
      world <- get_world ;;
      let bodies_to_display :=
        match bodies_to_display with
        | None => allNodeNames world
        | Some l => l
        end in
      for_each bodies_to_display
        (fun body_name =>
           labels <- query getMarkerLabels ;;
           if negb (Py.contains body_name labels)
           then addFreeMarkers (Single body_name)
           else verbose_print
                  ("Warning: " ++ body_name
                     ++ " marker already exists. Nothing to do.")%string)
  end.

Definition removeMarkers (bodies_to_hide : option (list string))
  : M B unit :=
  self <- get_self ;;
  match graph_scn self with
  | None => verbose_print "No graphic agent. Nothing to do."
  | Some _ =>
      world <- get_world ;;
      let bodies_to_hide :=
        match bodies_to_hide with
        | None => allNodeNames world
        | Some l => l
        end in
      for_each bodies_to_hide
        (fun body_name =>
           labels <- query getMarkerLabels ;;
           if Py.contains body_name labels
           then call (mk_removeMarker body_name)
           else verbose_print
                  ("Warning: " ++ body_name
                     ++ " marker does not exist. Nothing to do.")%string)
  end.

Definition addMarkerToSimulation (name : string) (thin_markers : bool)
  : M B unit :=
  self <- get_self ;;
  match graph_scn self with
  | None => verbose_print "No graphic agent. Nothing to do."
  | Some _ => call (mk_addMarker name thin_markers)
  end.

Definition removeMarkerFromSimulation (name : string) : M B unit :=
  self <- get_self ;;
  match graph_scn self with
  | None => verbose_print "No graphic agent. Nothing to do."
  | Some _ => call (mk_removeMarker name)
  end.

End Methods.

(** *** Creating agents

    The methods that create or proxy agents, seen on the handles they
    assign: the two graphics attributes are set together. *)

Definition createClockAgent (clock_name : string) (self : WorldManager)
  : WorldManager :=
  {| phy := phy self; graph := graph self;
     clock := Some (handle clock_name);
     ms := ms self; xcd := xcd self; graph_scn := graph_scn self;
     icsync := icsync self |}.

Definition createPhysicAgent (phy_name : string) (self : WorldManager)
  : WorldManager :=
  {| phy := Some (handle phy_name); graph := graph self;
     clock := clock self;
     ms := Some (handle "main"); xcd := Some (handle "xcd");
     graph_scn := graph_scn self; icsync := Some (handle "icsync") |}.

Definition createGraphicAgent (graph_name scene_name : string)
  (self : WorldManager) : WorldManager :=
  {| phy := phy self; graph := Some (handle graph_name);
     clock := clock self; ms := ms self; xcd := xcd self;
     graph_scn := Some (handle scene_name); icsync := icsync self |}.

Definition getPhysicAgentFromCorba (phy_name : string) (self : WorldManager)
  : WorldManager :=
  {| phy := Some (handle phy_name); graph := graph self;
     clock := clock self;
     ms := Some (handle "main"); xcd := Some (handle "xcd");
     graph_scn := graph_scn self; icsync := icsync self |}.

Definition getGraphicAgentFromCorba (graph_name scene_name : string)
  (self : WorldManager) : WorldManager :=
  {| phy := phy self; graph := Some (handle graph_name);
     clock := clock self; ms := ms self; xcd := xcd self;
     graph_scn := Some (handle scene_name); icsync := icsync self |}.

Inductive reachable : WorldManager -> Prop :=
  | reach_init : reachable init
  | reach_clock n self :
      reachable self -> reachable (createClockAgent n self)
  | reach_physic n self :
      reachable self -> reachable (createPhysicAgent n self)
  | reach_graphic n sc self :
      reachable self -> reachable (createGraphicAgent n sc self)
  | reach_physic_corba n self :
      reachable self -> reachable (getPhysicAgentFromCorba n self)
  | reach_graphic_corba n sc self :
      reachable self -> reachable (getGraphicAgentFromCorba n sc self).

(** ** Vocabulary of the statements *)

(** Nodes of a physical tree, parent first / parent last. *)
Fixpoint preorder (n : PhysicalNode) : list PhysicalNode :=
  match n with
  | PNode _ _ ch => n :: flat_map preorder ch
  end.

Fixpoint postorder (n : PhysicalNode) : list PhysicalNode :=
  match n with
  | PNode _ _ ch => flat_map postorder ch ++ [n]
  end.

Fixpoint gpostorder (n : GraphicalNode) : list GraphicalNode :=
  match n with
  | GNode _ ch => flat_map gpostorder ch ++ [n]
  end.

Fixpoint size (n : PhysicalNode) : nat :=
  match n with
  | PNode _ _ ch => S (list_sum (map size ch))
  end.

Section Vocabulary.

Context {B : Type} `{Backend B}.

(** The names [addFreeMarkers] is given, as a sequence. *)
Definition names_of (a : Names) : list string :=
  match a with
  | Single n => [n]
  | Sequence l => l
  end.

Definition marker_of (n : string) : Marker := {| marker_name := n |}.

(** The state after appending markers to the World's marker list. *)
Definition with_markers (l : list Marker) (s : Sim B) : Sim B :=
  {| manager := manager s;
     world := set_markers (markers (graphical_scene (scene (world s))) ++ l)
                          (world s);
     engine := engine s; calls := calls s; stdout := stdout s |}.

Definition run_calls (cs : list Call) (e : B) : B :=
  fold_left (fun e c => do_call c e) cs e.

(** The state once the calls [cs] have been issued and [out] printed. *)
Definition after (cs : list Call) (out : list string) (s : Sim B) : Sim B :=
  {| manager := manager s; world := world s;
     engine := run_calls cs (engine s);
     calls := calls s ++ cs; stdout := stdout s ++ out |}.

(** A call issued only if its guard holds on the engine at that moment. *)
Definition Step : Type := ((B -> bool) * Call)%type.

Definition always (c : Call) : Step := (fun _ => true, c).

(** The calls a list of guarded calls really issues, from engine [e]. *)
Fixpoint sweep (steps : list Step) (e : B) : list Call :=
  match steps with
  | [] => []
  | (guard, c) :: rest =>
      if guard e then c :: sweep rest (do_call c e) else sweep rest e
  end.

(** [m] issues exactly the calls of [steps] that pass their guard, may
    print, and returns. *)
Definition sweeps (m : M B unit) (steps : list Step) (s : Sim B) : Prop :=
  exists out, m s = Returns tt (after (sweep steps (engine s)) out s).

(** What removal does at one node, in each of the three walks. *)
Definition unregister (n : PhysicalNode) : list Step :=
  [always (contact_removeAllInteractionsInvolving (rigid_body n));
   always (ocb_removeBody (rigid_body n))].

Definition erase (g : GraphicalNode) : list Step :=
  [(fun e => nodeExists e (name g), scn_removeNode (name g))].

Definition delete_body (n : PhysicalNode) : list Step :=
  (fun e => Py.contains (rigid_body n) (getBodyNames e),
   ms_removeRigidBody (rigid_body n))
  :: map (fun to_del =>
            (fun e => Py.contains to_del (getComponents e),
             phy_deleteComponent to_del))
         [rigid_body n; (rigid_body n ++ ".comp")%string; inner_joint n].

(** The contact materials [addWorldToPhysic] hands to the deserializer:
    what its first loop leaves of the World's list. *)
Definition handed_over (s : Sim B) : list string :=
  match drop_known (getContactMaterials (engine s)) 0
          (contact_materials (physical_scene (scene (world s)))) with
  | Some kept => kept
  | None => []
  end.

(** The physics agent and its main scene have been created. *)
Definition has_physics (self : WorldManager) : Prop :=
  (exists h, phy self = Some h) /\ (exists h, ms self = Some h).

(** Calls of [removeWorldFromPhysic]: the mechanisms, then every tree of
    the physical scene children first, then the material clean-up. *)
Definition physic_removal (w : World) : list Step :=
  map (fun m => always (phy_deleteComponent (mechanism_name m)))
      (mechanisms (physical_scene (scene w)))
  ++ flat_map delete_body
       (flat_map postorder (nodes (physical_scene (scene w))))
  ++ [always ms_removeUnusedContactMaterials].

(** Calls of [removeWorldFromGraphic] when the physical scene has a first
    root: that root's tree is taken off the connector, the graphical tree
    is removed, then the World's markers. *)
Definition unmark (m : Marker) : list Step :=
  [(fun e => Py.contains (marker_name m) (getMarkerLabels e),
    mk_removeMarker (marker_name m))].

Definition graphic_removal (root : PhysicalNode) (w : World) : list Step :=
  flat_map unregister (postorder root)
  ++ flat_map erase (gpostorder (root_node (graphical_scene (scene w))))
  ++ flat_map unmark (markers (graphical_scene (scene w))).

(** The method returned, issued no call, changed neither the World nor the
    engines nor the manager, and printed at most one line. *)
Definition skipped (o : Outcome B unit) (s : Sim B) : Prop :=
  exists out, o = Returns tt (after [] out s) /\ length out <= 1.

(** Components of a kind, as [cleanPhy] lists them. *)
Definition of_kind (kind : string) (e : B) : list string :=
  filter (fun comp => String.eqb (getType e comp) kind) (getComponents e).

Definition deleting (l : list string) : list Call := map phy_deleteComponent l.

(** Running [m] again right after itself returns and changes neither the
    World nor the engines, and issues no call. *)
Definition idempotent (m : M B unit) (s : Sim B) : Prop :=
  exists s1 s2,
    m s = Returns tt s1 /\ m s1 = Returns tt s2
    /\ world s2 = world s1 /\ engine s2 = engine s1 /\ calls s2 = calls s1.

(** The names the marker methods work on. *)
Definition targets (bodies : option (list string)) (w : World) : list string :=
  match bodies with
  | None => allNodeNames w
  | Some l => l
  end.

Definition hide (n : string) : list Step :=
  [(fun e => Py.contains n (getMarkerLabels e), mk_removeMarker n)].

Definition missing (e : B) (n : string) : bool :=
  negb (Py.contains n (getMarkerLabels e)).

End Vocabulary.

Arguments Step B : clear implicits.

(** Calls on the graphics side of a removal that leave the body-state
    connector alone. *)
Definition beside_connector (c : Call) : bool :=
  match c with
  | contact_removeAllInteractionsInvolving _ => true
  | scn_removeNode _ => true
  | mk_removeMarker _ => true
  | _ => false
  end.

(** What is assumed of the connector to speak of bodies that "remain
    registered": removing a body leaves the others, and the calls above do
    not unregister anything. *)
Class ConnectorLaws (B : Type) `{Backend B} : Prop := {
  removeBody_others :
    forall e b b', b <> b' -> In b (ocbBodies e) ->
                   In b (ocbBodies (do_call (ocb_removeBody b') e));
  beside_connector_frame :
    forall e c b, beside_connector c = true -> In b (ocbBodies e) ->
                  In b (ocbBodies (do_call c e)) }.

(** What is assumed of the marker registry to speak of repeated removals:
    removing a marker adds no label and the removed label is gone. *)
Class MarkerLaws (B : Type) `{Backend B} : Prop := {
  removeMarker_labels :
    forall e n m,
      In m (getMarkerLabels (do_call (mk_removeMarker n) e)) ->
      In m (getMarkerLabels e) /\ m <> n }.

(** [m] leaves the observation [f] of the state as it was, whether it
    returns or raises. *)
Definition keeps {B A X : Type} (f : Sim B -> X) (m : M B A) : Prop :=
  forall s, f (final (m s)) = f s.

(** Observations that neither an engine call nor a print changes. *)
Definition beside_engine {B X : Type} (f : Sim B -> X) : Prop :=
  forall self w e cs out e' cs' out',
    f {| manager := self; world := w; engine := e; calls := cs;
         stdout := out |}
    = f {| manager := self; world := w; engine := e'; calls := cs';
           stdout := out' |}.

(** What [verbose_print msg] prints. *)
Definition said (verbose : bool) (msg : string) : list string :=
  if verbose then [msg] else [].

(** What is assumed of the component registry to speak of what a clean-up
    leaves: deleting a component adds none and the deleted one is gone. *)
Class ComponentLaws (B : Type) `{Backend B} : Prop := {
  deleteComponent_components :
    forall e c x,
      In x (getComponents (do_call (phy_deleteComponent c) e)) ->
      In x (getComponents e) /\ x <> c }.

(** ** A reference engine

    The simplest engine that has the registries the manager reads: a
    component registry with kinds, the bodies of the main scene with the
    contact material each one uses, the scene's contact materials, the
    bodies on the body-state connector, the graphical nodes and the marker
    labels.  It instantiates the statements that hold for every engine. *)

Module Reference.

Record Engine : Type := {
  components : list (string * string);
  bodies : list (string * option string);
  materials : list string;
  ocb : list string;
  graph_nodes : list string;
  marker_labels : list string }.

Definition empty : Engine :=
  {| components := []; bodies := []; materials := []; ocb := [];
     graph_nodes := []; marker_labels := [] |}.

Definition differs (x y : string) : bool := negb (String.eqb x y).

(** Components a physical node stands for: its rigid body, the body's
    composite and its inner joint. *)
Fixpoint node_components (n : PhysicalNode) : list (string * string) :=
  match n with
  | PNode rb joint ch =>
      (rb, "RigidBody") :: ((rb ++ ".comp")%string, "Composite")
        :: (joint, "Joint") :: flat_map node_components ch
  end.

Fixpoint node_bodies (n : PhysicalNode) : list string :=
  match n with
  | PNode rb _ ch => rb :: flat_map node_bodies ch
  end.

Fixpoint node_names (n : GraphicalNode) : list string :=
  match n with
  | GNode s ch => s :: flat_map node_names ch
  end.

Definition uses (m : string) (b : string * option string) : bool :=
  match snd b with
  | Some m' => String.eqb m m'
  | None => false
  end.

Definition in_use (e : Engine) (m : string) : bool := existsb (uses m) (bodies e).

(** Modelled from the spec: the engines' code (the two
    [deserializeWorld] builders, [deleteComponent], the scene and connector
    methods) is outside the source tree.  Following the spec, deserializing
    creates the bodies, joints, mechanisms and materials of the World, a
    removal removes the named entry, and [removeUnusedContactMaterials]
    purges the materials no remaining body refers to. *)
Definition step (c : Call) (e : Engine) : Engine :=
  match c with
  | phy_deserializeWorld w =>
      let ps := physical_scene (scene w) in
      {| components :=
           components e
             ++ map (fun m => (mechanism_name m, "Robot")) (mechanisms ps)
             ++ flat_map node_components (nodes ps);
         bodies :=
           bodies e ++ map (fun b => (b, None)) (flat_map node_bodies (nodes ps));
         materials := materials e ++ contact_materials ps;
         ocb := ocb e; graph_nodes := graph_nodes e;
         marker_labels := marker_labels e |}
  | graph_deserializeWorld w =>
      let gs := graphical_scene (scene w) in
      {| components := components e; bodies := bodies e;
         materials := materials e; ocb := ocb e;
         graph_nodes := graph_nodes e ++ node_names (root_node gs);
         marker_labels := marker_labels e ++ map marker_name (markers gs) |}
  | phy_deleteComponent c =>
      {| components := filter (fun p => differs c (fst p)) (components e);
         bodies := bodies e; materials := materials e; ocb := ocb e;
         graph_nodes := graph_nodes e; marker_labels := marker_labels e |}
  | ocb_addBody b =>
      {| components := components e; bodies := bodies e;
         materials := materials e; ocb := ocb e ++ [b];
         graph_nodes := graph_nodes e; marker_labels := marker_labels e |}
  | ocb_removeBody b =>
      {| components := components e; bodies := bodies e;
         materials := materials e; ocb := filter (differs b) (ocb e);
         graph_nodes := graph_nodes e; marker_labels := marker_labels e |}
  | ms_removeRigidBody b =>
      {| components := components e;
         bodies := filter (fun p => differs b (fst p)) (bodies e);
         materials := materials e; ocb := ocb e;
         graph_nodes := graph_nodes e; marker_labels := marker_labels e |}
  | ms_removeUnusedContactMaterials =>
      {| components := components e; bodies := bodies e;
         materials := filter (in_use e) (materials e); ocb := ocb e;
         graph_nodes := graph_nodes e; marker_labels := marker_labels e |}
  | ms_clean =>
      {| components := components e; bodies := []; materials := [];
         ocb := ocb e; graph_nodes := graph_nodes e;
         marker_labels := marker_labels e |}
  | contact_removeAllInteractionsInvolving _ => e
  | scn_removeNode n =>
      {| components := components e; bodies := bodies e;
         materials := materials e; ocb := ocb e;
         graph_nodes := filter (differs n) (graph_nodes e);
         marker_labels := marker_labels e |}
  | scn_clearScene =>
      {| components := components e; bodies := bodies e;
         materials := materials e; ocb := ocb e; graph_nodes := [];
         marker_labels := marker_labels e |}
  | mk_addMarker n _ =>
      {| components := components e; bodies := bodies e;
         materials := materials e; ocb := ocb e;
         graph_nodes := graph_nodes e;
         marker_labels := marker_labels e ++ [n] |}
  | mk_removeMarker n =>
      {| components := components e; bodies := bodies e;
         materials := materials e; ocb := ocb e;
         graph_nodes := graph_nodes e;
         marker_labels := filter (differs n) (marker_labels e) |}
  | mk_clearMarkers =>
      {| components := components e; bodies := bodies e;
         materials := materials e; ocb := ocb e;
         graph_nodes := graph_nodes e; marker_labels := [] |}
  | glyph_clearCollections => e
  | mat_clearMaterials => e
  end.

Definition kind_of (e : Engine) (c : string) : string :=
  match find (fun p => String.eqb c (fst p)) (components e) with
  | Some p => snd p
  | None => ""
  end.

#[export] Instance backend : Backend Engine := {
  do_call := step;
  getComponents e := map fst (components e);
  getType := kind_of;
  getBodyNames e := map fst (bodies e);
  getContactMaterials := materials;
  nodeExists e n := Py.contains n (graph_nodes e);
  getMarkerLabels := marker_labels;
  ocbBodies := ocb }.

(** A manager with clock and physics agents, without / with graphics. *)
Definition physics_only : WorldManager :=
  {| phy := Some (handle "physic"); graph := None;
     clock := Some (handle "clock"); ms := Some (handle "main");
     xcd := Some (handle "xcd"); graph_scn := None;
     icsync := Some (handle "icsync") |}.

Definition with_graphics : WorldManager :=
  {| phy := Some (handle "physic"); graph := Some (handle "graphic");
     clock := Some (handle "clock"); ms := Some (handle "main");
     xcd := Some (handle "xcd"); graph_scn := Some (handle "scene");
     icsync := Some (handle "icsync") |}.

Definition start (self : WorldManager) (w : World) (e : Engine)
  : Sim Engine :=
  {| manager := self; world := w; engine := e; calls := []; stdout := [] |}.

(** A world from its physical roots, materials and graphical root. *)
Definition mk_world (roots : list PhysicalNode) (mechs : list string)
  (mats : list string) (groot : GraphicalNode) (mks : list string) : World :=
  {| scene :=
       {| physical_scene :=
            {| nodes := roots;
               mechanisms := map (fun m => {| mechanism_name := m |}) mechs;
               contact_materials := mats |};
          graphical_scene :=
            {| root_node := groot;
               markers := map (fun m => {| marker_name := m |}) mks |} |} |}.

(** *** Worlds and scenes of the examples *)

Definition no_graphics : GraphicalNode := GNode "" [].

(** A(children = [B, C]) *)
Definition tree_ABC : PhysicalNode :=
  PNode "A" "jA" [PNode "B" "jB" []; PNode "C" "jC" []].

Definition world_ABC : World :=
  mk_world [tree_ABC] [] [] (GNode "gA" [GNode "gB" []; GNode "gC" []]) [].

(** The engines once [world_ABC] has been deserialized on both sides and
    its bodies put on the connector. *)
Definition loaded_ABC : Engine :=
  run_calls [phy_deserializeWorld world_ABC; graph_deserializeWorld world_ABC;
             ocb_addBody "A"; ocb_addBody "B"; ocb_addBody "C"] empty.

(** Two roots, the first with a child. *)
Definition world_two_roots : World :=
  mk_world [PNode "R1" "j1" [PNode "X" "jX" []]; PNode "R2" "j2" []] [] []
           (GNode "g" []) [].

Definition loaded_two_roots : Engine :=
  run_calls [phy_deserializeWorld world_two_roots;
             graph_deserializeWorld world_two_roots;
             ocb_addBody "R1"; ocb_addBody "X"; ocb_addBody "R2"] empty.

Definition world_no_root : World := mk_world [] [] [] (GNode "g" []) [].

(** One rigid body in the registry and in the scene. *)
Definition one_box : Engine :=
  step (phy_deserializeWorld
          (mk_world [PNode "box1" "j1" []] ["robot"] [] no_graphics []))
       empty.

(** One body, no marker yet in the engine. *)
Definition world_b : World :=
  mk_world [PNode "b" "j" []] [] [] (GNode "g" []) [].

Definition marked_b : Engine := step (mk_addMarker "b" true) empty.

(** A scene whose only contact material, "steel", is used by the body
    "floor"; the World brings one body and the material "rubber". *)
Definition floor_on_steel : Engine :=
  {| components := [("floor", "RigidBody")];
     bodies := [("floor", Some "steel")];
     materials := ["steel"]; ocb := []; graph_nodes := [];
     marker_labels := [] |}.

Definition world_box1 : World :=
  mk_world [PNode "box1" "j1" []] [] ["rubber"] (GNode "" []) [].

(** One body and the materials "steel", which such a scene has already,
    and "rubber". *)
Definition world_box1_on_steel : World :=
  mk_world [PNode "box1" "j1" []] [] ["steel"; "rubber"] (GNode "" []) [].

(** A scene left by an earlier World that defined the contact material
    "steel" and no body. *)
Definition steel_unused : Engine :=
  step (phy_deserializeWorld (mk_world [] [] ["steel"] (GNode "" []) []))
       empty.

(** *** The registry of the physics engine *)

(** Components, bodies of the main scene, contact materials. *)
Definition registry (e : Engine)
  : list (string * string) * list (string * option string) * list string :=
  (components e, bodies e, materials e).

(** Names a World brings into the registry. *)
Definition node_dels (n : PhysicalNode) : list string :=
  [rigid_body n; (rigid_body n ++ ".comp")%string; inner_joint n].

Definition world_nodes (w : World) : list PhysicalNode :=
  flat_map preorder (nodes (physical_scene (scene w))).

Definition world_components (w : World) : list string :=
  map mechanism_name (mechanisms (physical_scene (scene w)))
  ++ flat_map node_dels (world_nodes w).

Definition world_bodies (w : World) : list string :=
  map rigid_body (world_nodes w).

(** Calls of the removal when no existence check fails. *)
Definition node_calls (n : PhysicalNode) : list Call :=
  ms_removeRigidBody (rigid_body n)
  :: map phy_deleteComponent (node_dels n).

Definition removal_calls (w : World) : list Call :=
  map (fun m => phy_deleteComponent (mechanism_name m))
      (mechanisms (physical_scene (scene w)))
  ++ flat_map node_calls
       (flat_map postorder (nodes (physical_scene (scene w)))).

(** The Worlds handed to the physics deserializer, oldest first. *)
Definition deserialized (cs : list Call) : list World :=
  flat_map (fun c => match c with
                     | phy_deserializeWorld w => [w]
                     | _ => []
                     end) cs.

Definition deleted (cs : list Call) : list string :=
  flat_map (fun c => match c with
                     | phy_deleteComponent x => [x]
                     | _ => []
                     end) cs.

Definition unbodied (cs : list Call) : list string :=
  flat_map (fun c => match c with
                     | ms_removeRigidBody b => [b]
                     | _ => []
                     end) cs.

Definition removal_call (c : Call) : bool :=
  match c with
  | phy_deleteComponent _ => true
  | ms_removeRigidBody _ => true
  | _ => false
  end.

Definition absent_from (names : list string) {X} (p : string * X) : bool :=
  negb (Py.contains (fst p) names).

(** A deletion whose existence check fails would have changed nothing. *)
Definition harmless (st : Step Engine) : Prop :=
  forall e, fst st e = false -> step (snd st) e = e.

End Reference.

(** ** Agents, wiring and the viewer

    The methods of [WorldManager] that create, connect, start and stop the
    agents and drive the viewer.  The deployer, the agents and the viewer
    are external: every operation asked of them is logged, in order.
    Periods, ratios and displacements are passed through unread, so their
    types are left open. *)

Module Lifecycle.

Inductive AgentId : Type := Clock | Physic | Graphic | MarkerManager.

(** [agent.getPort(name)] *)
Definition Port : Type := (AgentId * string)%type.

Inductive Error : Type :=
  | PyError (e : Py.Exn)
  | AssertionError
  | ImportError.

Section Life.

Context {B : Type} `{Backend B}.

(** Doubles (periods, ratios) and displacements. *)
Variables Real Disp : Type.

(** The numbers 0 and 1, defaults of [createViewPort]. *)
Variables r0 r1 : Real.

(** The names [agents.graphic.simple.setupSingleGLView] returns. *)
Variables scene_name window_name viewport_name : string.

Inductive Op : Type :=
  (* the deployer and the agent factories *)
  | load_clock (clock_name : string)
  | create_physic_agent (phy_name : string)
  | create_graphic_agent (graph_name : string)
  | create_marker_manager (period : option Real)
  | get_proxy (agent_name : string)
  (* any agent *)
  | setPeriod (a : AgentId) (p : Real)
  | start (a : AgentId)
  | stop (a : AgentId)
  | connectTo (p q : Port)
  | disconnect (p : Port)
  (* the physics agent *)
  | createGVMScene (scene : string) (time_step : Real)
      (uc_relaxation_factor : Real)
  | createXCDScene (scene kind : string) (lmd_max : Real)
  | setGeometricalScene
  | new_connector (a : AgentId) (kind : string) (args : list string)
  | addCreateInputPort (port type : string)
  | addEvent (port : string)
  | phy_startSimulation
  | phy_stopSimulation
  (* the graphics agent and its viewer *)
  | setupSingleGLView
  | configureBasicLights
  | configureBasicCamera
  | enableNavigation (on : bool)
  | showGround (on : bool)
  | createOgreWindowAndInput (window : string)
  | viewer_resizeWindow (window : string) (width height : Z)
  | viewer_moveWindow (window : string) (x y : Z)
  | bindSceneWindow (scene window viewport : string) (z : Z)
  | createCamera (camera : string)
  | switchToCamera (camera viewport : string)
  | viewer_resizeViewport (viewport : string) (x y rx ry : Real)
  | setViewportCustomRatio (viewport : string) (ratio : Real)
  | attachCameraToNode (camera node : string)
  | attachCameraToNewNode (camera parent : string) (H : Disp).

(** The manager with the attributes the composition methods do not read,
    what the agents answer to the two queries made of them, and the log.
    Modelled from the spec: the agents are outside the source tree; the
    clock answers [getPeriod()] with the period last set on it, and the
    viewer lists the scene its set-up made. *)
Record Life : Type := {
  sim : Sim B;
  corba : bool;
  internal_z : Z;
  markers : option Handle;
  clock_period : option Real;      (* clock.s.getPeriod() *)
  scene_labels : list string;      (* graph.s.Viewer.getSceneLabels() *)
  ops : list Op }.

Inductive Result (A : Type) : Type :=
  | Done (a : A) (st : Life)
  | Failed (e : Error) (st : Life).
Arguments Done {A} _ _.
Arguments Failed {A} _ _.

Definition outcome {A} (r : Result A) : Life :=
  match r with Done _ st => st | Failed _ st => st end.

Definition done {A} (r : Result A) : bool :=
  match r with Done _ _ => true | Failed _ _ => false end.

Definition L (A : Type) : Type := Life -> Result A.

Definition unit_ {A} (a : A) : L A := fun st => Done a st.

Definition then_ {A C} (m : L A) (k : A -> L C) : L C :=
  fun st => match m st with
            | Done a st' => k a st'
            | Failed e st' => Failed e st'
            end.

Definition fail {A} (e : Error) : L A := fun st => Failed e st.

Notation "x <~ c1 ;;; c2" := (then_ c1 (fun x => c2))
  (at level 61, c1 at next level, right associativity).
Notation "c1 ;;; c2" := (then_ c1 (fun _ => c2))
  (at level 61, right associativity).

Definition with_sim (s : Sim B) (st : Life) : Life :=
  {| sim := s; corba := corba st; internal_z := internal_z st;
     markers := markers st; clock_period := clock_period st;
     scene_labels := scene_labels st; ops := ops st |}.

(** A method of the composition layer, run on the manager. *)
Definition lift {A} (m : M B A) : L A :=
  fun st => match m (sim st) with
            | Returns a s => Done a (with_sim s st)
            | Raises e s => Failed (PyError e) (with_sim s st)
            end.

(** An operation asked of the deployer, an agent or the viewer. *)
Definition emit (o : Op) : L unit :=
  fun st => Done tt
    {| sim := sim st; corba := corba st; internal_z := internal_z st;
       markers := markers st; clock_period := clock_period st;
       scene_labels := scene_labels st; ops := ops st ++ [o] |}.

(** [self.attr = ...] on the attributes of the manager. *)
Definition assign (f : WorldManager -> WorldManager) : L unit :=
  fun st =>
    Done tt
      (with_sim {| manager := f (manager (sim st)); world := world (sim st);
                   engine := engine (sim st); calls := calls (sim st);
                   stdout := stdout (sim st) |} st).

Definition set_clock (h : Handle) (self : WorldManager) : WorldManager :=
  {| phy := phy self; graph := graph self; clock := Some h; ms := ms self;
     xcd := xcd self; graph_scn := graph_scn self; icsync := icsync self |}.

Definition set_phy (h : Handle) (self : WorldManager) : WorldManager :=
  {| phy := Some h; graph := graph self; clock := clock self; ms := ms self;
     xcd := xcd self; graph_scn := graph_scn self; icsync := icsync self |}.

Definition set_ms (h : Handle) (self : WorldManager) : WorldManager :=
  {| phy := phy self; graph := graph self; clock := clock self; ms := Some h;
     xcd := xcd self; graph_scn := graph_scn self; icsync := icsync self |}.

Definition set_xcd (h : Handle) (self : WorldManager) : WorldManager :=
  {| phy := phy self; graph := graph self; clock := clock self; ms := ms self;
     xcd := Some h; graph_scn := graph_scn self; icsync := icsync self |}.

Definition set_icsync (h : Handle) (self : WorldManager) : WorldManager :=
  {| phy := phy self; graph := graph self; clock := clock self; ms := ms self;
     xcd := xcd self; graph_scn := graph_scn self; icsync := Some h |}.

Definition set_graph (h : Handle) (self : WorldManager) : WorldManager :=
  {| phy := phy self; graph := Some h; clock := clock self; ms := ms self;
     xcd := xcd self; graph_scn := graph_scn self; icsync := icsync self |}.

Definition set_graph_scn (h : Handle) (self : WorldManager) : WorldManager :=
  {| phy := phy self; graph := graph self; clock := clock self; ms := ms self;
     xcd := xcd self; graph_scn := Some h; icsync := icsync self |}.

Definition set_markers_agent (h : Handle) : L unit :=
  fun st => Done tt
    {| sim := sim st; corba := corba st; internal_z := internal_z st;
       markers := Some h; clock_period := clock_period st;
       scene_labels := scene_labels st; ops := ops st |}.

Definition self_ : L WorldManager := fun st => Done (manager (sim st)) st.

(** [assert(self.attr is not None)] *)
Definition assert_set (f : WorldManager -> option Handle) : L unit :=
  fun st => match f (manager (sim st)) with
            | Some _ => Done tt st
            | None => Failed AssertionError st
            end.

(** [self.attr.something], with [self.attr] possibly [None] *)
Definition attr (f : WorldManager -> option Handle) : L Handle :=
  fun st => match f (manager (sim st)) with
            | Some h => Done h st
            | None => Failed (PyError Py.AttributeError) st
            end.

(** [print msg], whatever [verbose] is. *)
Definition say (msg : string) : L unit := lift (print msg).

Variable verbose : bool.

Definition tell (msg : string) : L unit := lift (verbose_print verbose msg).

Definition createClockAgent (time_step : Real) (clock_name : string)
  : L unit :=
  tell "CREATE CLOCK..." ;;;
  emit (load_clock clock_name) ;;;
  assign (set_clock (handle clock_name)) ;;;
  emit (setPeriod Clock time_step) ;;;
  (* from now on the clock answers getPeriod() with time_step *)
  (fun st => Done tt
     {| sim := sim st; corba := corba st; internal_z := internal_z st;
        markers := markers st; clock_period := Some time_step;
        scene_labels := scene_labels st; ops := ops st |}).

Definition createPhysicAgent (time_step : Real) (dt : option Real)
  (phy_name : string) (lmd_max uc_relaxation_factor : Real) : L unit :=
  tell "CREATE PHYSIC..." ;;;
  emit (create_physic_agent phy_name) ;;;
  assign (set_phy (handle phy_name)) ;;;
  emit (setPeriod Physic time_step) ;;;
  let dt := match dt with None => time_step | Some d => d end in
  emit (createGVMScene "main" dt uc_relaxation_factor) ;;;
  assign (set_ms (handle "main")) ;;;
  emit (createXCDScene "xcd" "LMD" lmd_max) ;;;
  assign (set_xcd (handle "xcd")) ;;;
  emit setGeometricalScene ;;;
  emit (new_connector Physic "OConnectorBodyStateList"
                      ["ocb"; "body_state"]) ;;;
  emit (new_connector Physic "OConnectorContactBody" ["occ"; "contacts"]) ;;;
  tell "CREATE PORTS..." ;;;
  emit (addCreateInputPort "clock_trigger" "double") ;;;
  emit (new_connector Physic "IConnectorSynchro" ["icsync"]) ;;;
  assign (set_icsync (handle "icsync")) ;;;
  emit (addEvent "clock_trigger").

Definition createGraphicAgent (graph_name : string) : L unit :=
  tell "CREATE GRAPHIC..." ;;;
  emit (create_graphic_agent graph_name) ;;;
  assign (set_graph (handle graph_name)) ;;;
  emit setupSingleGLView ;;;
  assign (set_graph_scn (handle scene_name)) ;;;
  (* the viewer now has the scene the set-up made *)
  (fun st => Done tt
     {| sim := sim st; corba := corba st; internal_z := internal_z st;
        markers := markers st; clock_period := clock_period st;
        scene_labels := scene_labels st ++ [scene_name]; ops := ops st |}) ;;;
  emit configureBasicLights ;;;
  emit configureBasicCamera ;;;
  emit (enableNavigation true) ;;;
  emit (showGround false) ;;;
  emit (new_connector Graphic "IConnectorBody"
                      ["icb"; "body_state_H"; scene_name]) ;;;
  emit (new_connector Graphic "IConnectorFrame"
                      ["icf"; "framePosition"; scene_name]) ;;;
  emit (new_connector Graphic "IConnectorContacts"
                      ["icc"; "contacts"; scene_name]) ;;;
  emit (start Graphic) ;;;
  (* self.clock.s.getPeriod() *)
  _ <~ attr clock ;;;
  period <~ (fun st => Done (clock_period st) st) ;;;
  emit (create_marker_manager period) ;;;
  set_markers_agent (handle "MarkerManager") ;;;
  emit (connectTo (Graphic, "framePosition")
                  (MarkerManager, "markerPositionPort_out")) ;;;
  emit (start MarkerManager).

Definition connectGraphToPhysic : L unit :=
  assert_set graph ;;;
  assert_set phy ;;;
  emit (connectTo (Graphic, "body_state_H") (Physic, "body_state_H")) ;;;
  emit (connectTo (Graphic, "contacts") (Physic, "contacts")).

Definition disconnectGraphFromPhysic : L unit :=
  assert_set graph ;;;
  assert_set phy ;;;
  emit (disconnect (Graphic, "body_state_H")) ;;;
  emit (disconnect (Graphic, "framePosition")) ;;;
  emit (disconnect (Graphic, "contacts")).

Definition connectClockToPhysic : L unit :=
  assert_set clock ;;;
  assert_set phy ;;;
  emit (connectTo (Clock, "ticks") (Physic, "clock_trigger")).

Definition startAgents : L unit :=
  self <~ self_ ;;;
  (match clock self with Some _ => emit (start Clock) | None => unit_ tt end) ;;;
  self <~ self_ ;;;
  match phy self with Some _ => emit (start Physic) | None => unit_ tt end.

Definition stopAgents : L unit :=
  self <~ self_ ;;;
  (match clock self with Some _ => emit (stop Clock) | None => unit_ tt end) ;;;
  self <~ self_ ;;;
  match phy self with Some _ => emit (stop Physic) | None => unit_ tt end.

Definition createAndConnectGraphicAgent (graph_name : string) : L unit :=
  createGraphicAgent graph_name ;;;
  connectGraphToPhysic.

Definition createAllAgents (time_step : Real) (dt : option Real)
  (phy_name : string) (lmd_max uc_relaxation_factor : Real)
  (create_graphic : bool) (graph_name : string) : L unit :=
  createClockAgent time_step "clock" ;;;
  createPhysicAgent time_step dt phy_name lmd_max uc_relaxation_factor ;;;
  connectClockToPhysic ;;;
  if create_graphic then createAndConnectGraphicAgent graph_name
  else unit_ tt.

Definition getPhysicAgentFromCorba (phy_name : string) : L unit :=
  fun st =>
    if corba st
    then (emit (get_proxy phy_name) ;;;
          assign (set_phy (handle phy_name)) ;;;
          assign (set_ms (handle "main")) ;;;
          assign (set_xcd (handle "xcd"))) st
    else Failed ImportError st.

Definition getGraphicAgentFromCorba (graph_name : string) : L unit :=
  fun st =>
    if corba st
    then (emit (get_proxy graph_name) ;;;
          assign (set_graph (handle graph_name)) ;;;
          Lscenes <~ (fun st => Done (scene_labels st) st) ;;;
          match Lscenes with
          | [] => fail (PyError Py.IndexError)
          | first :: others =>
              assign (set_graph_scn (handle first)) ;;;
              match others with
              | [] => unit_ tt
              | _ :: _ =>
                  say ("Warning: many graphical scenes found in new agent. "
                         ++ "Bind graph_scn with first: " ++ first)%string
              end
          end) st
    else Failed ImportError st.

(** [self.phy_worlds]: no method of the class ever sets this attribute. *)
Definition phy_worlds : L (list (string * list World)) :=
  fail (PyError Py.AttributeError).

Definition lookup_worlds (phy_name : string)
  (d : list (string * list World)) : option (list World) :=
  match find (fun p => String.eqb phy_name (fst p)) d with
  | Some p => Some (snd p)
  | None => None
  end.

Definition each {X} (l : list X) (body : X -> L unit) : L unit :=
  (fix go (l : list X) : L unit :=
     match l with
     | [] => unit_ tt
     | x :: l' => body x ;;; go l'
     end) l.

(** [self.addWorldToGraphic(world)] on another World object. *)
Definition on_world (w : World) (m : M B unit) : L unit :=
  fun st =>
    lift m (with_sim {| manager := manager (sim st); world := w;
                        engine := engine (sim st); calls := calls (sim st);
                        stdout := stdout (sim st) |} st).

Definition changePhy (phy_name : string) : L unit :=
  disconnectGraphFromPhysic ;;;
  lift cleanGraph ;;;
  getPhysicAgentFromCorba phy_name ;;;
  d <~ phy_worlds ;;;
  match lookup_worlds phy_name d with
  | Some worlds =>
      each worlds (fun world => on_world world (addWorldToGraphic verbose))
  | None => unit_ tt
  end ;;;
  connectGraphToPhysic.

Definition stopSimulation : L unit :=
  _ <~ attr phy ;;; emit phy_stopSimulation.

Definition startSimulation : L unit :=
  _ <~ attr phy ;;; emit phy_startSimulation.

Definition no_graphic_agent : L unit :=
  tell "No graphic agent. Nothing to do.".

Definition resizeViewport (viewportName : string) (x y rx ry ratio : Real)
  : L unit :=
  self <~ self_ ;;;
  match graph self with
  | None => no_graphic_agent
  | Some _ =>
      emit (viewer_resizeViewport viewportName x y rx ry) ;;;
      emit (setViewportCustomRatio viewportName ratio)
  end.

Definition resizeWindow (windowName : string) (width height x y : Z)
  : L unit :=
  self <~ self_ ;;;
  match graph self with
  | None => no_graphic_agent
  | Some _ =>
      emit (viewer_resizeWindow windowName width height) ;;;
      emit (viewer_moveWindow windowName x y)
  end.

Definition createViewPort (windowName viewportName : string)
  (x y rx ry ratio : Real) (z : option Z) : L unit :=
  self <~ self_ ;;;
  match graph self with
  | None => no_graphic_agent
  | Some _ =>
      Lscenes <~ (fun st => Done (scene_labels st) st) ;;;
      match Lscenes with
      | [] => fail (PyError Py.IndexError)
      | scene :: _ =>
          z <~ match z with
               | Some z => unit_ z
               | None =>
                   (* z = self._internal_z; self._internal_z += 1 *)
                   fun st =>
                     Done (internal_z st)
                       {| sim := sim st; corba := corba st;
                          internal_z := (internal_z st + 1)%Z;
                          markers := markers st;
                          clock_period := clock_period st;
                          scene_labels := scene_labels st; ops := ops st |}
               end ;;;
          emit (bindSceneWindow scene windowName viewportName z) ;;;
          _ <~ attr graph_scn ;;;
          emit (createCamera (viewportName ++ ".cam")%string) ;;;
          emit (switchToCamera (viewportName ++ ".cam")%string viewportName) ;;;
          resizeViewport viewportName x y rx ry ratio
      end
  end.

Definition createWindow (windowName : string) (width height x y : Z)
  (viewPortName : option string) : L unit :=
  self <~ self_ ;;;
  match graph self with
  | None => no_graphic_agent
  | Some _ =>
      emit (createOgreWindowAndInput windowName) ;;;
      resizeWindow windowName width height x y ;;;
      let viewPortName :=
        match viewPortName with
        | None => (windowName ++ ".vp")%string
        | Some n => n
        end in
      createViewPort windowName viewPortName r0 r0 r1 r1 r1 None
  end.

Definition attachViewPortToNode (viewportName nodeName : string) : L unit :=
  self <~ self_ ;;;
  match graph_scn self with
  | None => no_graphic_agent
  | Some _ =>
      emit (attachCameraToNode (viewportName ++ ".cam")%string nodeName)
  end.

Definition attachViewPortToNewNode (viewportName parentNodeName : string)
  (H : Disp) : L unit :=
  self <~ self_ ;;;
  match graph_scn self with
  | None => no_graphic_agent
  | Some _ =>
      emit (attachCameraToNewNode (viewportName ++ ".cam")%string
                                  parentNodeName H)
  end.

(** [WorldManager(corba)], with the World and the engines the methods will
    be given: no agent yet, the depth counter at 1. *)
Definition new (corba : bool) (w : World) (e : B) : Life :=
  {| sim := {| manager := init; world := w; engine := e; calls := [];
               stdout := [] |};
     corba := corba; internal_z := 1; markers := None; clock_period := None;
     scene_labels := []; ops := [] |}.

(** [test/main.py], up to the interactive shell.  [lmd_max] and
    [uc_relaxation_factor] stand for the defaults 0.01 and 0.1 of
    [createAllAgents]. *)
Definition main (TIME_STEP lmd_max uc_relaxation_factor : Real) : L unit :=
  createAllAgents TIME_STEP None "physic" lmd_max uc_relaxation_factor
                  true "graphic" ;;;
  startAgents.

(** *** Reading the log *)

Definition same_agent (a b : AgentId) : bool :=
  match a, b with
  | Clock, Clock | Physic, Physic | Graphic, Graphic
  | MarkerManager, MarkerManager => true
  | _, _ => false
  end.

Definition same_port (p q : Port) : bool :=
  same_agent (fst p) (fst q) && String.eqb (snd p) (snd q).

(** Modelled from the spec: connecting two ports establishes a data flow
    until one of them is explicitly disconnected.  The ports [p] is
    connected to, once the operations of the log have been carried out. *)
Fixpoint peers (log : list Op) (p : Port) (acc : list Port) : list Port :=
  match log with
  | [] => acc
  | connectTo a b :: rest =>
      if same_port p a then peers rest p (acc ++ [b])
      else if same_port p b then peers rest p (acc ++ [a])
      else peers rest p acc
  | disconnect a :: rest =>
      if same_port p a then peers rest p []
      else peers rest p (filter (fun q => negb (same_port q a)) acc)
  | _ :: rest => peers rest p acc
  end.

(** Modelled from the spec: an agent runs from its [start] to its next
    [stop].  Whether [a] runs once the log has been carried out, having
    run or not ([was]) before. *)
Fixpoint running (log : list Op) (a : AgentId) (was : bool) : bool :=
  match log with
  | [] => was
  | start b :: rest => running rest a (if same_agent a b then true else was)
  | stop b :: rest => running rest a (if same_agent a b then false else was)
  | _ :: rest => running rest a was
  end.

(** The depths of the viewports bound so far, oldest first. *)
Definition depths (log : list Op) : list Z :=
  flat_map (fun o => match o with
                     | bindSceneWindow _ _ _ z => [z]
                     | _ => []
                     end) log.

(** [m] prints the notice that there is no graphics agent, if [verbose],
    and does nothing else. *)
Definition declines (m : L unit) (st : Life) : Prop :=
  m st = Done tt
           (with_sim
              (after [] (said verbose "No graphic agent. Nothing to do.")
                     (sim st)) st).

End Life.

Arguments sim {B Real Disp}.
Arguments corba {B Real Disp}.
Arguments internal_z {B Real Disp}.
Arguments markers {B Real Disp}.
Arguments clock_period {B Real Disp}.
Arguments scene_labels {B Real Disp}.
Arguments ops {B Real Disp}.
Arguments outcome {B Real Disp A}.
Arguments done {B Real Disp A}.
Arguments unit_ {B Real Disp A}.
Arguments then_ {B Real Disp A C}.
Arguments fail {B Real Disp A}.
Arguments with_sim {B Real Disp}.
Arguments lift {B Real Disp A}.
Arguments emit {B Real Disp}.
Arguments assign {B Real Disp}.
Arguments set_markers_agent {B Real Disp}.
Arguments self_ {B Real Disp}.
Arguments assert_set {B Real Disp}.
Arguments attr {B Real Disp}.
Arguments say {B Real Disp}.
Arguments tell {B Real Disp}.
Arguments createClockAgent {B Real Disp}.
Arguments createPhysicAgent {B Real Disp}.
Arguments createGraphicAgent {B Real Disp}.
Arguments connectGraphToPhysic {B Real Disp}.
Arguments disconnectGraphFromPhysic {B Real Disp}.
Arguments connectClockToPhysic {B Real Disp}.
Arguments startAgents {B Real Disp}.
Arguments stopAgents {B Real Disp}.
Arguments createAndConnectGraphicAgent {B Real Disp}.
Arguments createAllAgents {B Real Disp}.
Arguments getPhysicAgentFromCorba {B Real Disp}.
Arguments getGraphicAgentFromCorba {B Real Disp}.
Arguments phy_worlds {B Real Disp}.
Arguments each {B Real Disp X}.
Arguments on_world {B Real Disp}.
Arguments stopSimulation {B Real Disp}.
Arguments startSimulation {B Real Disp}.
Arguments no_graphic_agent {B Real Disp}.
Arguments resizeViewport {B Real Disp}.
Arguments resizeWindow {B Real Disp}.
Arguments createViewPort {B Real Disp}.
Arguments createWindow {B Real Disp}.
Arguments attachViewPortToNode {B Real Disp}.
Arguments attachViewPortToNewNode {B Real Disp}.
Arguments new {B Real Disp}.
Arguments main {B Real Disp}.
Arguments Done {B Real Disp A} _ _.
Arguments Failed {B Real Disp A} _ _.
Arguments changePhy {B _ Real Disp}.
Arguments load_clock {Real Disp}.
Arguments create_physic_agent {Real Disp}.
Arguments create_graphic_agent {Real Disp}.
Arguments create_marker_manager {Real Disp}.
Arguments get_proxy {Real Disp}.
Arguments setPeriod {Real Disp}.
Arguments start {Real Disp}.
Arguments stop {Real Disp}.
Arguments connectTo {Real Disp}.
Arguments disconnect {Real Disp}.
Arguments createGVMScene {Real Disp}.
Arguments createXCDScene {Real Disp}.
Arguments setGeometricalScene {Real Disp}.
Arguments new_connector {Real Disp}.
Arguments addCreateInputPort {Real Disp}.
Arguments addEvent {Real Disp}.
Arguments phy_startSimulation {Real Disp}.
Arguments phy_stopSimulation {Real Disp}.
Arguments setupSingleGLView {Real Disp}.
Arguments configureBasicLights {Real Disp}.
Arguments configureBasicCamera {Real Disp}.
Arguments enableNavigation {Real Disp}.
Arguments showGround {Real Disp}.
Arguments createOgreWindowAndInput {Real Disp}.
Arguments viewer_resizeWindow {Real Disp}.
Arguments viewer_moveWindow {Real Disp}.
Arguments bindSceneWindow {Real Disp}.
Arguments createCamera {Real Disp}.
Arguments switchToCamera {Real Disp}.
Arguments viewer_resizeViewport {Real Disp}.
Arguments setViewportCustomRatio {Real Disp}.
Arguments attachCameraToNode {Real Disp}.
Arguments attachCameraToNewNode {Real Disp}.
Arguments peers {Real Disp}.
Arguments running {Real Disp}.
Arguments depths {Real Disp}.
Arguments declines {B _ Real Disp}.

End Lifecycle.

(** ** Managers, Worlds and states of the further examples *)

Module Stage.

Import Lifecycle.

(** A manager with a graphics agent and its scene only. *)
Definition graphics_only : WorldManager :=
  {| phy := None; graph := Some (handle "graphic"); clock := None;
     ms := None; xcd := None; graph_scn := Some (handle "scene");
     icsync := None |}.

(** A manager with a physics agent whose scenes are not bound. *)
Definition agent_without_scene : WorldManager :=
  {| phy := Some (handle "physic"); graph := None; clock := None;
     ms := None; xcd := None; graph_scn := None; icsync := None |}.

(** One body under the mechanism "robot". *)
Definition world_robot : World :=
  Reference.mk_world [PNode "box1" "j1" []] ["robot"] []
                     Reference.no_graphics [].

(** Managers on the reference engine, periods in milliseconds,
    displacements left out. *)
Definition State : Type := @Life Reference.Engine Z unit.

Definition fresh (corba : bool) : State :=
  new corba Reference.world_b Reference.empty.

(** After [createAllAgents(10)], with or without graphics. *)
Definition staged (create_graphic : bool) : State :=
  outcome (createAllAgents "scene" false 10%Z None "physic" 1%Z 1%Z
                           create_graphic "graphic" (fresh false)).

(** A manager made with corba whose remote viewer shows two scenes. *)
Definition remote : State :=
  {| sim := sim (fresh true); corba := true; internal_z := 1;
     markers := None; clock_period := None;
     scene_labels := ["s1"; "s2"]; ops := [] |}.

(** A graphics agent whose scene interface is not bound, the viewer
    showing one scene. *)
Definition unbound : State :=
  {| sim := Reference.start
              {| phy := None; graph := Some (handle "graphic");
                 clock := None; ms := None; xcd := None; graph_scn := None;
                 icsync := None |}
              Reference.world_b Reference.empty;
     corba := false; internal_z := 1; markers := None;
     clock_period := None; scene_labels := ["scene"]; ops := [] |}.

End Stage.

(** ** Properties *)

(** *** Python lists *)

Module PyFacts.

Import Py.

Lemma contains_In x l : contains x l = true <-> In x l.
Proof.
  unfold contains. rewrite existsb_exists. split.
  - intros [y [Hy He]]. apply String.eqb_eq in He. now subst.
  - intros H. exists x. split; [assumption | apply String.eqb_refl].
Qed.

Lemma remove_In x l : In x l -> exists r, remove x l = Some r.
Proof.
  induction l as [|y l IH]; simpl; [tauto|].
  intros H. destruct (String.eqb x y) eqn:E; [eauto|].
  destruct H as [H|H].
  - subst. now rewrite String.eqb_refl in E.
  - destruct (IH H) as [r ->]. eauto.
Qed.

Lemma last_item_In l x : last_item l = Some x -> In x l.
Proof.
  induction l as [|y l IH]; simpl; [discriminate|].
  destruct l as [|z l'].
  - intros H. inversion H. now left.
  - intros H. right. now apply IH.
Qed.

Lemma last_item_cons y l : exists x, last_item (y :: l) = Some x.
Proof.
  revert y. induction l as [|z l IH]; intros y; simpl; [eauto|].
  apply (IH z).
Qed.

End PyFacts.

(** *** The list loops *)

Example drop_known_skips :
  drop_known ["a"; "b"] 0 ["a"; "b"; "c"] = Some ["b"; "c"].
Proof. reflexivity. Qed.

Example clear_by_last_ex : clear_by_last ["a"; "b"; "a"] = Some [].
Proof. reflexivity. Qed.

Lemma drop_known_total known i l : exists r, drop_known known i l = Some r.
Proof.
  funelim (drop_known known i l); try assumption.
  - eauto.
  - exfalso.
    destruct (PyFacts.remove_In mat l) as [r Hr]; [|congruence].
    eapply nth_error_In. eassumption.
Qed.

Lemma clear_by_last_empties l : clear_by_last l = Some [].
Proof.
  funelim (clear_by_last l); try assumption.
  - destruct l as [|y l]; [reflexivity|].
    destruct (PyFacts.last_item_cons y l) as [x Hx]. congruence.
  - exfalso.
    destruct (PyFacts.remove_In x l) as [r Hr]; [|congruence].
    now apply PyFacts.last_item_In.
Qed.

(** *** Sequencing *)

Lemma for_each_nil {B X} (body : X -> M B unit) : for_each [] body = ret tt.
Proof. reflexivity. Qed.

Lemma for_each_cons {B X} (x : X) l (body : X -> M B unit) :
  for_each (x :: l) body = (body x ;; for_each l body).
Proof. reflexivity. Qed.

Lemma bind_Returns {B A C} (m : M B A) (k : A -> M B C) s a s' :
  m s = Returns a s' -> bind m k s = k a s'.
Proof. unfold bind. now intros ->. Qed.

Lemma bind_Raises {B A C} (m : M B A) (k : A -> M B C) s e s' :
  m s = Raises e s' -> bind m k s = Raises e s'.
Proof. unfold bind. now intros ->. Qed.

(** *** Records and trees *)

Lemma set_markers_same w :
  set_markers (markers (graphical_scene (scene w))) w = w.
Proof. destruct w as [[ps [r m]]]. reflexivity. Qed.

Lemma set_contact_materials_same w :
  set_contact_materials (contact_materials (physical_scene (scene w))) w = w.
Proof. destruct w as [[[n m c] gs]]. reflexivity. Qed.

Lemma Sim_eta {B} (s : Sim B) :
  {| manager := manager s; world := world s; engine := engine s; calls := calls s;
     stdout := stdout s |} = s.
Proof. destruct s. reflexivity. Qed.

Lemma PhysicalNode_forall_ind (P : PhysicalNode -> Prop) :
  (forall rb joint ch, Forall P ch -> P (PNode rb joint ch)) ->
  forall n, P n.
Proof.
  intros step. fix rec 1. intros [rb joint ch]. apply step.
  induction ch as [|c ch IH]; constructor; [apply rec | exact IH].
Qed.

Lemma GraphicalNode_forall_ind (P : GraphicalNode -> Prop) :
  (forall s ch, Forall P ch -> P (GNode s ch)) ->
  forall n, P n.
Proof.
  intros step. fix rec 1. intros [s ch]. apply step.
  induction ch as [|c ch IH]; constructor; [apply rec | exact IH].
Qed.

Lemma preorder_length n : length (preorder n) = size n.
Proof.
  induction n as [rb joint ch IH] using PhysicalNode_forall_ind.
  simpl. f_equal.
  induction IH as [|c ch Hc _ IHch]; simpl; [reflexivity|].
  rewrite length_app. congruence.
Qed.

Lemma preorder_forest_length roots :
  length (flat_map preorder roots) = list_sum (map size roots).
Proof.
  induction roots as [|r roots IH]; simpl; [reflexivity|].
  now rewrite length_app, preorder_length, IH.
Qed.

Lemma visitDepthFirst_names n acc :
  visitDepthFirst (fun node acc => acc ++ [rigid_body node]) n acc
  = acc ++ map rigid_body (preorder n).
Proof.
  revert acc.
  induction n as [rb joint ch IH] using PhysicalNode_forall_ind.
  intros acc. simpl.
  assert (G : forall a,
    (fix visit (l : list PhysicalNode) (acc : list string) : list string :=
       match l with
       | [] => acc
       | c :: l' =>
           visit l'
             (visitDepthFirst (fun node acc => acc ++ [rigid_body node]) c acc)
       end) ch a = a ++ map rigid_body (flat_map preorder ch)).
  { induction IH as [|c ch Hc _ IHch]; intros a; simpl.
    - now rewrite app_nil_r.
    - rewrite IHch, Hc, map_app, app_assoc. reflexivity. }
  rewrite G. rewrite <- app_assoc. reflexivity.
Qed.

Lemma allNodeNames_preorder w :
  allNodeNames w
  = map rigid_body (flat_map preorder (nodes (physical_scene (scene w)))).
Proof.
  unfold allNodeNames.
  generalize (nodes (physical_scene (scene w))) as roots.
  assert (G : forall roots acc,
    fold_left
      (fun acc child =>
         visitDepthFirst (fun node acc => acc ++ [rigid_body node]) child acc)
      roots acc = acc ++ map rigid_body (flat_map preorder roots)).
  { induction roots as [|r roots IH]; intros acc; simpl.
    - now rewrite app_nil_r.
    - rewrite IH, visitDepthFirst_names, map_app, app_assoc. reflexivity. }
  intros roots. apply (G roots []).
Qed.

(** *** Markers added to a World *)

Section Markers.

Context {B : Type}.

Lemma with_markers_nil (s : Sim B) : with_markers [] s = s.
Proof.
  unfold with_markers. rewrite app_nil_r, set_markers_same. apply Sim_eta.
Qed.

Lemma with_markers_app l1 l2 (s : Sim B) :
  with_markers l2 (with_markers l1 s) = with_markers (l1 ++ l2) s.
Proof.
  unfold with_markers. simpl. rewrite app_assoc. reflexivity.
Qed.

Lemma addFreeMarkers_sequence l (s : Sim B) :
  addFreeMarkers (Sequence l) s = Returns tt (with_markers (map marker_of l) s).
Proof.
  unfold addFreeMarkers. revert s.
  induction l as [|n l IH]; intros s.
  - now rewrite with_markers_nil.
  - rewrite for_each_cons.
    rewrite (bind_Returns _ _ s tt (with_markers [marker_of n] s))
      by reflexivity.
    rewrite IH, with_markers_app. reflexivity.
Qed.

(** C5: a single name and the one-element sequence behave alike, and each
    supplied name appends exactly one Marker record to the World's marker
    list, which is the only thing that changes. *)
Theorem addFreeMarkers_appends_one_marker_per_name (s : Sim B) :
  (forall n, addFreeMarkers (Single n) s = addFreeMarkers (Sequence [n]) s)
  /\ (forall a,
        addFreeMarkers a s
        = Returns tt (with_markers (map marker_of (names_of a)) s))
  /\ (forall a,
        markers (graphical_scene (scene (world (final (addFreeMarkers a s)))))
        = markers (graphical_scene (scene (world s)))
            ++ map marker_of (names_of a)).
Proof.
  assert (E : forall a,
            addFreeMarkers a s
            = Returns tt (with_markers (map marker_of (names_of a)) s)).
  { intros [n|l]; [apply (addFreeMarkers_sequence [n]) |
                   apply addFreeMarkers_sequence]. }
  repeat split.
  - intros a. apply E.
  - intros a. rewrite E. reflexivity.
Qed.

End Markers.

(** *** Adding a World to the physics engine *)

Section Physics.

Context {B : Type} `{Backend B}.

(** With the main scene in place, [addWorldToPhysic] returns, hands the
    engine the World with the materials the first loop kept, and leaves
    the World's contact-material list empty: the last statement extends
    the emptied list with itself. *)
Lemma addWorldToPhysic_effect (s : Sim B) h :
  ms (manager s) = Some h ->
  exists kept,
    drop_known (getContactMaterials (engine s)) 0
      (contact_materials (physical_scene (scene (world s)))) = Some kept
    /\ addWorldToPhysic s
       = Returns tt
           {| manager := manager s;
              world := set_contact_materials [] (world s);
              engine :=
                do_call
                  (phy_deserializeWorld (set_contact_materials kept (world s)))
                  (engine s);
              calls :=
                calls s
                  ++ [phy_deserializeWorld
                        (set_contact_materials kept (world s))];
              stdout := stdout s |}.
Proof.
  intros Hms.
  destruct (drop_known_total (getContactMaterials (engine s)) 0
              (contact_materials (physical_scene (scene (world s)))))
    as [kept Hk].
  exists kept. split; [exact Hk|].
  unfold addWorldToPhysic.
  destruct s as [self w e cs out]. simpl in Hk, Hms.
  destruct w as [[[roots mechs mats] gs]]. simpl in Hk.
  destruct mats as [|m mats].
  - assert (kept = []) by (simp drop_known in Hk; simpl in Hk; congruence).
    subst kept.
    unfold bind, materials, deref, ret, query, or_ValueError, set_materials,
      bind, get_world, put_world, call, set_contact_materials;
      cbn -[clear_by_last].
    rewrite clear_by_last_empties. reflexivity.
  - unfold bind, materials, deref, ret, query, or_ValueError, set_materials,
      bind, get_world, put_world, call, set_contact_materials;
      cbn -[drop_known clear_by_last].
    rewrite Hms. cbn -[drop_known clear_by_last].
    rewrite Hk. cbn -[clear_by_last].
    rewrite clear_by_last_empties. reflexivity.
Qed.

End Physics.

(** *** Methods as sequences of guarded engine calls *)

Section Sweeps.

Context {B : Type} `{Backend B}.

Lemma run_calls_app cs1 cs2 (e : B) :
  run_calls (cs1 ++ cs2) e = run_calls cs2 (run_calls cs1 e).
Proof. apply fold_left_app. Qed.

Lemma sweep_app a b (e : B) :
  sweep (a ++ b) e = sweep a e ++ sweep b (run_calls (sweep a e) e).
Proof.
  revert e. induction a as [|[g c] a IH]; intros e; simpl; [reflexivity|].
  destruct (g e); simpl; now rewrite IH.
Qed.

Lemma sweep_always cs (e : B) : sweep (map always cs) e = cs.
Proof.
  revert e. induction cs as [|c cs IH]; intros e; simpl; congruence.
Qed.

Lemma after_nil (s : Sim B) : after [] [] s = s.
Proof. unfold after. simpl. rewrite !app_nil_r. apply Sim_eta. Qed.

Lemma after_after cs1 out1 cs2 out2 (s : Sim B) :
  after cs2 out2 (after cs1 out1 s) = after (cs1 ++ cs2) (out1 ++ out2) s.
Proof.
  unfold after. simpl. now rewrite run_calls_app, !app_assoc.
Qed.

Lemma sweeps_ret s : sweeps (ret tt) [] s.
Proof. exists []. simpl. now rewrite after_nil. Qed.

Lemma sweeps_call c s : sweeps (call c) [always c] s.
Proof.
  exists []. unfold call, after. simpl. now rewrite app_nil_r.
Qed.

Lemma sweeps_verbose_print verbose msg s :
  sweeps (verbose_print verbose msg) [] s.
Proof.
  unfold verbose_print. destruct verbose.
  - exists [msg]. unfold print, after. simpl. now rewrite app_nil_r.
  - apply sweeps_ret.
Qed.

Lemma sweeps_guarded (g : B -> bool) c s :
  sweeps (present <- query g ;; if present then call c else ret tt)
         [(g, c)] s.
Proof.
  exists []. unfold bind, query, after. simpl.
  destruct (g (engine s)); simpl.
  - unfold call. simpl. now rewrite app_nil_r.
  - unfold ret. now rewrite !app_nil_r, Sim_eta.
Qed.

Lemma sweeps_bind m1 m2 st1 st2 s :
  sweeps m1 st1 s ->
  (forall out, sweeps m2 st2 (after (sweep st1 (engine s)) out s)) ->
  sweeps (m1 ;; m2) (st1 ++ st2) s.
Proof.
  intros [out1 E1] H2. destruct (H2 out1) as [out2 E2].
  exists (out1 ++ out2).
  rewrite (bind_Returns _ _ _ _ _ E1), E2, after_after, sweep_app.
  reflexivity.
Qed.

Lemma sweeps_deref (f : WorldManager -> option Handle) (m : M B unit) st s h :
  f (manager s) = Some h -> sweeps m st s -> sweeps (_ <- deref f ;; m) st s.
Proof.
  intros Hf [out E]. exists out. unfold bind, deref. now rewrite Hf.
Qed.

Lemma sweeps_for_each {X} (l : list X) (body : X -> M B unit)
  (steps : X -> list (Step B)) (P : WorldManager -> Prop) :
  Forall (fun x => forall s, P (manager s) -> sweeps (body x) (steps x) s) l ->
  forall s, P (manager s) -> sweeps (for_each l body) (flat_map steps l) s.
Proof.
  induction 1 as [|x l Hx _ IH]; intros s HP.
  - apply sweeps_ret.
  - rewrite for_each_cons. simpl. apply sweeps_bind; [now apply Hx|].
    intros out. now apply IH.
Qed.

End Sweeps.

(** *** Removal walks the trees children first *)

Lemma flat_map_flat_map {X Y Z} (f : Y -> list Z) (g : X -> list Y) l :
  flat_map (fun x => flat_map f (g x)) l = flat_map f (flat_map g l).
Proof.
  induction l as [|x l IH]; simpl; [reflexivity|].
  now rewrite flat_map_app, IH.
Qed.

Lemma map_as_flat_map {X Y} (f : X -> Y) l :
  map f l = flat_map (fun x => [f x]) l.
Proof. induction l as [|x l IH]; simpl; congruence. Qed.

Section Removal.

Context {B : Type} `{Backend B}.
Variable verbose : bool.

Lemma bind_assoc {A C D} (m : M B A) (k : A -> M B C) (h : C -> M B D) s :
  bind (bind m k) h s = bind m (fun x => bind (k x) h) s.
Proof. unfold bind. destruct (m s); reflexivity. Qed.

Lemma sweeps_ext (m m' : M B unit) st s :
  m s = m' s -> sweeps m st s -> sweeps m' st s.
Proof. intros E [out Hm]. exists out. now rewrite <- E. Qed.

Lemma sweeps_test {X} (f : B -> X) (test : X -> bool) c s :
  sweeps (x <- query f ;; if test x then call c else ret tt)
         [(fun e => test (f e), c)] s.
Proof.
  exists []. unfold bind, query, after. simpl.
  destruct (test (f (engine s))); simpl.
  - unfold call. simpl. now rewrite app_nil_r.
  - unfold ret. now rewrite !app_nil_r, Sim_eta.
Qed.

Lemma deleteNodeInPhysicalAgent_sweeps node :
  forall s, sweeps (deleteNodeInPhysicalAgent node)
                   (flat_map unregister (postorder node)) s.
Proof.
  induction node as [rb joint ch IH] using PhysicalNode_forall_ind.
  intros s. simpl. rewrite flat_map_app, <- flat_map_flat_map. simpl.
  apply sweeps_bind.
  - apply (sweeps_for_each ch _ _ (fun _ => True)); [|exact I].
    eapply Forall_impl; [|exact IH]. intros c Hc s' _. apply Hc.
  - intros out.
    apply (sweeps_bind _ _ [always _] [always _]); intros; apply sweeps_call.
Qed.

Lemma deleteNodeInGraphicalAgent_sweeps node :
  forall s, sweeps (deleteNodeInGraphicalAgent verbose node)
                   (flat_map erase (gpostorder node)) s.
Proof.
  induction node as [nname ch IH] using GraphicalNode_forall_ind.
  intros s. simpl. rewrite flat_map_app, <- flat_map_flat_map. simpl.
  apply sweeps_bind.
  - apply (sweeps_for_each ch _ _ (fun _ => True)); [|exact I].
    eapply Forall_impl; [|exact IH]. intros c Hc s' _. apply Hc.
  - intros out.
    apply (sweeps_bind _ _ [] [_]); [apply sweeps_verbose_print|].
    intros out'. apply (sweeps_test _ (fun b => b)).
Qed.

Lemma removeRigidBodyChildren_eq rbname joint ch :
  removeRigidBodyChildren verbose (PNode rbname joint ch)
  = (for_each ch (removeRigidBodyChildren verbose) ;;
     verbose_print verbose ("deleting " ++ rbname)%string ;;
     _ <- deref ms ;;
     bodies <- query getBodyNames ;;
     (if Py.contains rbname bodies
      then call (ms_removeRigidBody rbname) else ret tt) ;;
     for_each [rbname; (rbname ++ ".comp")%string; joint]
       (fun to_del =>
          _ <- deref phy ;;
          comps <- query getComponents ;;
          if Py.contains to_del comps
          then call (phy_deleteComponent to_del) else ret tt)).
Proof. reflexivity. Qed.

Lemma removeRigidBodyChildren_sweeps node :
  forall s, has_physics (manager s) ->
            sweeps (removeRigidBodyChildren verbose node)
                   (flat_map delete_body (postorder node)) s.
Proof.
  induction node as [rb joint ch IH] using PhysicalNode_forall_ind.
  intros s Hs. rewrite removeRigidBodyChildren_eq. cbn [postorder].
  rewrite flat_map_app, <- flat_map_flat_map. cbn [flat_map delete_body].
  rewrite app_nil_r.
  apply sweeps_bind.
  - now apply (sweeps_for_each ch _ _ has_physics).
  - intros out. destruct Hs as [[h1 Hphy] [h2 Hms]].
    apply (sweeps_bind _ _ [] (_ :: _)); [apply sweeps_verbose_print|].
    intros out1. apply (sweeps_deref _ _ _ _ h2); [exact Hms|].
    eapply sweeps_ext; [apply bind_assoc|].
    apply (sweeps_bind _ _ [_] [_; _; _]).
    + apply (sweeps_test getBodyNames (Py.contains rb)).
    + intros out2.
      apply (sweeps_for_each [rb; (rb ++ ".comp")%string; joint] _
               (fun to_del =>
                  [(fun e => Py.contains to_del (getComponents e),
                    phy_deleteComponent to_del)])
               has_physics).
      * repeat constructor; intros s' [[h Hh] _];
          apply (sweeps_deref _ _ _ _ h); try exact Hh;
          apply (sweeps_test getComponents (Py.contains _)).
      * split; eauto.
Qed.

End Removal.

Section WholeWorld.

Context {B : Type} `{Backend B}.
Variable verbose : bool.

Lemma sweeps_get_world (k : World -> M B unit) st s :
  sweeps (k (world s)) st s -> sweeps (w <- get_world ;; k w) st s.
Proof. intros [out E]. now exists out. Qed.

Lemma sweeps_get_self (k : WorldManager -> M B unit) st s :
  sweeps (k (manager s)) st s -> sweeps (self <- get_self ;; k self) st s.
Proof. intros [out E]. now exists out. Qed.

Lemma sweeps_first_item {X} (l : list X) x r (k : X -> M B unit) st s :
  l = x :: r -> sweeps (k x) st s -> sweeps (y <- first_item l ;; k y) st s.
Proof. intros -> [out E]. now exists out. Qed.

Lemma removeWorldFromPhysic_sweeps s :
  has_physics (manager s) ->
  sweeps (removeWorldFromPhysic verbose) (physic_removal (world s)) s.
Proof.
  intros Hs. unfold removeWorldFromPhysic, physic_removal.
  apply (sweeps_bind _ _ [] _); [apply sweeps_verbose_print|].
  intros out0. apply sweeps_get_world. cbn [after world engine].
  set (w := world s).
  apply sweeps_bind.
  { rewrite map_as_flat_map.
    apply (sweeps_for_each _ _ _ has_physics); [|exact Hs].
    apply Forall_forall. intros m _ s' [[h Hh] _].
    apply (sweeps_deref _ _ _ _ h); [exact Hh | apply sweeps_call]. }
  intros out1. apply sweeps_bind.
  { rewrite <- flat_map_flat_map.
    apply (sweeps_for_each _ _ _ has_physics); [|exact Hs].
    apply Forall_forall. intros n _ s' Hs'.
    now apply removeRigidBodyChildren_sweeps. }
  intros out2.
  apply (sweeps_bind _ _ [] [_]); [apply sweeps_verbose_print|].
  intros out3. destruct Hs as [_ [h Hms]].
  apply (sweeps_deref _ _ _ _ h); [exact Hms | apply sweeps_call].
Qed.

Lemma removeWorldFromGraphic_sweeps s hs hp root rest :
  graph_scn (manager s) = Some hs ->
  phy (manager s) = Some hp ->
  nodes (physical_scene (scene (world s))) = root :: rest ->
  sweeps (removeWorldFromGraphic verbose) (graphic_removal root (world s)) s.
Proof.
  intros Hscn Hphy Hroot. unfold removeWorldFromGraphic, graphic_removal.
  apply sweeps_get_self. rewrite Hscn.
  apply (sweeps_bind _ _ [] _); [apply sweeps_verbose_print|].
  intros out0. apply (sweeps_deref _ _ _ _ hp); [exact Hphy|].
  apply sweeps_get_world. cbn [after world engine].
  eapply sweeps_first_item; [exact Hroot|].
  apply sweeps_bind; [apply deleteNodeInPhysicalAgent_sweeps|].
  intros out1.
  apply (sweeps_bind _ _ [] _); [apply sweeps_verbose_print|].
  intros out2.
  apply sweeps_bind; [apply deleteNodeInGraphicalAgent_sweeps|].
  intros out3.
  apply (sweeps_bind _ _ [] _); [apply sweeps_verbose_print|].
  intros out4.
  apply (sweeps_for_each _ _ _ (fun _ => True)); [|exact I].
  apply Forall_forall. intros m _ s' _.
  unfold unmark.
  exists (if Py.contains (marker_name m) (getMarkerLabels (engine s'))
          then if verbose then ["Remove " ++ marker_name m]%string else []
          else []).
  unfold bind, query, verbose_print, print, call, ret, after. simpl.
  destruct (Py.contains (marker_name m) (getMarkerLabels (engine s'))); simpl.
  - destruct verbose; simpl; rewrite ?app_nil_r; reflexivity.
  - now rewrite !app_nil_r, Sim_eta.
Qed.

End WholeWorld.

(** *** Which walks happen, and in which order *)

Section Order.

Context {B : Type} `{Backend B}.
Variable verbose : bool.

Lemma sweep_Forall (P : Call -> Prop) (steps : list (Step B)) e :
  Forall P (map snd steps) -> Forall P (sweep steps e).
Proof.
  revert e. induction steps as [|[g c] r IH]; intros e HF; simpl.
  - constructor.
  - inversion HF; subst. destruct (g e); [constructor|]; auto.
Qed.

(** C3: each of the three removal walks visits its tree children first:
    the calls it issues are those attached to the nodes in post-order
    (the nodes of the subtrees of the children, in order, then the node),
    each deletion that is guarded by an existence check being issued when
    the check passes at that moment.  [removeWorldFromPhysic] walks every
    root this way, in order, between the mechanisms and the material
    clean-up; [removeWorldFromGraphic] walks this way the first physical
    root, taking its bodies off the connector, then the graphical root,
    removing its nodes, before it removes the markers. *)
Theorem removal_walks_are_post_order (s : Sim B) :
  (forall node,
      sweeps (deleteNodeInPhysicalAgent node)
             (flat_map unregister (postorder node)) s)
  /\ (forall gnode,
         sweeps (deleteNodeInGraphicalAgent verbose gnode)
                (flat_map erase (gpostorder gnode)) s)
  /\ (has_physics (manager s) ->
      (forall node,
          sweeps (removeRigidBodyChildren verbose node)
                 (flat_map delete_body (postorder node)) s)
      /\ sweeps (removeWorldFromPhysic verbose) (physic_removal (world s)) s)
  /\ (forall hs hp root rest,
         graph_scn (manager s) = Some hs ->
         phy (manager s) = Some hp ->
         nodes (physical_scene (scene (world s))) = root :: rest ->
         sweeps (removeWorldFromGraphic verbose)
                (flat_map unregister (postorder root)
                 ++ flat_map erase
                      (gpostorder (root_node (graphical_scene
                                                (scene (world s)))))
                 ++ flat_map unmark
                      (markers (graphical_scene (scene (world s))))) s)
  /\ (forall rb joint ch,
         postorder (PNode rb joint ch)
         = flat_map postorder ch ++ [PNode rb joint ch])
  /\ (forall n ch,
         gpostorder (GNode n ch) = flat_map gpostorder ch ++ [GNode n ch]).
Proof.
  split; [|split; [|split; [|split]]].
  - intros node. apply deleteNodeInPhysicalAgent_sweeps.
  - intros gnode. apply deleteNodeInGraphicalAgent_sweeps.
  - intros Hs. split.
    + intros node. now apply removeRigidBodyChildren_sweeps.
    + now apply removeWorldFromPhysic_sweeps.
  - intros hs hp root rest Hscn Hphy Hroot.
    exact (removeWorldFromGraphic_sweeps verbose s hs hp root rest Hscn Hphy
             Hroot).
  - split; intros; reflexivity.
Qed.

Lemma graphic_removal_calls root w :
  Forall (fun c => beside_connector c = true
                   \/ exists b, c = ocb_removeBody b
                                /\ In b (map rigid_body (postorder root)))
         (map snd (graphic_removal (B := B) root w)).
Proof.
  unfold graphic_removal. rewrite !map_app, !Forall_app. repeat split.
  - induction (postorder root) as [|n l IH]; simpl; [constructor|].
    constructor; [now left|]. constructor.
    + right. exists (rigid_body n). split; [reflexivity | now left].
    + eapply Forall_impl; [|exact IH].
      intros c [Hc|[b [Hb Hin]]]; [now left|].
      right. exists b. split; [exact Hb | now right].
  - induction (gpostorder (root_node (graphical_scene (scene w))))
      as [|g l IH]; simpl; constructor; [now left | exact IH].
  - induction (markers (graphical_scene (scene w)))
      as [|m l IH]; simpl; constructor; [now left | exact IH].
Qed.

Lemma run_calls_keeps_registered `{!ConnectorLaws B} names cs e b :
  Forall (fun c => beside_connector c = true
                   \/ exists b', c = ocb_removeBody b' /\ In b' names) cs ->
  In b (ocbBodies e) -> ~ In b names ->
  In b (ocbBodies (run_calls cs e)).
Proof.
  intros HF. revert e. induction HF as [|c cs Hc _ IH]; intros e Hb Hn.
  - exact Hb.
  - simpl. apply IH; [|exact Hn].
    destruct Hc as [Hc|[b' [-> Hin]]].
    + now apply beside_connector_frame.
    + apply removeBody_others; [|exact Hb]. intros ->. now apply Hn.
Qed.

(** C10: with a graphical scene and a physics agent, [removeWorldFromGraphic]
    raises [IndexError], having issued no call, when the physical scene has
    no root; otherwise it takes off the connector the tree of the first
    root only: every [removeBody] it issues names a body of that tree, and
    on a connector obeying [ConnectorLaws] every other registered body is
    still registered afterwards. *)
Theorem removeWorldFromGraphic_first_root_only (s : Sim B) hs hp :
  graph_scn (manager s) = Some hs ->
  phy (manager s) = Some hp ->
  (nodes (physical_scene (scene (world s))) = [] ->
   exists out,
     removeWorldFromGraphic verbose s
     = Raises Py.IndexError (after [] out s))
  /\ (forall root rest,
         nodes (physical_scene (scene (world s))) = root :: rest ->
         exists out s',
           removeWorldFromGraphic verbose s = Returns tt s'
           /\ s' = after (sweep (graphic_removal root (world s)) (engine s))
                         out s
           /\ (forall b, In (ocb_removeBody b) (calls s') ->
                         In (ocb_removeBody b) (calls s)
                         \/ In b (map rigid_body (postorder root)))
           /\ (ConnectorLaws B ->
               forall b, In b (ocbBodies (engine s)) ->
                         ~ In b (map rigid_body (postorder root)) ->
                         In b (ocbBodies (engine s')))).
Proof.
  intros Hscn Hphy. split.
  - intros Hnil.
    exists (if verbose then ["REMOVE CONNECTION PHY/GRAPH..."] else []).
    destruct s as [self w e cs out0]. simpl in Hscn, Hphy, Hnil.
    unfold removeWorldFromGraphic, bind, get_self, verbose_print, print, ret,
      deref, get_world, first_item, raise, after.
    simpl. rewrite Hscn.
    destruct verbose; simpl; rewrite Hphy; simpl; rewrite Hnil;
      rewrite ?app_nil_r; reflexivity.
  - intros root rest Hroot.
    destruct (removeWorldFromGraphic_sweeps verbose s hs hp root rest
                Hscn Hphy Hroot) as [out E].
    pose proof (sweep_Forall _ _ (engine s)
                  (graphic_removal_calls root (world s))) as HF.
    eexists out, _. split; [exact E|]. split; [reflexivity|]. split.
    + intros b Hin. simpl in Hin. apply in_app_or in Hin.
      destruct Hin as [Hin|Hin]; [now left|]. right.
      rewrite Forall_forall in HF.
      destruct (HF _ Hin) as [Hc|[b' [Hb' Hn]]]; [discriminate|].
      now inversion Hb'; subst.
    + intros Laws b Hb Hn. simpl.
      now apply (run_calls_keeps_registered
                   (map rigid_body (postorder root))).
Qed.

(** C4: [addWorld] is [addWorldToPhysic] then [addWorldToGraphic] (after
    reading the agent's name, which needs the physics agent, and the
    diagnostic); [removeWorld] is [removeWorldFromGraphic] then
    [removeWorldFromPhysic].  In both, the second runs from the state the
    first left, and only if the first returned. *)
Theorem addWorld_removeWorld_compose (s : Sim B) :
  addWorld verbose s
  = match phy (manager s) with
    | None => Raises Py.AttributeError s
    | Some _ =>
        match addWorldToPhysic
                (after [] (if verbose then ["CREATE WORLD..."] else []) s)
        with
        | Returns _ s1 => addWorldToGraphic verbose s1
        | Raises e s1 => Raises e s1
        end
    end
  /\ removeWorld verbose s
     = match removeWorldFromGraphic verbose s with
       | Returns _ s1 => removeWorldFromPhysic verbose s1
       | Raises e s1 => Raises e s1
       end.
Proof.
  split; [|reflexivity].
  unfold addWorld. unfold bind at 1. unfold deref.
  destruct (phy (manager s)); [|reflexivity].
  unfold bind at 1. unfold verbose_print, print, ret, after.
  destruct verbose; simpl.
  - rewrite app_nil_r. reflexivity.
  - rewrite !app_nil_r, Sim_eta. reflexivity.
Qed.

End Order.

(** *** Without a graphics agent *)

Section NoGraphics.

Context {B : Type} `{Backend B}.
Variable verbose : bool.

Lemma skipped_ret s : skipped (Returns tt s) s.
Proof. exists []. split; [now rewrite after_nil | simpl; lia]. Qed.

Lemma skipped_verbose_print msg s : skipped (verbose_print verbose msg s) s.
Proof.
  unfold verbose_print. destruct verbose; [|apply skipped_ret].
  exists [msg]. split; [|simpl; lia].
  unfold print, after. simpl. now rewrite app_nil_r.
Qed.

(** C9: when the manager has no graphics agent (neither [graph] nor
    [graph_scn] is set), the six graphics-side methods return normally
    without any call or state change, printing at most one diagnostic. *)
Theorem graphics_absent_is_skipped (s : Sim B) :
  graph (manager s) = None ->
  graph_scn (manager s) = None ->
  skipped (addWorldToGraphic verbose s) s
  /\ skipped (removeWorldFromGraphic verbose s) s
  /\ (forall bodies thin, skipped (addMarkers verbose bodies thin s) s)
  /\ (forall bodies, skipped (removeMarkers verbose bodies s) s)
  /\ (forall name thin, skipped (addMarkerToSimulation verbose name thin s) s)
  /\ (forall name, skipped (removeMarkerFromSimulation verbose name s) s).
Proof.
  intros Hg Hscn.
  unfold addWorldToGraphic, removeWorldFromGraphic, addMarkers, removeMarkers,
    addMarkerToSimulation, removeMarkerFromSimulation, bind, get_self.
  rewrite Hg, Hscn.
  repeat split; intros;
    first [apply skipped_ret | apply skipped_verbose_print].
Qed.

End NoGraphics.

Lemma reachable_graph_scn self :
  reachable self -> graph self = None -> graph_scn self = None.
Proof. induction 1; simpl; auto; discriminate. Qed.

(** *** Cleaning the physics agent *)

Section Clean.

Context {B : Type} `{Backend B}.

Lemma for_each_delete l (s : Sim B) :
  for_each l (fun c => call (phy_deleteComponent c)) s
  = Returns tt (after (deleting l) [] s).
Proof.
  revert s. induction l as [|c l IH]; intros s.
  - simpl. now rewrite after_nil.
  - rewrite for_each_cons.
    rewrite (bind_Returns _ _ s tt (after [phy_deleteComponent c] [] s)).
    + rewrite IH, after_after. reflexivity.
    + unfold call, after. simpl. now rewrite app_nil_r.
Qed.

(** C8 as the code has it: with the physics agent and its main scene,
    [cleanPhy] first clears the main scene, then deletes the components of
    kind Robot, then RigidBody, then Composite (each list read when its
    turn comes), then whatever components are left; nothing else changes,
    so the manager still holds its physics agent. *)
Theorem cleanPhy_clears_scene_first (s : Sim B) hp hm :
  phy (manager s) = Some hp ->
  ms (manager s) = Some hm ->
  let e1 := do_call ms_clean (engine s) in
  let robots := of_kind "Robot" e1 in
  let e2 := run_calls (deleting robots) e1 in
  let rigid := of_kind "RigidBody" e2 in
  let e3 := run_calls (deleting rigid) e2 in
  let composites := of_kind "Composite" e3 in
  let e4 := run_calls (deleting composites) e3 in
  let rest := getComponents e4 in
  cleanPhy s
  = Returns tt
      (after (ms_clean :: deleting robots ++ deleting rigid
                ++ deleting composites ++ deleting rest) [] s)
  /\ phy (manager (final (cleanPhy s))) = Some hp.
Proof.
  intros Hphy Hms e1 robots e2 rigid e3 composites e4 rest.
  assert (E : cleanPhy s
              = Returns tt
                  (after (ms_clean :: deleting robots ++ deleting rigid
                            ++ deleting composites ++ deleting rest) [] s)).
  { unfold cleanPhy. unfold bind at 1. unfold get_self. rewrite Hphy.
    unfold bind at 1. unfold deref. rewrite Hms.
    rewrite (bind_Returns _ _ s tt (after [ms_clean] [] s))
      by (unfold call, after; simpl; now rewrite app_nil_r).
    rewrite !for_each_cons, for_each_nil.
    set (s1 := after [ms_clean] [] s).
    assert (K : forall kind (s0 : Sim B),
               bind (query (fun e =>
                       filter (fun comp => String.eqb (getType e comp) kind)
                              (getComponents e)))
                    (fun comps =>
                       for_each comps (fun c => call (phy_deleteComponent c)))
                    s0
               = Returns tt (after (deleting (of_kind kind (engine s0))) [] s0)).
    { intros kind s0. unfold bind, query. apply for_each_delete. }
    rewrite (bind_Returns _ _ s1 tt
               (after (deleting robots ++ deleting rigid
                         ++ deleting composites) [] s1)).
    - unfold bind, query. rewrite for_each_delete.
      unfold s1. rewrite !after_after. simpl.
      unfold rest, e4, e3, e2, e1. rewrite !run_calls_app, <- !app_assoc.
      reflexivity.
    - rewrite (bind_Returns _ _ s1 tt (after (deleting robots) [] s1))
        by apply K.
      rewrite (bind_Returns _ _ _ tt
                 (after (deleting rigid) [] (after (deleting robots) [] s1)))
        by apply K.
      rewrite (bind_Returns _ _ _ tt
                 (after (deleting composites) []
                    (after (deleting rigid) []
                       (after (deleting robots) [] s1))))
        by apply K.
      unfold ret. rewrite !after_after. simpl. rewrite ?app_nil_r.
      reflexivity. }
  split; [exact E|]. rewrite E. exact Hphy.
Qed.

End Clean.

(** *** Markers that exist already, or do not *)

Section Repeat.

Context {B : Type} `{Backend B}.
Variable verbose : bool.

Lemma removeMarkers_sweeps bodies s hs :
  graph_scn (manager s) = Some hs ->
  sweeps (removeMarkers verbose bodies)
         (flat_map hide (targets bodies (world s))) s.
Proof.
  intros Hscn. unfold removeMarkers.
  apply sweeps_get_self. rewrite Hscn. apply sweeps_get_world.
  fold (targets bodies (world s)).
  apply (sweeps_for_each _ _ _ (fun _ => True)); [|exact I].
  apply Forall_forall. intros n _ s' _.
  exists (if Py.contains n (getMarkerLabels (engine s')) then []
          else if verbose
               then [("Warning: " ++ n
                        ++ " marker does not exist. Nothing to do.")%string]
               else []).
  unfold hide, bind, query, verbose_print, print, call, ret, after. simpl.
  destruct (Py.contains n (getMarkerLabels (engine s'))); simpl.
  - now rewrite app_nil_r.
  - destruct verbose; simpl; rewrite ?app_nil_r; [reflexivity|].
    now rewrite Sim_eta.
Qed.

Lemma sweep_hide_absent l e :
  Forall (fun n => Py.contains n (getMarkerLabels e) = false) l ->
  sweep (flat_map hide l) e = [].
Proof.
  induction 1 as [|n l Hn _ IH]; simpl; [reflexivity|].
  now rewrite Hn.
Qed.

Lemma hidden_after_sweep `{!MarkerLaws B} l e m :
  In m (getMarkerLabels (run_calls (sweep (flat_map hide l) e) e)) ->
  In m (getMarkerLabels e) /\ ~ In m l.
Proof.
  revert e. induction l as [|n l IH]; intros e Hm; simpl in *.
  - split; [exact Hm | tauto].
  - destruct (Py.contains n (getMarkerLabels e)) eqn:E; simpl in Hm.
    + destruct (IH _ Hm) as [H1 H2].
      destruct (removeMarker_labels _ _ _ H1) as [H3 H4].
      split; [exact H3|]. intros [->|Hin]; [now apply H4 | now apply H2].
    + destruct (IH _ Hm) as [H1 H2]. split; [exact H1|].
      intros [->|Hin]; [|now apply H2].
      apply PyFacts.contains_In in H1. congruence.
Qed.

Lemma filter_missing_present l e :
  Forall (fun n => Py.contains n (getMarkerLabels e) = true) l ->
  filter (missing e) l = [].
Proof.
  induction 1 as [|n l Hn _ IH]; simpl; [reflexivity|].
  unfold missing at 1. now rewrite Hn.
Qed.

Lemma addMarkers_loop l :
  forall s : Sim B,
  exists out,
    for_each l
      (fun body_name =>
         labels <- query getMarkerLabels ;;
         if negb (Py.contains body_name labels)
         then addFreeMarkers (Single body_name)
         else verbose_print verbose
                ("Warning: " ++ body_name
                   ++ " marker already exists. Nothing to do.")%string) s
    = Returns tt
        (with_markers (map marker_of (filter (missing (engine s)) l))
                      (after [] out s)).
Proof.
  induction l as [|n l IH]; intros s.
  - exists []. simpl. now rewrite after_nil, with_markers_nil.
  - rewrite for_each_cons. simpl filter. unfold missing at 1.
    destruct (negb (Py.contains n (getMarkerLabels (engine s)))) eqn:E.
    + rewrite (bind_Returns _ _ s tt (with_markers (map marker_of [n]) s)).
      2:{ unfold bind, query. rewrite E.
          apply (addFreeMarkers_sequence [n]). }
      destruct (IH (with_markers (map marker_of [n]) s)) as [out Eo].
      exists out. rewrite Eo. unfold with_markers, after. simpl.
      now rewrite <- app_assoc.
    + destruct (sweeps_verbose_print verbose
                  ("Warning: " ++ n
                     ++ " marker already exists. Nothing to do.")%string s)
        as [out1 E1].
      simpl sweep in E1.
      rewrite (bind_Returns _ _ s tt (after [] out1 s)).
      2:{ unfold bind, query. rewrite E. exact E1. }
      destruct (IH (after [] out1 s)) as [out Eo].
      exists (out1 ++ out). rewrite Eo, after_after. reflexivity.
Qed.

Lemma addMarkers_effect bodies thin s hs :
  graph_scn (manager s) = Some hs ->
  exists out,
    addMarkers verbose bodies thin s
    = Returns tt
        (with_markers
           (map marker_of
              (filter (missing (engine s)) (targets bodies (world s))))
           (after [] out s)).
Proof.
  intros Hscn. unfold addMarkers. unfold bind at 1. unfold get_self.
  rewrite Hscn. unfold bind at 1. unfold get_world.
  apply addMarkers_loop.
Qed.

(** C7 as the code has it.  [removeMarkers] on names without a marker in
    the engine, and [addMarkers] on names that have one, return without
    any call or change; [removeMarkers] run twice does at the second run
    nothing more (on a registry obeying [MarkerLaws]); [addMarkers] never
    calls the engine: it appends to the World one Marker per target name
    missing from the engine, so a second run appends them again. *)
Theorem marker_methods_skip_and_repeat (s : Sim B) :
  (forall l,
      Forall (fun n => Py.contains n (getMarkerLabels (engine s)) = false) l ->
      exists out, removeMarkers verbose (Some l) s = Returns tt (after [] out s))
  /\ (forall l thin,
         Forall (fun n => Py.contains n (getMarkerLabels (engine s)) = true) l ->
         exists out,
           addMarkers verbose (Some l) thin s = Returns tt (after [] out s))
  /\ (MarkerLaws B ->
      forall bodies, idempotent (removeMarkers verbose bodies) s)
  /\ (forall bodies thin hs,
         graph_scn (manager s) = Some hs ->
         exists out,
           addMarkers verbose bodies thin s
           = Returns tt
               (with_markers
                  (map marker_of
                     (filter (missing (engine s)) (targets bodies (world s))))
                  (after [] out s))).
Proof.
  assert (Hnone : forall msg (s0 : Sim B),
             exists out, verbose_print verbose msg s0
                         = Returns tt (after [] out s0)).
  { intros msg s0. apply (sweeps_verbose_print verbose msg s0). }
  split; [|split; [|split]].
  - intros l Hl. destruct (graph_scn (manager s)) as [hs|] eqn:Hscn.
    + destruct (removeMarkers_sweeps (Some l) s hs Hscn) as [out E].
      exists out. rewrite E. simpl targets.
      now rewrite sweep_hide_absent.
    + unfold removeMarkers, bind, get_self. rewrite Hscn. apply Hnone.
  - intros l thin Hl. destruct (graph_scn (manager s)) as [hs|] eqn:Hscn.
    + destruct (addMarkers_effect (Some l) thin s hs Hscn) as [out E].
      exists out. rewrite E. simpl targets.
      rewrite (filter_missing_present l (engine s) Hl).
      apply f_equal, with_markers_nil.
    + unfold addMarkers, bind, get_self. rewrite Hscn. apply Hnone.
  - intros Laws bodies.
    destruct (graph_scn (manager s)) as [hs|] eqn:Hscn.
    + destruct (removeMarkers_sweeps bodies s hs Hscn) as [out1 E1].
      set (s1 := after (sweep (flat_map hide (targets bodies (world s)))
                          (engine s)) out1 s) in *.
      destruct (removeMarkers_sweeps bodies s1 hs Hscn) as [out2 E2].
      assert (Hgone : sweep (flat_map hide (targets bodies (world s1)))
                        (engine s1) = []).
      { apply sweep_hide_absent. apply Forall_forall. intros n Hn.
        destruct (Py.contains n (getMarkerLabels (engine s1))) eqn:E;
          [|reflexivity].
        apply PyFacts.contains_In in E. apply hidden_after_sweep in E.
        now destruct E. }
      rewrite Hgone in E2.
      exists s1, (after [] out2 s1). repeat split; try assumption.
      simpl. now rewrite app_nil_r.
    + destruct (Hnone "No graphic agent. Nothing to do." s) as [out1 E1].
      destruct (Hnone "No graphic agent. Nothing to do." (after [] out1 s))
        as [out2 E2].
      exists (after [] out1 s), (after [] out2 (after [] out1 s)).
      unfold removeMarkers, bind, get_self. simpl. rewrite Hscn.
      repeat split; try assumption. simpl. now rewrite !app_nil_r.
  - intros bodies thin hs Hscn. now apply (addMarkers_effect _ _ _ hs).
Qed.

End Repeat.

(** *** Default targets of the marker methods *)

Section Targets.

Context {B : Type} `{Backend B}.
Variable verbose : bool.

(** C6: with the body list omitted, [addMarkers] and [removeMarkers] work
    on the rigid-body names of the nodes of the physical scene, root after
    root, each tree parent first and children in declaration order, one
    entry per node.  With a graphical scene, [addMarkers] goes through
    that list in order and appends to the World one Marker for each name
    without a marker in the engine, and [removeMarkers] goes through it in
    order and removes the marker of each name that has one at that
    moment. *)
Theorem markers_default_targets_depth_first (s : Sim B) (thin : bool) :
  let roots := nodes (physical_scene (scene (world s))) in
  let targets := map rigid_body (flat_map preorder roots) in
  allNodeNames (world s) = targets
  /\ length targets = list_sum (map size roots)
  /\ addMarkers verbose None thin s = addMarkers verbose (Some targets) thin s
  /\ removeMarkers verbose None s = removeMarkers verbose (Some targets) s
  /\ (forall hs,
         graph_scn (manager s) = Some hs ->
         (exists out,
             addMarkers verbose None thin s
             = Returns tt
                 (with_markers
                    (map marker_of (filter (missing (engine s)) targets))
                    (after [] out s)))
         /\ sweeps (removeMarkers verbose None) (flat_map hide targets) s).
Proof.
  intros roots targets.
  assert (E : allNodeNames (world s) = targets)
    by apply allNodeNames_preorder.
  split; [exact E|]. split; [|split; [|split]].
  - unfold targets. rewrite length_map. apply preorder_forest_length.
  - unfold addMarkers, bind, get_self, get_world.
    destruct (graph_scn (manager s)); [|reflexivity]. now rewrite E.
  - unfold removeMarkers, bind, get_self, get_world.
    destruct (graph_scn (manager s)); [|reflexivity]. now rewrite E.
  - intros hs Hscn. rewrite <- E. split.
    + exact (addMarkers_effect verbose None thin s hs Hscn).
    + exact (removeMarkers_sweeps verbose None s hs Hscn).
Qed.

End Targets.

(** ** The reference engine at work *)

Module Scenario.

Import Reference.

Lemma differs_true x y : differs x y = true <-> x <> y.
Proof.
  unfold differs. rewrite negb_true_iff. split.
  - intros E ->. now rewrite String.eqb_refl in E.
  - intros N. destruct (String.eqb x y) eqn:E; [|reflexivity].
    apply String.eqb_eq in E. contradiction.
Qed.

#[export] Instance connector_laws : ConnectorLaws Engine.
Proof.
  split.
  - intros e b b' N Hb. simpl. apply filter_In. split; [exact Hb|].
    apply differs_true. congruence.
  - intros e c b Hc Hb. destruct c; simpl in *; try discriminate; exact Hb.
Qed.

#[export] Instance marker_laws : MarkerLaws Engine.
Proof.
  split. intros e n m Hm. simpl in Hm. apply filter_In in Hm.
  destruct Hm as [Hm Hd]. split; [exact Hm|].
  apply differs_true in Hd. congruence.
Qed.

(** C1 at ["steel"] on an empty scene: the call returns and the caller's
    list is empty, not ["steel"]; at ["a"; "b"] on a scene that has both,
    "b" is skipped by the first loop and reaches the deserializer. *)
Theorem addWorldToPhysic_loses_contact_materials :
  let w := mk_world [] [] ["steel"] no_graphics [] in
  let o := addWorldToPhysic (start physics_only w empty) in
  let w2 := mk_world [] [] ["a"; "b"] no_graphics [] in
  let e2 := step (phy_deserializeWorld w2) empty in
  let o2 := addWorldToPhysic (start physics_only w2 e2) in
  returns o = true
  /\ contact_materials (physical_scene (scene w)) = ["steel"]
  /\ contact_materials (physical_scene (scene (world (final o)))) = []
  /\ calls (final o) = [phy_deserializeWorld w]
  /\ calls (final o2)
     = [phy_deserializeWorld (mk_world [] [] ["b"] no_graphics [])]
  /\ contact_materials (physical_scene (scene (world (final o2)))) = [].
Proof. vm_compute. repeat split. Qed.

Example post_order_on_ABC :
  calls (final (removeWorldFromPhysic false
                  (start physics_only world_ABC loaded_ABC)))
  = [ms_removeRigidBody "B"; phy_deleteComponent "B";
     phy_deleteComponent "B.comp"; phy_deleteComponent "jB";
     ms_removeRigidBody "C"; phy_deleteComponent "C";
     phy_deleteComponent "C.comp"; phy_deleteComponent "jC";
     ms_removeRigidBody "A"; phy_deleteComponent "A";
     phy_deleteComponent "A.comp"; phy_deleteComponent "jA";
     ms_removeUnusedContactMaterials]
  /\ calls (final (removeWorldFromGraphic false
                     (start with_graphics world_ABC loaded_ABC)))
     = [contact_removeAllInteractionsInvolving "B"; ocb_removeBody "B";
        contact_removeAllInteractionsInvolving "C"; ocb_removeBody "C";
        contact_removeAllInteractionsInvolving "A"; ocb_removeBody "A";
        scn_removeNode "gB"; scn_removeNode "gC"; scn_removeNode "gA"].
Proof. vm_compute. split; reflexivity. Qed.

(** Clock and physics only: a World with the body "box1" is added, then
    removed. *)
Example box1_added_then_removed :
  let w := mk_world [PNode "box1" "j1" []] [] [] no_graphics [] in
  let added := final (addWorld false (start physics_only w empty)) in
  let removed := final (removeWorld false added) in
  getBodyNames (engine added) = ["box1"]
  /\ getBodyNames (engine removed) = []
  /\ getContactMaterials (engine removed) = [].
Proof. vm_compute. repeat split. Qed.

Lemma removal_walks_are_post_order_witness :
  let s := start physics_only world_ABC loaded_ABC in
  let g := start with_graphics world_ABC loaded_ABC in
  has_physics (manager s)
  /\ sweeps (removeRigidBodyChildren false tree_ABC)
            (flat_map delete_body (postorder tree_ABC)) s
  /\ sweeps (removeWorldFromPhysic false) (physic_removal (world s)) s
  /\ sweeps (removeWorldFromGraphic false)
            [always (contact_removeAllInteractionsInvolving "B");
             always (ocb_removeBody "B");
             always (contact_removeAllInteractionsInvolving "C");
             always (ocb_removeBody "C");
             always (contact_removeAllInteractionsInvolving "A");
             always (ocb_removeBody "A");
             (fun e => nodeExists e "gB", scn_removeNode "gB");
             (fun e => nodeExists e "gC", scn_removeNode "gC");
             (fun e => nodeExists e "gA", scn_removeNode "gA")] g.
Proof.
  intros s g.
  assert (Hs : has_physics (manager s))
    by (split; eexists; reflexivity).
  split; [exact Hs|].
  destruct (removal_walks_are_post_order false s) as (_ & _ & Hp & _).
  destruct (Hp Hs) as [Hn Hw]. split; [apply Hn|]. split; [exact Hw|].
  destruct (removal_walks_are_post_order false g) as (_ & _ & _ & Hg & _).
  exact (Hg (handle "scene") (handle "physic") tree_ABC [] eq_refl eq_refl
            eq_refl).
Defined.

Lemma markers_default_targets_depth_first_witness :
  let s := start with_graphics world_ABC loaded_ABC in
  (exists out,
      addMarkers true None true s
      = Returns tt
          (with_markers (map marker_of ["A"; "B"; "C"]) (after [] out s)))
  /\ sweeps (removeMarkers true None) (flat_map hide ["A"; "B"; "C"]) s.
Proof.
  intros s.
  destruct (markers_default_targets_depth_first true s true)
    as (_ & _ & _ & _ & Hg).
  exact (Hg (handle "scene") eq_refl).
Defined.

Lemma graphics_absent_is_skipped_witness :
  let s := start physics_only world_ABC loaded_ABC in
  skipped (addWorldToGraphic true s) s
  /\ skipped (removeWorldFromGraphic true s) s
  /\ skipped (addMarkers true None true s) s
  /\ skipped (removeMarkers true (Some ["A"]) s) s
  /\ skipped (addMarkerToSimulation true "m" true s) s
  /\ skipped (removeMarkerFromSimulation true "m" s) s.
Proof.
  intros s.
  destruct (graphics_absent_is_skipped true s eq_refl eq_refl)
    as (H1 & H2 & H3 & H4 & H5 & H6).
  repeat split; [exact H1 | exact H2 | apply H3 | apply H4 | apply H5
                 | apply H6].
Defined.

Lemma removeWorldFromGraphic_first_root_only_witness :
  (exists out,
      removeWorldFromGraphic false (start with_graphics world_no_root empty)
      = Raises Py.IndexError
          (after [] out (start with_graphics world_no_root empty)))
  /\ ocb (engine (final (removeWorldFromGraphic false
                           (start with_graphics world_two_roots
                                  loaded_two_roots)))) = ["R2"].
Proof.
  split.
  - exact (proj1 (removeWorldFromGraphic_first_root_only false
                    (start with_graphics world_no_root empty)
                    (handle "scene") (handle "physic") eq_refl eq_refl)
                 eq_refl).
  - destruct (proj2 (removeWorldFromGraphic_first_root_only false
                       (start with_graphics world_two_roots loaded_two_roots)
                       (handle "scene") (handle "physic") eq_refl eq_refl)
                    _ _ eq_refl) as (out & s' & E & -> & _).
    rewrite E. reflexivity.
Defined.

Lemma cleanPhy_clears_scene_first_witness :
  calls (final (cleanPhy (start physics_only world_no_root one_box)))
  = [ms_clean; phy_deleteComponent "robot"; phy_deleteComponent "box1";
     phy_deleteComponent "box1.comp"; phy_deleteComponent "j1"]
  /\ phy (manager (final (cleanPhy (start physics_only world_no_root
                                          one_box))))
     = Some (handle "physic").
Proof.
  destruct (cleanPhy_clears_scene_first
              (start physics_only world_no_root one_box)
              (handle "physic") (handle "main") eq_refl eq_refl) as [E Hp].
  split; [rewrite E; reflexivity | exact Hp].
Defined.

(** C8 as stated fails: the main scene is cleared before the first
    deletion, not after the last. *)
Lemma cleanPhy_scene_not_cleared_last :
  ~ exists deleted,
      calls (final (cleanPhy (start physics_only world_no_root one_box)))
      = deleting deleted ++ [ms_clean].
Proof.
  intros [deleted E]. vm_compute in E.
  destruct deleted as [|c deleted]; simpl in E; discriminate.
Qed.

Lemma marker_methods_skip_and_repeat_witness :
  (exists out,
      removeMarkers true (Some ["b"]) (start with_graphics world_b empty)
      = Returns tt (after [] out (start with_graphics world_b empty)))
  /\ (exists out,
         addMarkers true (Some ["b"]) true
                    (start with_graphics world_b marked_b)
         = Returns tt (after [] out (start with_graphics world_b marked_b)))
  /\ idempotent (removeMarkers true None)
                (start with_graphics world_b marked_b)
  /\ markers (graphical_scene (scene (world (final
        (addMarkers true None true (start with_graphics world_b empty))))))
     = [marker_of "b"].
Proof.
  split; [|split; [|split]].
  - apply (proj1 (marker_methods_skip_and_repeat true _)).
    repeat constructor.
  - apply (proj1 (proj2 (marker_methods_skip_and_repeat true _))).
    repeat constructor.
  - apply (proj1 (proj2 (proj2 (marker_methods_skip_and_repeat true _)))).
    exact marker_laws.
  - destruct (proj2 (proj2 (proj2 (marker_methods_skip_and_repeat true
                (start with_graphics world_b empty))))
                None true (handle "scene") eq_refl) as [out E].
    rewrite E. reflexivity.
Defined.

(** C7 as stated fails for [addMarkers]: run twice before the World is
    added, it leaves two markers named "b" in the World. *)
Lemma addMarkers_not_idempotent :
  ~ idempotent (addMarkers false None true)
               (start with_graphics world_b empty).
Proof.
  intros (s1 & s2 & E1 & E2 & Hw & _).
  vm_compute in E1. injection E1 as <-.
  vm_compute in E2. injection E2 as <-.
  vm_compute in Hw. discriminate.
Qed.

End Scenario.

(** ** Adding a World and removing it again, on the reference engine *)

Module RoundTrip.

Import Reference.

(** *** Lists *)

Lemma filter_all {X} (f : X -> bool) l :
  (forall x, In x l -> f x = true) -> filter f l = l.
Proof.
  induction l as [|x l IH]; simpl; intros Hf; [reflexivity|].
  rewrite (Hf x) by now left. f_equal. apply IH. intros y Hy.
  apply Hf. now right.
Qed.

Lemma filter_none {X} (f : X -> bool) l :
  (forall x, In x l -> f x = false) -> filter f l = [].
Proof.
  induction l as [|x l IH]; simpl; intros Hf; [reflexivity|].
  rewrite (Hf x) by now left. apply IH. intros y Hy. apply Hf. now right.
Qed.

Lemma filter_app_back {X} (f : X -> bool) l k :
  filter f (l ++ k) = l
  <-> (forall x, In x l -> f x = true) /\ (forall x, In x k -> f x = false).
Proof.
  rewrite filter_app. split.
  - intros E.
    assert (Hl : forall x, In x l -> f x = true).
    { intros x Hx. rewrite <- E in Hx. apply in_app_or in Hx.
      destruct Hx as [Hx|Hx]; apply filter_In in Hx; apply Hx. }
    split; [exact Hl|]. intros x Hx.
    rewrite (filter_all f l Hl) in E.
    rewrite <- (app_nil_r l) in E at 2. apply app_inv_head in E.
    destruct (f x) eqn:Ex; [|reflexivity].
    assert (Hin : In x (filter f k)) by (apply filter_In; now split).
    rewrite E in Hin. destruct Hin.
  - intros [Hl Hk]. rewrite (filter_all f l Hl), (filter_none f k Hk).
    apply app_nil_r.
Qed.

Lemma filter_twice {X} (f g : X -> bool) l :
  filter f (filter g l) = filter (fun x => g x && f x) l.
Proof.
  induction l as [|x l IH]; simpl; [reflexivity|].
  destruct (g x); simpl; [destruct (f x)|]; now rewrite IH.
Qed.

Lemma absent_from_cons {X} x names (p : string * X) :
  absent_from (x :: names) p = differs x (fst p) && absent_from names p.
Proof.
  unfold absent_from, differs. simpl.
  rewrite negb_orb, (String.eqb_sym (fst p) x). reflexivity.
Qed.

Lemma absent_from_true {X} names (p : string * X) :
  absent_from names p = true <-> ~ In (fst p) names.
Proof.
  unfold absent_from. rewrite negb_true_iff, <- PyFacts.contains_In.
  destruct (Py.contains (fst p) names); split; congruence.
Qed.

Lemma absent_from_false {X} names (p : string * X) :
  absent_from names p = false <-> In (fst p) names.
Proof.
  unfold absent_from. rewrite negb_false_iff. apply PyFacts.contains_In.
Qed.

(** *** Trees *)

Lemma postorder_preorder n x : In x (postorder n) <-> In x (preorder n).
Proof.
  revert x. induction n as [rb joint ch IH] using PhysicalNode_forall_ind.
  intros x. simpl. rewrite in_app_iff. simpl.
  assert (G : In x (flat_map postorder ch) <-> In x (flat_map preorder ch)).
  { rewrite !in_flat_map. rewrite Forall_forall in IH.
    split; intros [c [Hc Hx]]; exists c; (split; [exact Hc|]);
      now apply (IH c Hc). }
  rewrite G. tauto.
Qed.

Lemma postorder_forest roots x :
  In x (flat_map postorder roots) <-> In x (flat_map preorder roots).
Proof.
  rewrite !in_flat_map.
  split; intros [c [Hc Hx]]; exists c; (split; [exact Hc|]);
    now apply postorder_preorder.
Qed.

Lemma node_components_names roots :
  map fst (flat_map node_components roots)
  = flat_map node_dels (flat_map preorder roots).
Proof.
  induction roots as [|r roots IHr]; [reflexivity|].
  simpl. rewrite map_app, flat_map_app, IHr. f_equal. clear IHr roots.
  induction r as [rb joint ch IH] using PhysicalNode_forall_ind.
  simpl. do 3 f_equal.
  induction IH as [|c ch Hc _ IHch]; simpl; [reflexivity|].
  now rewrite map_app, flat_map_app, Hc, IHch.
Qed.

Lemma node_bodies_names roots :
  flat_map node_bodies roots = map rigid_body (flat_map preorder roots).
Proof.
  induction roots as [|r roots IHr]; [reflexivity|].
  simpl. rewrite map_app, IHr. f_equal. clear IHr roots.
  induction r as [rb joint ch IH] using PhysicalNode_forall_ind.
  simpl. f_equal.
  induction IH as [|c ch Hc _ IHch]; simpl; [reflexivity|].
  now rewrite map_app, Hc, IHch.
Qed.

(** *** The engine under removal calls *)

Lemma Engine_eta e :
  {| components := components e; bodies := bodies e;
     materials := materials e; ocb := ocb e;
     graph_nodes := graph_nodes e; marker_labels := marker_labels e |} = e.
Proof. destruct e. reflexivity. Qed.

Lemma differs_absent {X} x (l : list (string * X)) :
  Py.contains x (map fst l) = false ->
  filter (fun p => differs x (fst p)) l = l.
Proof.
  intros Hx. apply filter_all. intros p Hp.
  unfold differs. apply negb_true_iff.
  destruct (String.eqb x (fst p)) eqn:E; [|reflexivity].
  apply String.eqb_eq in E. subst x.
  assert (Py.contains (fst p) (map fst l) = true)
    by (apply PyFacts.contains_In; now apply in_map).
  congruence.
Qed.

Lemma harmless_sweep steps e :
  Forall harmless steps ->
  run_calls (sweep steps e) e = run_calls (map snd steps) e.
Proof.
  intros HF. revert e. induction HF as [|[g c] r Hc _ IH]; intros e.
  - reflexivity.
  - simpl. destruct (g e) eqn:E; simpl.
    + apply IH.
    + rewrite IH. f_equal. symmetry. apply (Hc e E).
Qed.

Lemma physic_removal_harmless w : Forall harmless (physic_removal w).
Proof.
  unfold physic_removal. rewrite !Forall_app. repeat split.
  - apply Forall_forall. intros st Hst. apply in_map_iff in Hst.
    destruct Hst as [m [<- _]]. intros e E. discriminate.
  - apply Forall_forall. intros st Hst. apply in_flat_map in Hst.
    destruct Hst as [n [_ Hst]].
    destruct Hst as [<-|[<-|[<-|[<-|[]]]]]; intros e E; simpl in *;
      rewrite differs_absent by exact E; apply Engine_eta.
  - constructor; [|constructor]. intros e E. discriminate.
Qed.

Lemma physic_removal_calls w :
  map snd (physic_removal (B := Engine) w)
  = removal_calls w ++ [ms_removeUnusedContactMaterials].
Proof.
  unfold physic_removal, removal_calls.
  rewrite !map_app, map_map, app_assoc. f_equal. f_equal.
  induction (flat_map postorder (nodes (physical_scene (scene w))))
    as [|n l IH]; simpl; [reflexivity|]. now rewrite IH.
Qed.

Lemma deleted_removal_calls w :
  deleted (removal_calls w)
  = map mechanism_name (mechanisms (physical_scene (scene w)))
    ++ flat_map node_dels
         (flat_map postorder (nodes (physical_scene (scene w)))).
Proof.
  unfold deleted, removal_calls. rewrite flat_map_app. f_equal.
  - induction (mechanisms (physical_scene (scene w))) as [|m l IH];
      simpl; congruence.
  - induction (flat_map postorder (nodes (physical_scene (scene w))))
      as [|n l IH]; simpl; [reflexivity|]. now rewrite IH.
Qed.

Lemma unbodied_removal_calls w :
  unbodied (removal_calls w)
  = map rigid_body (flat_map postorder (nodes (physical_scene (scene w)))).
Proof.
  unfold unbodied, removal_calls. rewrite flat_map_app.
  replace (flat_map _ (map _ (mechanisms (physical_scene (scene w)))))
    with (@nil string).
  - simpl.
    induction (flat_map postorder (nodes (physical_scene (scene w))))
      as [|n l IH]; simpl; [reflexivity|]. now rewrite IH.
  - induction (mechanisms (physical_scene (scene w))) as [|m l IH];
      simpl; congruence.
Qed.

Lemma removal_calls_only w : forallb removal_call (removal_calls w) = true.
Proof.
  unfold removal_calls. rewrite forallb_app. apply andb_true_intro. split.
  - induction (mechanisms (physical_scene (scene w))) as [|m l IH];
      simpl; congruence.
  - induction (flat_map postorder (nodes (physical_scene (scene w))))
      as [|n l IH]; simpl; [reflexivity|]. exact IH.
Qed.

Lemma run_removals cs e :
  forallb removal_call cs = true ->
  components (run_calls cs e)
  = filter (absent_from (deleted cs)) (components e)
  /\ bodies (run_calls cs e)
     = filter (absent_from (unbodied cs)) (bodies e)
  /\ materials (run_calls cs e) = materials e.
Proof.
  revert e. induction cs as [|c cs IH]; intros e Hcs.
  - simpl. rewrite !filter_all; auto.
  - simpl in Hcs. apply andb_prop in Hcs. destruct Hcs as [Hc Hcs].
    change (run_calls (c :: cs) e) with (run_calls cs (step c e)).
    destruct (IH (step c e) Hcs) as (IC & IB & IM).
    rewrite IC, IB, IM.
    destruct c; try discriminate; simpl; repeat split;
      rewrite filter_twice; apply filter_ext; intros p;
      now rewrite absent_from_cons.
Qed.

(** *** What the first loop keeps *)

Lemma remove_incl x l r : Py.remove x l = Some r -> incl r l.
Proof.
  revert r. induction l as [|y l IH]; simpl; intros r Hr; [discriminate|].
  destruct (String.eqb x y).
  - inversion Hr; subst. now apply incl_tl, incl_refl.
  - destruct (Py.remove x l) as [r'|]; [|discriminate].
    inversion Hr; subst. apply incl_cons; [now left|].
    now apply incl_tl, IH.
Qed.

Lemma drop_known_incl known i l r :
  drop_known known i l = Some r -> incl r l.
Proof.
  revert r. funelim (drop_known known i l); intros r0 Hr0.
  - inversion Hr0; subst. apply incl_refl.
  - auto.
  - eapply incl_tran; [now apply H | now eapply remove_incl; eauto].
  - discriminate.
Qed.

(** *** The round trip *)

Section Restore.

Variable w : World.
Variable e : Engine.
Variable kept : list string.

Hypothesis fresh_components :
  forall x, In x (world_components w) -> ~ In x (getComponents e).
Hypothesis fresh_bodies :
  forall b, In b (world_bodies w) -> ~ In b (getBodyNames e).
Let ps := physical_scene (scene w).
Let e1 := step (phy_deserializeWorld (set_contact_materials kept w)) e.
Let e2 := run_calls (removal_calls w) e1.

Lemma removal_restores_components : components e2 = components e.
Proof.
  destruct (run_removals (removal_calls w) e1 (removal_calls_only w))
    as (EC & _ & _).
  fold e2 in EC. rewrite EC, deleted_removal_calls.
  change (components e1)
    with (components e
            ++ map (fun m => (mechanism_name m, "Robot")) (mechanisms ps)
            ++ flat_map node_components (nodes ps)).
  rewrite !filter_app. rewrite filter_all, !filter_none.
  - now rewrite !app_nil_r.
  - intros p Hp. apply absent_from_false, in_or_app. right.
    assert (Hn : In (fst p) (flat_map node_dels (flat_map preorder (nodes ps))))
      by (rewrite <- node_components_names; now apply in_map).
    apply in_flat_map in Hn. destruct Hn as [n [Hn Hx]].
    apply in_flat_map. exists n.
    split; [now apply postorder_forest | exact Hx].
  - intros p Hp. apply absent_from_false, in_or_app. left.
    apply in_map_iff in Hp. destruct Hp as [m [<- Hm]]. simpl.
    now apply in_map.
  - intros p Hp. apply absent_from_true. intros Hin.
    apply (fresh_components (fst p)); [|now apply in_map].
    unfold world_components, world_nodes. apply in_app_or in Hin.
    apply in_or_app. destruct Hin as [Hin|Hin]; [now left|right].
    apply in_flat_map in Hin. destruct Hin as [n [Hn Hx]].
    apply in_flat_map. exists n.
    split; [now apply postorder_forest | exact Hx].
Qed.

Lemma removal_restores_bodies : bodies e2 = bodies e.
Proof.
  destruct (run_removals (removal_calls w) e1 (removal_calls_only w))
    as (_ & EB & _).
  fold e2 in EB. rewrite EB, unbodied_removal_calls.
  change (bodies e1)
    with (bodies e
            ++ map (fun b => (b, @None string))
                   (flat_map node_bodies (nodes ps))).
  rewrite filter_app, filter_all, filter_none.
  - now rewrite app_nil_r.
  - intros p Hp. apply absent_from_false.
    apply in_map_iff in Hp. destruct Hp as [b [<- Hb]]. simpl.
    rewrite node_bodies_names in Hb.
    apply in_map_iff in Hb. destruct Hb as [n [<- Hn]].
    apply in_map. now apply postorder_forest.
  - intros p Hp. apply absent_from_true. intros Hin.
    apply (fresh_bodies (fst p)); [|now apply in_map].
    unfold world_bodies, world_nodes.
    apply in_map_iff in Hin. destruct Hin as [n [<- Hn]].
    apply in_map. now apply postorder_forest.
Qed.

Lemma removal_registry :
  registry (run_calls (removal_calls w ++ [ms_removeUnusedContactMaterials])
                      e1)
  = (components e, bodies e, filter (in_use e) (materials e ++ kept)).
Proof.
  rewrite run_calls_app. fold e2. unfold registry. simpl.
  rewrite removal_restores_components, removal_restores_bodies.
  f_equal.
  destruct (run_removals (removal_calls w) e1 (removal_calls_only w))
    as (_ & _ & EM).
  fold e2 in EM. rewrite EM.
  change (materials e1) with (materials e ++ kept).
  apply filter_ext. intros m. unfold in_use.
  now rewrite removal_restores_bodies.
Qed.

(** The registry is back exactly when every material of the scene is in
    use and none of those brought is. *)
Lemma removal_restores_registry :
  registry (run_calls (removal_calls w ++ [ms_removeUnusedContactMaterials])
                      e1)
  = registry e
  <-> (forall m, In m (getContactMaterials e) -> in_use e m = true)
      /\ (forall m, In m kept -> in_use e m = false).
Proof.
  rewrite removal_registry. unfold registry. split.
  - intros E. injection E as E. apply filter_app_back. exact E.
  - intros HE. apply filter_app_back in HE.
    change (getContactMaterials e) with (materials e) in HE.
    now rewrite HE.
Qed.

End Restore.




End RoundTrip.

(** ** Further properties of the composition methods *)

(** *** What the first loop of [addWorldToPhysic] lets through *)

Lemma remove_keeps_others x l r m :
  Py.remove x l = Some r -> In m l -> m <> x -> In m r.
Proof.
  revert r. induction l as [|y l IH]; simpl; intros r Hr Hm Hx; [tauto|].
  destruct (String.eqb x y) eqn:E.
  - inversion Hr; subst. apply String.eqb_eq in E. subst y.
    destruct Hm as [Hm|Hm]; [congruence | exact Hm].
  - destruct (Py.remove x l) as [r'|]; [|discriminate].
    inversion Hr; subst. destruct Hm as [Hm|Hm]; [now left|].
    right. now apply IH.
Qed.

Lemma drop_known_keeps_unknown known i l r m :
  drop_known known i l = Some r ->
  In m l -> Py.contains m known = false -> In m r.
Proof.
  revert r. funelim (drop_known known i l); intros r0 Hr0 Hm Hk.
  - inversion Hr0; subst. exact Hm.
  - auto.
  - apply H; [exact Hr0| |exact Hk].
    eapply remove_keeps_others; [eassumption | exact Hm|].
    intros ->. congruence.
  - discriminate.
Qed.

Lemma drop_known_nothing_known known i l :
  (forall m, In m l -> Py.contains m known = false) ->
  drop_known known i l = Some l.
Proof.
  funelim (drop_known known i l); intros Hl.
  - reflexivity.
  - auto.
  - exfalso. assert (In mat l) by (eapply nth_error_In; eassumption).
    rewrite (Hl mat) in Heq by assumption. discriminate.
  - exfalso. assert (In mat l) by (eapply nth_error_In; eassumption).
    rewrite (Hl mat) in Heq by assumption. discriminate.
Qed.

Section Handover.

Context {B : Type} `{Backend B}.
Variable verbose : bool.

(** X1: with the physics agent and its scenes, [addWorldToPhysic] hands the
    deserializer the World with a contact-material list taken from the
    World's own, in which every material the scene does not have yet is
    still present; when the scene has none of them, the list is handed
    over unchanged. *)
Theorem addWorldToPhysic_hands_over (s : Sim B) h1 h2 h3 :
  phy (manager s) = Some h1 ->
  ms (manager s) = Some h2 ->
  xcd (manager s) = Some h3 ->
  let given := contact_materials (physical_scene (scene (world s))) in
  let known := getContactMaterials (engine s) in
  exists kept,
    calls (final (addWorldToPhysic s))
    = calls s ++ [phy_deserializeWorld (set_contact_materials kept (world s))]
    /\ incl kept given
    /\ (forall m, In m given -> ~ In m known -> In m kept)
    /\ ((forall m, In m given -> ~ In m known) -> kept = given).
Proof.
  intros Hphy Hms Hxcd given known.
  destruct (addWorldToPhysic_effect s h2 Hms)
    as (kept & Hkept & E).
  fold given known in Hkept.
  assert (Hno : forall m, ~ In m known -> Py.contains m known = false).
  { intros m Hm. destruct (Py.contains m known) eqn:C; [|reflexivity].
    apply PyFacts.contains_In in C. contradiction. }
  exists kept. rewrite E. repeat split.
  - now apply (RoundTrip.drop_known_incl known 0).
  - intros m Hm Hk.
    apply (drop_known_keeps_unknown known 0 given kept m Hkept Hm).
    now apply Hno.
  - intros Hall.
    rewrite drop_known_nothing_known in Hkept; [congruence|].
    intros m Hm. now apply Hno, Hall.
Qed.

(** X2: without a main scene, [addWorldToPhysic] on a World that names at
    least one contact material raises [AttributeError] at the first
    [scene.getContactMaterials()]: nothing has been called or changed. *)
Theorem addWorldToPhysic_without_scene (s : Sim B) :
  ms (manager s) = None ->
  contact_materials (physical_scene (scene (world s))) <> [] ->
  addWorldToPhysic s = Raises Py.AttributeError s.
Proof.
  intros Hms Hne. unfold addWorldToPhysic, bind, materials, deref.
  destruct (contact_materials (physical_scene (scene (world s))));
    [contradiction|].
  now rewrite Hms.
Qed.

Lemma for_each_calls {X} (f : X -> Call) l (s : Sim B) :
  for_each l (fun x => call (f x)) s = Returns tt (after (map f l) [] s).
Proof.
  revert s. induction l as [|x l IH]; intros s.
  - simpl. now rewrite after_nil.
  - rewrite for_each_cons.
    rewrite (bind_Returns _ _ s tt (after [f x] [] s)).
    + rewrite IH, after_after. reflexivity.
    + unfold call, after. simpl. now rewrite app_nil_r.
Qed.

Lemma getRigidBodyNames_preorder ps :
  getRigidBodyNames ps = map rigid_body (flat_map preorder (nodes ps)).
Proof.
  pose (w := {| scene := {| physical_scene := ps;
                            graphical_scene :=
                              {| root_node := GNode "" [];
                                 markers := [] |} |} |}).
  change (getRigidBodyNames ps) with (allNodeNames w).
  apply (allNodeNames_preorder w).
Qed.

Lemma verbose_print_effect msg (s : Sim B) :
  verbose_print verbose msg s = Returns tt (after [] (said verbose msg) s).
Proof.
  unfold verbose_print, said, print, ret, after.
  destruct verbose; simpl; rewrite ?app_nil_r; [reflexivity|].
  now rewrite Sim_eta.
Qed.

Lemma addWorldToGraphic_effect (s : Sim B) hg :
  graph (manager s) = Some hg ->
  let loaded := after [graph_deserializeWorld (world s)]
                      (said verbose "CREATE CONNECTION PHY/GRAPH...") s in
  addWorldToGraphic verbose s
  = match phy (manager s) with
    | Some _ =>
        Returns tt
          (after (map ocb_addBody
                    (map rigid_body
                       (flat_map preorder
                          (nodes (physical_scene (scene (world s)))))))
                 [] loaded)
    | None => Raises Py.AttributeError loaded
    end.
Proof.
  intros Hg loaded. unfold addWorldToGraphic.
  unfold bind at 1. unfold get_self. rewrite Hg.
  unfold bind at 1. unfold get_world.
  rewrite (bind_Returns _ _ s tt
             (after [graph_deserializeWorld (world s)] [] s))
    by (unfold call, after; simpl; now rewrite app_nil_r).
  rewrite (bind_Returns _ _ _ tt loaded)
    by (rewrite verbose_print_effect, after_after; reflexivity).
  unfold bind, deref. change (manager loaded) with (manager s).
  destruct (phy (manager s)); [|reflexivity].
  rewrite for_each_calls, getRigidBodyNames_preorder. reflexivity.
Qed.

(** X3: with a graphics agent, [addWorldToGraphic] first deserializes the
    World into the graphics engine; then, with a physics agent, it puts
    every rigid body of the physical scene on the body-state connector,
    once per node, roots in order and each tree parent first, and without
    one it raises [AttributeError], the graphical scene staying
    deserialized. *)
Theorem addWorldToGraphic_registers_bodies (s : Sim B) hg :
  graph (manager s) = Some hg ->
  let names :=
    map rigid_body
        (flat_map preorder (nodes (physical_scene (scene (world s))))) in
  (forall hp, phy (manager s) = Some hp ->
     returns (addWorldToGraphic verbose s) = true
     /\ calls (final (addWorldToGraphic verbose s))
        = calls s ++ graph_deserializeWorld (world s) :: map ocb_addBody names)
  /\ (phy (manager s) = None ->
      exists s',
        addWorldToGraphic verbose s = Raises Py.AttributeError s'
        /\ calls s' = calls s ++ [graph_deserializeWorld (world s)]).
Proof.
  intros Hg names.
  pose proof (addWorldToGraphic_effect s hg Hg) as E. cbv zeta in E. split.
  - intros hp Hp. rewrite Hp in E. rewrite E. split; [reflexivity|].
    simpl. now rewrite <- app_assoc.
  - intros Hp. rewrite Hp in E. rewrite E. eexists. split; reflexivity.
Qed.

(** X4: with a graphical scene but no physics agent,
    [removeWorldFromGraphic] raises [AttributeError] when it fetches the
    connector, before any call. *)
Theorem removeWorldFromGraphic_without_physics (s : Sim B) hs :
  graph_scn (manager s) = Some hs ->
  phy (manager s) = None ->
  removeWorldFromGraphic verbose s
  = Raises Py.AttributeError
      (after [] (said verbose "REMOVE CONNECTION PHY/GRAPH...") s).
Proof.
  intros Hs Hp. unfold removeWorldFromGraphic.
  unfold bind at 1. unfold get_self. rewrite Hs.
  rewrite (bind_Returns _ _ s tt _ (verbose_print_effect _ s)).
  unfold bind, deref.
  change (manager (after [] (said verbose "REMOVE CONNECTION PHY/GRAPH...") s))
    with (manager s).
  now rewrite Hp.
Qed.

(** X5: with every agent in place, [addWorld] calls the physics
    deserializer first, then the graphics deserializer, then registers the
    bodies; the graphics deserializer is handed the World as
    [addWorldToPhysic] left it, its contact-material list empty. *)
Theorem addWorld_call_sequence (s : Sim B) hp hm hx hg :
  phy (manager s) = Some hp ->
  ms (manager s) = Some hm ->
  xcd (manager s) = Some hx ->
  graph (manager s) = Some hg ->
  exists kept,
    incl kept (contact_materials (physical_scene (scene (world s))))
    /\ returns (addWorld verbose s) = true
    /\ calls (final (addWorld verbose s))
       = calls s
         ++ phy_deserializeWorld (set_contact_materials kept (world s))
         :: graph_deserializeWorld (set_contact_materials [] (world s))
         :: map ocb_addBody
              (map rigid_body
                 (flat_map preorder
                    (nodes (physical_scene (scene (world s)))))).
Proof.
  intros Hp Hm Hx Hg.
  set (s0 := after [] (said verbose "CREATE WORLD...") s).
  destruct (addWorldToPhysic_effect s0 hm Hm)
    as (kept & Hkept & E).
  exists kept. split.
  { now apply (RoundTrip.drop_known_incl _ 0) in Hkept. }
  assert (Eall : exists s',
             addWorld verbose s = Returns tt s'
             /\ calls s'
                = calls s
                  ++ phy_deserializeWorld
                       (set_contact_materials kept (world s))
                  :: graph_deserializeWorld
                       (set_contact_materials [] (world s))
                  :: map ocb_addBody
                       (map rigid_body
                          (flat_map preorder
                             (nodes (physical_scene (scene (world s))))))).
  { unfold addWorld. unfold bind at 1. unfold deref. rewrite Hp.
    rewrite (bind_Returns _ _ s tt _ (verbose_print_effect _ s)).
    fold s0. rewrite (bind_Returns _ _ s0 tt _ E).
    match goal with
    | |- context [addWorldToGraphic verbose ?x] =>
        pose proof (addWorldToGraphic_effect x hg Hg) as Eg
    end.
    cbv zeta in Eg. rewrite Eg. unfold s0. cbn [manager after].
    rewrite Hp. eexists. split; [reflexivity|].
    simpl. rewrite app_nil_r, <- !app_assoc. reflexivity. }
  destruct Eall as (s' & Es & Ec). rewrite Es.
  split; [reflexivity | exact Ec].
Qed.

End Handover.

(** *** What the methods leave alone *)

Section Frames.

Context {B : Type} `{Backend B}.
Variable verbose : bool.

Lemma keeps_bind {A C X} (f : Sim B -> X) (m : M B A) (k : A -> M B C) :
  keeps f m -> (forall a, keeps f (k a)) -> keeps f (bind m k).
Proof.
  intros Hm Hk s. unfold bind. specialize (Hm s).
  destruct (m s) as [a s'|e s']; simpl in *.
  - now rewrite Hk.
  - exact Hm.
Qed.

Lemma keeps_for_each {X Y} (f : Sim B -> Y) (l : list X)
  (body : X -> M B unit) :
  Forall (fun x => keeps f (body x)) l -> keeps f (for_each l body).
Proof.
  induction 1 as [|x l Hx _ IH].
  - intros s. reflexivity.
  - rewrite for_each_cons. apply keeps_bind; [exact Hx | intros _; exact IH].
Qed.

Lemma beside_engine_world : beside_engine (@world B).
Proof. intros self w e cs out e' cs' out'. reflexivity. Qed.

Lemma beside_engine_manager : beside_engine (@manager B).
Proof. intros self w e cs out e' cs' out'. reflexivity. Qed.

Section Observation.

Context {X : Type} (f : Sim B -> X).
Hypothesis Hf : beside_engine f.

Lemma keeps_call c : keeps f (call c).
Proof. intros [self w e cs out]. apply Hf. Qed.

Lemma keeps_verbose_print msg : keeps f (verbose_print verbose msg).
Proof.
  intros [self w e cs out]. unfold verbose_print.
  destruct verbose; [apply Hf | reflexivity].
Qed.

Lemma keeps_deref {A} g (k : Handle -> M B A) :
  (forall h, keeps f (k h)) -> keeps f (bind (deref g) k).
Proof.
  intros Hk s. unfold bind, deref.
  destruct (g (manager s)); [apply Hk | reflexivity].
Qed.

Lemma keeps_guarded {Y} (q : B -> Y) (test : Y -> bool) (m1 m2 : M B unit) :
  keeps f m1 -> keeps f m2 ->
  keeps f (y <- query q ;; if test y then m1 else m2).
Proof.
  intros H1 H2 s. unfold bind, query.
  destruct (test (q (engine s))); [apply H1 | apply H2].
Qed.

Lemma keeps_ret : keeps f (ret tt).
Proof. intros s. reflexivity. Qed.

Lemma keeps_deleteNodeInPhysicalAgent node :
  keeps f (deleteNodeInPhysicalAgent node).
Proof.
  induction node as [rb joint ch IH] using PhysicalNode_forall_ind.
  simpl. apply keeps_bind; [now apply keeps_for_each|].
  intros _. apply keeps_bind; [apply keeps_call|].
  intros _. apply keeps_call.
Qed.

Lemma keeps_deleteNodeInGraphicalAgent node :
  keeps f (deleteNodeInGraphicalAgent verbose node).
Proof.
  induction node as [nname ch IH] using GraphicalNode_forall_ind.
  simpl. apply keeps_bind; [now apply keeps_for_each|].
  intros _. apply keeps_bind; [apply keeps_verbose_print|].
  intros _. apply (keeps_guarded _ (fun b => b));
    [apply keeps_call | apply keeps_ret].
Qed.

Lemma keeps_removeRigidBodyChildren node :
  keeps f (removeRigidBodyChildren verbose node).
Proof.
  induction node as [rb joint ch IH] using PhysicalNode_forall_ind.
  rewrite removeRigidBodyChildren_eq.
  apply keeps_bind; [now apply keeps_for_each|].
  intros _. apply keeps_bind; [apply keeps_verbose_print|].
  intros _. apply keeps_deref. intros _ s.
  rewrite <- bind_assoc. revert s.
  apply keeps_bind.
  - apply (keeps_guarded getBodyNames (Py.contains rb));
      [apply keeps_call | apply keeps_ret].
  - intros _. apply keeps_for_each. repeat constructor;
      apply keeps_deref; intros _;
      apply (keeps_guarded getComponents (Py.contains _));
      first [apply keeps_call | apply keeps_ret].
Qed.

Lemma keeps_get_world {A} (k : World -> M B A) :
  (forall w, keeps f (k w)) -> keeps f (bind get_world k).
Proof. intros Hk s. apply (Hk (world s) s). Qed.

Lemma keeps_get_self {A} (k : WorldManager -> M B A) :
  (forall self, keeps f (k self)) -> keeps f (bind get_self k).
Proof. intros Hk s. apply (Hk (manager s) s). Qed.

Lemma keeps_first_item {Y A} (l : list Y) (k : Y -> M B A) :
  (forall y, keeps f (k y)) -> keeps f (bind (first_item l) k).
Proof.
  intros Hk s. unfold bind, first_item.
  destruct l; [reflexivity | apply Hk].
Qed.

Lemma keeps_removeWorldFromPhysic : keeps f (removeWorldFromPhysic verbose).
Proof.
  unfold removeWorldFromPhysic.
  apply keeps_bind; [apply keeps_verbose_print|]. intros _.
  apply keeps_get_world. intros w.
  apply keeps_bind.
  - apply keeps_for_each, Forall_forall. intros m _.
    apply keeps_deref. intros _. apply keeps_call.
  - intros _. apply keeps_bind.
    + apply keeps_for_each, Forall_forall. intros n _.
      apply keeps_removeRigidBodyChildren.
    + intros _. apply keeps_bind; [apply keeps_verbose_print|].
      intros _. apply keeps_deref. intros _. apply keeps_call.
Qed.

Lemma keeps_removeWorldFromGraphic : keeps f (removeWorldFromGraphic verbose).
Proof.
  unfold removeWorldFromGraphic.
  apply keeps_get_self. intros self.
  destruct (graph_scn self); [|apply keeps_ret].
  apply keeps_bind; [apply keeps_verbose_print|]. intros _.
  apply keeps_deref. intros _.
  apply keeps_get_world. intros w.
  apply keeps_first_item. intros root.
  apply keeps_bind; [apply keeps_deleteNodeInPhysicalAgent|]. intros _.
  apply keeps_bind; [apply keeps_verbose_print|]. intros _.
  apply keeps_bind; [apply keeps_deleteNodeInGraphicalAgent|]. intros _.
  apply keeps_bind; [apply keeps_verbose_print|]. intros _.
  apply keeps_for_each, Forall_forall. intros m _.
  apply (keeps_guarded getMarkerLabels (Py.contains (marker_name m)));
    [|apply keeps_ret].
  apply keeps_bind; [apply keeps_verbose_print|]. intros _.
  apply keeps_call.
Qed.

Lemma keeps_addWorldToGraphic : keeps f (addWorldToGraphic verbose).
Proof.
  unfold addWorldToGraphic.
  apply keeps_get_self. intros self.
  destruct (graph self); [|apply keeps_ret].
  apply keeps_get_world. intros w.
  apply keeps_bind; [apply keeps_call|]. intros _.
  apply keeps_bind; [apply keeps_verbose_print|]. intros _.
  apply keeps_deref. intros _.
  apply keeps_for_each, Forall_forall. intros b _. apply keeps_call.
Qed.

Lemma keeps_cleanGraph : keeps f cleanGraph.
Proof.
  unfold cleanGraph. apply keeps_get_self. intros self.
  destruct (graph_scn self); [|apply keeps_ret].
  repeat (apply keeps_bind; [apply keeps_call|]; intros _).
  apply keeps_call.
Qed.

Lemma keeps_cleanPhy : keeps f cleanPhy.
Proof.
  unfold cleanPhy. apply keeps_get_self. intros self.
  destruct (phy self); [|apply keeps_ret].
  apply keeps_deref. intros _.
  apply keeps_bind; [apply keeps_call|]. intros _.
  assert (D : forall l, keeps f
                (for_each l (fun c => call (phy_deleteComponent c)))).
  { intros l. apply keeps_for_each, Forall_forall. intros c _.
    apply keeps_call. }
  apply keeps_bind.
  - apply keeps_for_each, Forall_forall. intros kind _ s.
    unfold bind, query. apply D.
  - intros _ s. unfold bind, query. apply D.
Qed.

Lemma keeps_removeMarkers bodies : keeps f (removeMarkers verbose bodies).
Proof.
  unfold removeMarkers. apply keeps_get_self. intros self.
  destruct (graph_scn self); [|apply keeps_verbose_print].
  apply keeps_get_world. intros w.
  apply keeps_for_each, Forall_forall. intros n _.
  apply (keeps_guarded getMarkerLabels (Py.contains n));
    [apply keeps_call | apply keeps_verbose_print].
Qed.

Lemma keeps_addMarkerToSimulation n thin :
  keeps f (addMarkerToSimulation verbose n thin).
Proof.
  unfold addMarkerToSimulation. apply keeps_get_self. intros self.
  destruct (graph_scn self); [apply keeps_call | apply keeps_verbose_print].
Qed.

Lemma keeps_removeMarkerFromSimulation n :
  keeps f (removeMarkerFromSimulation verbose n).
Proof.
  unfold removeMarkerFromSimulation. apply keeps_get_self. intros self.
  destruct (graph_scn self); [apply keeps_call | apply keeps_verbose_print].
Qed.

End Observation.

(** X6: apart from [addWorldToPhysic], [addWorld], [addFreeMarkers] and
    [addMarkers], no method changes the caller's World object, whether it
    returns or raises: the three removals, [addWorldToGraphic], the two
    clean-ups, [removeMarkers] and the two direct marker methods leave it
    exactly as given. *)
Theorem world_left_untouched :
  keeps (@world B) (addWorldToGraphic verbose)
  /\ keeps (@world B) (removeWorldFromGraphic verbose)
  /\ keeps (@world B) (removeWorldFromPhysic verbose)
  /\ keeps (@world B) (removeWorld verbose)
  /\ keeps (@world B) cleanGraph
  /\ keeps (@world B) cleanPhy
  /\ (forall bodies, keeps (@world B) (removeMarkers verbose bodies))
  /\ (forall n thin, keeps (@world B) (addMarkerToSimulation verbose n thin))
  /\ (forall n, keeps (@world B) (removeMarkerFromSimulation verbose n)).
Proof.
  pose proof beside_engine_world as Hw.
  repeat split.
  - now apply keeps_addWorldToGraphic.
  - now apply keeps_removeWorldFromGraphic.
  - now apply keeps_removeWorldFromPhysic.
  - unfold removeWorld. apply keeps_bind;
      [now apply keeps_removeWorldFromGraphic|].
    intros _. now apply keeps_removeWorldFromPhysic.
  - now apply keeps_cleanGraph.
  - now apply keeps_cleanPhy.
  - intros bodies. now apply keeps_removeMarkers.
  - intros n thin. now apply keeps_addMarkerToSimulation.
  - intros n. now apply keeps_removeMarkerFromSimulation.
Qed.

Lemma keeps_manager_addWorldToPhysic : keeps (@manager B) addWorldToPhysic.
Proof.
  pose proof beside_engine_manager as Hm.
  assert (Hset : forall l, keeps (@manager B) (set_materials l))
    by (intros l s; reflexivity).
  assert (Hor : forall (o : option (list string)) (k : list string -> M B unit),
             (forall a, keeps (@manager B) (k a)) ->
             keeps (@manager B) (bind (or_ValueError o) k)).
  { intros o k Hk s. unfold bind, or_ValueError.
    destruct o; [apply Hk | reflexivity]. }
  assert (Hmat : forall (k : list string -> M B unit),
             (forall a, keeps (@manager B) (k a)) ->
             keeps (@manager B) (bind materials k)).
  { intros k Hk s. unfold bind, materials. apply Hk. }
  unfold addWorldToPhysic.
  apply Hmat. intros Lmat. apply keeps_bind.
  - destruct Lmat as [|m0 Lmat]; [apply keeps_ret|].
    apply keeps_deref. intros _.
    assert (Hq : forall (k : list string -> M B unit),
               (forall a, keeps (@manager B) (k a)) ->
               keeps (@manager B) (bind (query getContactMaterials) k)).
    { intros k Hk s. unfold bind, query. apply Hk. }
    apply Hq. intros known. apply Hor. intros kept. apply Hset.
  - intros _. apply keeps_get_world. intros w.
    apply keeps_bind; [now apply keeps_call|]. intros _.
    apply Hmat. intros l. apply Hor. intros emptied.
    apply keeps_bind; [apply Hset|]. intros _.
    apply Hmat. intros target. apply Hmat. intros Lmat'. apply Hset.
Qed.

Lemma keeps_manager_addFreeMarkers a : keeps (@manager B) (addFreeMarkers a).
Proof.
  unfold addFreeMarkers. apply keeps_for_each, Forall_forall.
  intros n _ s. reflexivity.
Qed.

Lemma keeps_manager_addMarkers bodies thin :
  keeps (@manager B) (addMarkers verbose bodies thin).
Proof.
  pose proof beside_engine_manager as Hm.
  unfold addMarkers. apply keeps_get_self. intros self.
  destruct (graph_scn self); [|now apply keeps_verbose_print].
  apply keeps_get_world. intros w.
  apply keeps_for_each, Forall_forall. intros n _.
  apply (keeps_guarded _ getMarkerLabels
           (fun labels => negb (Py.contains n labels)));
    [apply keeps_manager_addFreeMarkers | now apply keeps_verbose_print].
Qed.

(** X7: no composition, clean-up or marker method assigns an attribute of
    the manager: whether it returns or raises, [self] holds the same
    agents and scenes afterwards. *)
Theorem manager_left_untouched :
  keeps (@manager B) addWorldToPhysic
  /\ keeps (@manager B) (addWorldToGraphic verbose)
  /\ keeps (@manager B) (addWorld verbose)
  /\ keeps (@manager B) (removeWorldFromGraphic verbose)
  /\ keeps (@manager B) (removeWorldFromPhysic verbose)
  /\ keeps (@manager B) (removeWorld verbose)
  /\ keeps (@manager B) cleanGraph
  /\ keeps (@manager B) cleanPhy
  /\ (forall a, keeps (@manager B) (addFreeMarkers a))
  /\ (forall bodies thin, keeps (@manager B) (addMarkers verbose bodies thin))
  /\ (forall bodies, keeps (@manager B) (removeMarkers verbose bodies))
  /\ (forall n thin,
         keeps (@manager B) (addMarkerToSimulation verbose n thin))
  /\ (forall n, keeps (@manager B) (removeMarkerFromSimulation verbose n)).
Proof.
  pose proof beside_engine_manager as Hm.
  repeat split.
  - apply keeps_manager_addWorldToPhysic.
  - now apply keeps_addWorldToGraphic.
  - unfold addWorld. apply keeps_deref. intros _.
    apply keeps_bind; [now apply keeps_verbose_print|]. intros _.
    apply keeps_bind; [apply keeps_manager_addWorldToPhysic|]. intros _.
    now apply keeps_addWorldToGraphic.
  - now apply keeps_removeWorldFromGraphic.
  - now apply keeps_removeWorldFromPhysic.
  - unfold removeWorld. apply keeps_bind;
      [now apply keeps_removeWorldFromGraphic|].
    intros _. now apply keeps_removeWorldFromPhysic.
  - now apply keeps_cleanGraph.
  - now apply keeps_cleanPhy.
  - apply keeps_manager_addFreeMarkers.
  - intros bodies thin. apply keeps_manager_addMarkers.
  - intros bodies. now apply keeps_removeMarkers.
  - intros n thin. now apply keeps_addMarkerToSimulation.
  - intros n. now apply keeps_removeMarkerFromSimulation.
Qed.

End Frames.

(** *** Postconditions and failures part-way *)

Section Outcomes.

Context {B : Type} `{Backend B}.
Variable verbose : bool.

(** X8: on a marker registry obeying [MarkerLaws], after
    [removeMarkers] none of the names it worked on has a marker in the
    graphics engine, and no marker has appeared. *)
Theorem removeMarkers_leaves_no_marker `{!MarkerLaws B} bodies (s : Sim B) hs :
  graph_scn (manager s) = Some hs ->
  returns (removeMarkers verbose bodies s) = true
  /\ forall m,
       In m (getMarkerLabels (engine (final (removeMarkers verbose bodies s)))) ->
       In m (getMarkerLabels (engine s))
       /\ ~ In m (targets bodies (world s)).
Proof.
  intros Hscn.
  destruct (removeMarkers_sweeps verbose bodies s hs Hscn) as [out E].
  rewrite E. split; [reflexivity|].
  intros m Hm. simpl in Hm. now apply hidden_after_sweep in Hm.
Qed.

(** X9: given a marker in the engine, [removeMarkers] on that one name
    does exactly what [removeMarkerFromSimulation] does; without the
    marker, [removeMarkers] calls nothing while
    [removeMarkerFromSimulation], which checks nothing, still asks the
    engine to remove it. *)
Theorem removeMarkers_checks_removeMarkerFromSimulation_does_not
  (s : Sim B) hs n :
  graph_scn (manager s) = Some hs ->
  (Py.contains n (getMarkerLabels (engine s)) = true ->
   removeMarkers verbose (Some [n]) s
   = removeMarkerFromSimulation verbose n s)
  /\ (Py.contains n (getMarkerLabels (engine s)) = false ->
      calls (final (removeMarkers verbose (Some [n]) s)) = calls s
      /\ calls (final (removeMarkerFromSimulation verbose n s))
         = calls s ++ [mk_removeMarker n]).
Proof.
  intros Hscn.
  unfold removeMarkers, removeMarkerFromSimulation, bind, get_self, get_world,
    query.
  rewrite Hscn. cbn -[Py.contains]. unfold bind. cbv beta.
  split; intros Hn; rewrite Hn.
  - reflexivity.
  - split; [|reflexivity].
    unfold verbose_print. destruct verbose; reflexivity.
Qed.

Lemma run_deleting_components `{!ComponentLaws B} l (e : B) x :
  In x (getComponents (run_calls (deleting l) e)) ->
  In x (getComponents e) /\ ~ In x l.
Proof.
  revert e. induction l as [|c l IH]; intros e Hx; simpl in *.
  - split; [exact Hx | tauto].
  - destruct (IH _ Hx) as [H1 H2].
    destruct (deleteComponent_components _ _ _ H1) as [H3 H4].
    split; [exact H3|]. intros [->|Hin]; [now apply H4 | now apply H2].
Qed.

Lemma cleanPhy_effect (s : Sim B) hp hm :
  phy (manager s) = Some hp ->
  ms (manager s) = Some hm ->
  exists before,
    cleanPhy s
    = Returns tt
        (after (before
                  ++ deleting (getComponents (run_calls before (engine s))))
               [] s).
Proof.
  intros Hphy Hms.
  assert (K : forall kind (s0 : Sim B),
             bind (query (fun e =>
                     filter (fun comp => String.eqb (getType e comp) kind)
                            (getComponents e)))
                  (fun comps =>
                     for_each comps (fun c => call (phy_deleteComponent c)))
                  s0
             = Returns tt (after (deleting (of_kind kind (engine s0))) [] s0)).
  { intros kind s0. unfold bind, query. apply for_each_delete. }
  unfold cleanPhy. unfold bind at 1. unfold get_self. rewrite Hphy.
  unfold bind at 1. unfold deref. rewrite Hms.
  rewrite (bind_Returns _ _ s tt (after [ms_clean] [] s))
    by (unfold call, after; simpl; now rewrite app_nil_r).
  rewrite !for_each_cons, for_each_nil.
  set (s1 := after [ms_clean] [] s).
  set (s2 := after (deleting (of_kind "Robot" (engine s1))) [] s1).
  set (s3 := after (deleting (of_kind "RigidBody" (engine s2))) [] s2).
  set (s4 := after (deleting (of_kind "Composite" (engine s3))) [] s3).
  assert (E4 : exists before, s4 = after before [] s
                              /\ engine s4 = run_calls before (engine s)).
  { unfold s4, s3, s2, s1. rewrite !after_after. eexists.
    split; [reflexivity|]. simpl. now rewrite !run_calls_app. }
  destruct E4 as (before & E4 & Ee).
  exists before.
  rewrite (bind_Returns _ _ s1 tt s4).
  - unfold bind, query. rewrite for_each_delete, Ee, E4, after_after.
    reflexivity.
  - rewrite (bind_Returns _ _ s1 tt s2) by apply K.
    rewrite (bind_Returns _ _ s2 tt s3) by apply K.
    rewrite (bind_Returns _ _ s3 tt s4) by apply K.
    reflexivity.
Qed.

(** X10: on a component registry obeying [ComponentLaws], with the physics
    agent and its main scene, [cleanPhy] returns and leaves no component
    in the registry. *)
Theorem cleanPhy_leaves_no_component `{!ComponentLaws B} (s : Sim B) hp hm :
  phy (manager s) = Some hp ->
  ms (manager s) = Some hm ->
  returns (cleanPhy s) = true
  /\ getComponents (engine (final (cleanPhy s))) = [].
Proof.
  intros Hphy Hms.
  destruct (cleanPhy_effect s hp hm Hphy Hms) as [before E].
  rewrite E. split; [reflexivity|].
  cbn [final after engine]. rewrite run_calls_app.
  destruct (getComponents
              (run_calls
                 (deleting (getComponents (run_calls before (engine s))))
                 (run_calls before (engine s)))) as [|x l] eqn:Ex;
    [reflexivity|].
  exfalso.
  assert (Hx : In x (getComponents
                       (run_calls
                          (deleting
                             (getComponents (run_calls before (engine s))))
                          (run_calls before (engine s)))))
    by (rewrite Ex; now left).
  apply run_deleting_components in Hx. now destruct Hx.
Qed.

(** X11: without a physics agent [cleanPhy] does nothing; with the agent
    but no main scene it raises [AttributeError] at [self.ms.clean()],
    before any deletion. *)
Theorem cleanPhy_without_agent_or_scene (s : Sim B) :
  (phy (manager s) = None -> cleanPhy s = Returns tt s)
  /\ (forall hp, phy (manager s) = Some hp -> ms (manager s) = None ->
                 cleanPhy s = Raises Py.AttributeError s).
Proof.
  unfold cleanPhy, bind, get_self, deref. split.
  - now intros ->.
  - intros hp -> Hms. now rewrite Hms.
Qed.

Lemma removeRigidBodyChildren_without_scene node :
  forall s : Sim B,
    ms (manager s) = None ->
    exists out,
      removeRigidBodyChildren verbose node s
      = Raises Py.AttributeError (after [] out s).
Proof.
  induction node as [rb joint ch IH] using PhysicalNode_forall_ind.
  intros s Hms. rewrite removeRigidBodyChildren_eq.
  destruct IH as [|c ch Hc _].
  - rewrite for_each_nil.
    rewrite (bind_Returns _ _ s tt s) by reflexivity.
    rewrite (bind_Returns _ _ s tt _ (verbose_print_effect verbose _ s)).
    eexists. unfold bind, deref. cbn [manager after]. now rewrite Hms.
  - destruct (Hc s Hms) as [out E]. exists out.
    apply bind_Raises. rewrite for_each_cons. now apply bind_Raises.
Qed.

(** X12: with a physics agent but no main scene, [removeWorldFromPhysic]
    on a World that has a root node deletes the mechanisms and then
    raises [AttributeError] at the first body: the mechanisms stay
    deleted, nothing is rolled back and the material clean-up is not
    reached. *)
Theorem removeWorldFromPhysic_stops_after_mechanisms (s : Sim B) hp :
  phy (manager s) = Some hp ->
  ms (manager s) = None ->
  nodes (physical_scene (scene (world s))) <> [] ->
  exists out,
    removeWorldFromPhysic verbose s
    = Raises Py.AttributeError
        (after (map (fun m => phy_deleteComponent (mechanism_name m))
                    (mechanisms (physical_scene (scene (world s)))))
               out s).
Proof.
  intros Hphy Hms Hne. unfold removeWorldFromPhysic.
  rewrite (bind_Returns _ _ s tt _ (verbose_print_effect verbose _ s)).
  set (s0 := after [] (said verbose "REMOVE PHYSICAL WORLD...") s).
  unfold bind at 1. unfold get_world.
  change (world s0) with (world s).
  set (dels := map (fun m => phy_deleteComponent (mechanism_name m))
                   (mechanisms (physical_scene (scene (world s))))).
  assert (Em : for_each (mechanisms (physical_scene (scene (world s))))
                 (fun mechanism =>
                    _ <- deref phy ;;
                    call (phy_deleteComponent (mechanism_name mechanism))) s0
               = Returns tt (after dels [] s0)).
  { unfold dels. generalize s0 (eq_refl : manager s0 = manager s).
    induction (mechanisms (physical_scene (scene (world s)))) as [|m l IHl];
      intros t Ht.
    - simpl. now rewrite after_nil.
    - rewrite for_each_cons.
      rewrite (bind_Returns _ _ t tt
                 (after [phy_deleteComponent (mechanism_name m)] [] t)).
      + rewrite IHl by exact Ht. simpl map. rewrite after_after.
        reflexivity.
      + unfold bind, deref. rewrite Ht, Hphy.
        unfold call, after. simpl. now rewrite app_nil_r. }
  rewrite (bind_Returns _ _ s0 tt _ Em).
  destruct (nodes (physical_scene (scene (world s)))) as [|root rest];
    [contradiction|].
  destruct (removeRigidBodyChildren_without_scene root (after dels [] s0) Hms)
    as [out E].
  exists (said verbose "REMOVE PHYSICAL WORLD..." ++ out).
  rewrite (bind_Raises _ _ _ Py.AttributeError
             (after [] out (after dels [] s0))).
  - unfold s0. rewrite !after_after. simpl. now rewrite app_nil_r.
  - rewrite for_each_cons. now apply bind_Raises.
Qed.

End Outcomes.

(** ** Properties of the agents, the wiring and the viewer *)

Module LifecycleFacts.

Import Lifecycle.

Section Facts.

Context {B : Type} `{Backend B}.
Variables Real Disp : Type.
Variables r0 r1 : Real.
Variable scene_name : string.
Variable verbose : bool.

Local Abbreviation State := (@Life B Real Disp).

Lemma running_app (l1 l2 : list (Op Real Disp)) a was :
  running (l1 ++ l2) a was = running l2 a (running l1 a was).
Proof.
  revert was. induction l1 as [|o l1 IH]; intros was; [reflexivity|].
  destruct o; simpl; apply IH.
Qed.

Lemma peers_app (l1 l2 : list (Op Real Disp)) p acc :
  peers (l1 ++ l2) p acc = peers l2 p (peers l1 p acc).
Proof.
  revert acc. induction l1 as [|o l1 IH]; intros acc; [reflexivity|].
  destruct o; simpl; try apply IH.
  - destruct (same_port p p0); [apply IH|].
    destruct (same_port p q); apply IH.
  - destruct (same_port p p0); apply IH.
Qed.

Ltac run_life :=
  unfold main, createAllAgents, createAndConnectGraphicAgent,
    createClockAgent, createPhysicAgent, createGraphicAgent,
    connectClockToPhysic, connectGraphToPhysic, disconnectGraphFromPhysic,
    startAgents, stopAgents, startSimulation, stopSimulation,
    tell, lift, verbose_print.

(** X13: [connectGraphToPhysic] and [disconnectGraphFromPhysic] need both
    the graphics and the physics agent, and [connectClockToPhysic] both
    the clock and the physics agent: with one of them missing the
    assertion fails before any port is touched. *)
Theorem wiring_asserts_its_agents (st : State) :
  (graph (manager (sim st)) = None \/ phy (manager (sim st)) = None ->
   connectGraphToPhysic st = Failed AssertionError st
   /\ disconnectGraphFromPhysic st = Failed AssertionError st)
  /\ (clock (manager (sim st)) = None \/ phy (manager (sim st)) = None ->
      connectClockToPhysic st = Failed AssertionError st).
Proof.
  unfold connectGraphToPhysic, disconnectGraphFromPhysic,
    connectClockToPhysic, then_, assert_set.
  split.
  - intros [Hn|Hn].
    + now rewrite Hn.
    + destruct (graph (manager (sim st))); rewrite ?Hn; split; reflexivity.
  - intros [Hn|Hn].
    + now rewrite Hn.
    + destruct (clock (manager (sim st))); rewrite ?Hn; reflexivity.
Qed.

(** X14: [createGraphicAgent] reads the clock's period for the marker
    manager after it has created and started the graphics agent: without
    a clock it raises [AttributeError] with [graph] and [graph_scn] set
    and the agent running, but no marker manager and the frame port
    unconnected. *)
Theorem createGraphicAgent_needs_the_clock (st : State) graph_name :
  clock (manager (sim st)) = None ->
  let r := createGraphicAgent scene_name verbose graph_name st in
  exists st',
    r = Failed (PyError Py.AttributeError) st'
    /\ graph (manager (sim st')) = Some (handle graph_name)
    /\ graph_scn (manager (sim st')) = Some (handle scene_name)
    /\ markers st' = markers st
    /\ running (ops st') Graphic false = true
    /\ (forall period, In (create_marker_manager period) (ops st') ->
                       In (create_marker_manager period) (ops st))
    /\ peers (ops st') (Graphic, "framePosition") []
       = peers (ops st) (Graphic, "framePosition") [].
Proof.
  intros Hc r. subst r.
  destruct st as [[[p g c m x gs ic] w e cs out] co z mk cp sl log].
  simpl in Hc. subst c.
  unfold createGraphicAgent, tell, lift, verbose_print.
  destruct verbose; cbn; eexists;
    (split; [reflexivity|]); cbn;
    repeat split;
    try (rewrite !running_app; reflexivity);
    try (rewrite !peers_app; reflexivity);
    intros period; rewrite !in_app_iff; simpl;
    intros Hin; repeat destruct Hin as [Hin|Hin]; try discriminate;
    try contradiction; assumption.
Qed.

(** X15: [createAllAgents] without graphics never trips the assertions of
    [connectClockToPhysic], whatever the manager held before: it returns
    with [clock], [phy], [ms], [xcd] and [icsync] set, [graph] and
    [graph_scn] as they were, the main scene created with the integration
    step [dt] (the period when [dt] is [None]), the clock's ticks feeding
    the physics trigger, and no agent started or stopped. *)
Theorem createAllAgents_without_graphics (st : State) time_step dt phy_name
  lmd_max uc_relaxation_factor graph_name :
  exists st',
    createAllAgents scene_name verbose time_step dt phy_name lmd_max
      uc_relaxation_factor false graph_name st = Done tt st'
    /\ manager (sim st')
       = {| phy := Some (handle phy_name);
            graph := graph (manager (sim st));
            clock := Some (handle "clock");
            ms := Some (handle "main");
            xcd := Some (handle "xcd");
            graph_scn := graph_scn (manager (sim st));
            icsync := Some (handle "icsync") |}
    /\ markers st' = markers st
    /\ clock_period st' = Some time_step
    /\ In (createGVMScene "main"
             (match dt with None => time_step | Some d => d end)
             uc_relaxation_factor) (ops st')
    /\ peers (ops st') (Physic, "clock_trigger") []
       = peers (ops st) (Physic, "clock_trigger") [] ++ [(Clock, "ticks")]
    /\ (forall a was, running (ops st') a was = running (ops st) a was).
Proof.
  destruct st as [[[p g c m x gs ic] w e cs out] co z mk cp sl log].
  run_life.
  destruct verbose; cbn; eexists; (split; [reflexivity|]); cbn;
    (repeat split;
     [ rewrite !in_app_iff; simpl; tauto
     | rewrite !peers_app; reflexivity
     | intros a was; rewrite !running_app; reflexivity ]).
Qed.

(** X16: [createAllAgents] with graphics returns with all seven attributes
    set, exactly one new marker manager, created with the period of the
    clock ([time_step], not [dt]), the graphics agent fed by the physics
    agent on its body-state and contact ports and by the marker manager
    on its frame port, and the graphics agent and the marker manager
    running, while the clock and the physics agent are left as they
    were: they are not started. *)
Theorem createAllAgents_with_graphics (st : State) time_step dt phy_name
  lmd_max uc_relaxation_factor graph_name :
  exists st',
    createAllAgents scene_name verbose time_step dt phy_name lmd_max
      uc_relaxation_factor true graph_name st = Done tt st'
    /\ manager (sim st')
       = {| phy := Some (handle phy_name);
            graph := Some (handle graph_name);
            clock := Some (handle "clock");
            ms := Some (handle "main");
            xcd := Some (handle "xcd");
            graph_scn := Some (handle scene_name);
            icsync := Some (handle "icsync") |}
    /\ markers st' = Some (handle "MarkerManager")
    /\ (forall period,
          In (create_marker_manager period) (ops st') <->
          period = Some time_step
          \/ In (create_marker_manager period) (ops st))
    /\ peers (ops st') (Graphic, "body_state_H") []
       = peers (ops st) (Graphic, "body_state_H") []
         ++ [(Physic, "body_state_H")]
    /\ peers (ops st') (Graphic, "contacts") []
       = peers (ops st) (Graphic, "contacts") [] ++ [(Physic, "contacts")]
    /\ peers (ops st') (Graphic, "framePosition") []
       = peers (ops st) (Graphic, "framePosition") []
         ++ [(MarkerManager, "markerPositionPort_out")]
    /\ (forall was,
          running (ops st') Graphic was = true
          /\ running (ops st') MarkerManager was = true
          /\ running (ops st') Clock was = running (ops st) Clock was
          /\ running (ops st') Physic was = running (ops st) Physic was).
Proof.
  destruct st as [[[p g c m x gs ic] w e cs out] co z mk cp sl log].
  run_life.
  destruct verbose; cbn; eexists; (split; [reflexivity|]); cbn;
    (split; [reflexivity|]); (split; [reflexivity|]);
    (split;
     [ intros period; rewrite !in_app_iff; simpl; split;
       [ intros Hin; repeat destruct Hin as [Hin|Hin];
         try discriminate; try contradiction;
         [ right; assumption | left; congruence ]
       | intros [->|Hin]; tauto ]
     | ]);
    (repeat split; try (rewrite !peers_app; reflexivity);
     rewrite !running_app; reflexivity).
Qed.

(** X17: [startAgents] and [stopAgents] never raise: they start, then
    stop, the clock and the physics agent that exist, skip those that do
    not, change nothing in the manager and leave the graphics agent and the
    marker manager as they were.  [startSimulation] and [stopSimulation]
    have no such guard: without a physics agent they raise
    [AttributeError]. *)
Theorem startAgents_stopAgents_skip_missing_agents (st : State) :
  exists st1 st2,
    startAgents st = Done tt st1
    /\ stopAgents st1 = Done tt st2
    /\ sim st1 = sim st /\ sim st2 = sim st
    /\ (forall was,
          running (ops st1) Clock was
          = match clock (manager (sim st)) with
            | Some _ => true
            | None => running (ops st) Clock was
            end
          /\ running (ops st1) Physic was
             = match phy (manager (sim st)) with
               | Some _ => true
               | None => running (ops st) Physic was
               end
          /\ running (ops st2) Clock was
             = match clock (manager (sim st)) with
               | Some _ => false
               | None => running (ops st) Clock was
               end
          /\ running (ops st2) Physic was
             = match phy (manager (sim st)) with
               | Some _ => false
               | None => running (ops st) Physic was
               end
          /\ running (ops st1) Graphic was = running (ops st) Graphic was
          /\ running (ops st2) Graphic was = running (ops st) Graphic was
          /\ running (ops st1) MarkerManager was
             = running (ops st) MarkerManager was
          /\ running (ops st2) MarkerManager was
             = running (ops st) MarkerManager was)
    /\ (phy (manager (sim st)) = None ->
        startSimulation st = Failed (PyError Py.AttributeError) st
        /\ stopSimulation st = Failed (PyError Py.AttributeError) st).
Proof.
  destruct st as [[[p g c m x gs ic] w e cs out] co z mk cp sl log].
  run_life.
  destruct c, p; cbn; do 2 eexists;
    (split; [reflexivity|]); (split; [reflexivity|]);
    (split; [reflexivity|]); (split; [reflexivity|]); cbn;
    (split;
     [ intros was; repeat split; rewrite ?running_app; reflexivity
     | intros Hn; try discriminate; split; reflexivity ]).
Qed.

(** X18: [connectGraphToPhysic] does not undo [disconnectGraphFromPhysic]:
    the first disconnects three ports of the graphics agent, the second
    reconnects two.  After one then the other, body states and contacts
    come from the physics agent again, and the frame port, which
    [createGraphicAgent] had connected to the marker manager, is connected
    to nothing. *)
Theorem reconnecting_loses_the_marker_link (st : State) :
  graph (manager (sim st)) <> None ->
  phy (manager (sim st)) <> None ->
  exists st',
    then_ disconnectGraphFromPhysic (fun _ => connectGraphToPhysic) st
    = Done tt st'
    /\ sim st' = sim st
    /\ peers (ops st') (Graphic, "body_state_H") []
       = [(Physic, "body_state_H")]
    /\ peers (ops st') (Graphic, "contacts") [] = [(Physic, "contacts")]
    /\ peers (ops st') (Graphic, "framePosition") [] = [].
Proof.
  destruct st as [[[p g c m x gs ic] w e cs out] co z mk cp sl log].
  simpl. intros Hg Hp.
  destruct g; [|contradiction]. destruct p; [|contradiction].
  run_life. cbn. eexists. split; [reflexivity|]. cbn.
  repeat split; rewrite !peers_app; reflexivity.
Qed.

(** X19: [changePhy] never returns.  Without a graphics or a physics agent
    its first assertion fails and nothing is done.  With both, the three
    ports of the graphics agent are disconnected and the graphical scene
    is cleaned; then, without corba, [ImportError] is raised, and with it
    the proxy replaces [phy] and reading [self.phy_worlds], which nothing
    sets, raises [AttributeError]: no World is added back and nothing is
    reconnected. *)
Theorem changePhy_never_completes (st : State) phy_name :
  done (changePhy verbose phy_name st) = false
  /\ (graph (manager (sim st)) = None \/ phy (manager (sim st)) = None ->
      changePhy verbose phy_name st = Failed AssertionError st)
  /\ (graph (manager (sim st)) <> None -> phy (manager (sim st)) <> None ->
      exists st',
        changePhy verbose phy_name st
        = Failed (if corba st then PyError Py.AttributeError
                  else ImportError) st'
        /\ engine (sim st') = engine (final (cleanGraph (sim st)))
        /\ calls (sim st') = calls (final (cleanGraph (sim st)))
        /\ ops st'
           = ops st
             ++ [disconnect (Graphic, "body_state_H");
                 disconnect (Graphic, "framePosition");
                 disconnect (Graphic, "contacts")]
             ++ (if corba st then [get_proxy phy_name] else [])
        /\ phy (manager (sim st'))
           = if corba st then Some (handle phy_name)
             else phy (manager (sim st))).
Proof.
  destruct st as [[[p g c m x gs ic] w e cs out] co z mk cp sl log].
  unfold changePhy, getPhysicAgentFromCorba, phy_worlds.
  run_life. unfold cleanGraph.
  repeat split.
  - destruct g, p, gs, co; reflexivity.
  - simpl. intros [->| ->]; [reflexivity|]. destruct g; reflexivity.
  - simpl. intros Hg Hp.
    destruct g; [|contradiction]. destruct p; [|contradiction].
    destruct gs, co; cbn; eexists; (split; [reflexivity|]); cbn;
      rewrite <- ?app_assoc; repeat split.
Qed.

(** X20: with a graphics agent, its scene and a scene in the viewer,
    [createViewPort] returns after binding the first scene to the window
    at the depth [z] or, when [z] is [None], at the counter
    [_internal_z], which it then increments; a given [z] leaves the
    counter alone.  The camera it creates and switches to is named after
    the viewport, and the viewport is resized last. *)
Theorem createViewPort_depth (st : State) windowName viewportName
  x y rx ry ratio z g gs scene others :
  graph (manager (sim st)) = Some g ->
  graph_scn (manager (sim st)) = Some gs ->
  scene_labels st = scene :: others ->
  exists st',
    createViewPort verbose windowName viewportName x y rx ry ratio z st
    = Done tt st'
    /\ ops st'
       = ops st
         ++ [bindSceneWindow scene windowName viewportName
               (match z with Some k => k | None => internal_z st end);
             createCamera (viewportName ++ ".cam");
             switchToCamera (viewportName ++ ".cam") viewportName;
             viewer_resizeViewport viewportName x y rx ry;
             setViewportCustomRatio viewportName ratio]
    /\ internal_z st'
       = match z with
         | Some _ => internal_z st
         | None => (internal_z st + 1)%Z
         end
    /\ sim st' = sim st
    /\ scene_labels st' = scene_labels st.
Proof.
  destruct st as [[[p g0 c m x0 gs0 ic] w e cs out] co z0 mk cp sl log].
  simpl. intros -> -> ->.
  unfold createViewPort, resizeViewport. run_life.
  destruct z; cbn; eexists; (split; [reflexivity|]); cbn;
    rewrite <- ?app_assoc; repeat split.
Qed.

(** The depth a viewport gets by default. *)
Lemma createViewPort_default (st : State) windowName viewportName
  x y rx ry ratio g gs scene others :
  graph (manager (sim st)) = Some g ->
  graph_scn (manager (sim st)) = Some gs ->
  scene_labels st = scene :: others ->
  exists st',
    createViewPort verbose windowName viewportName x y rx ry ratio None st
    = Done tt st'
    /\ depths (ops st') = depths (ops st) ++ [internal_z st]
    /\ internal_z st' = (internal_z st + 1)%Z
    /\ sim st' = sim st
    /\ scene_labels st' = scene_labels st.
Proof.
  destruct st as [[[p g0 c m x0 gs0 ic] w e cs out] co z0 mk cp sl log].
  simpl. intros -> -> ->.
  unfold createViewPort, resizeViewport. run_life.
  cbn. eexists. split; [reflexivity|]. unfold depths. cbn.
  rewrite !flat_map_app. cbn. rewrite !app_nil_r. repeat split.
Qed.

(** X21: viewports created one after the other without [z] get the
    depths [_internal_z], [_internal_z + 1], ... in that order: pairwise
    different, the counter advancing by their number. *)
Theorem default_depths_are_consecutive (names : list string) (st : State)
  windowName x y rx ry ratio g gs scene others :
  graph (manager (sim st)) = Some g ->
  graph_scn (manager (sim st)) = Some gs ->
  scene_labels st = scene :: others ->
  exists st',
    each names
      (fun n => createViewPort verbose windowName n x y rx ry ratio None) st
    = Done tt st'
    /\ depths (ops st')
       = depths (ops st)
         ++ map (fun i => (internal_z st + Z.of_nat i)%Z)
                (seq 0 (length names))
    /\ internal_z st' = (internal_z st + Z.of_nat (length names))%Z
    /\ NoDup (map (fun i => (internal_z st + Z.of_nat i)%Z)
                  (seq 0 (length names))).
Proof.
  intros Hg Hgs Hl.
  assert (Hnd : forall k n,
            NoDup (map (fun i => (k + Z.of_nat i)%Z) (seq 0 n))).
  { intros k n. generalize 0. induction n as [|n IHn]; intros a; simpl.
    - constructor.
    - constructor; [|apply IHn].
      rewrite in_map_iff. intros (i & Hi & Hin).
      apply in_seq in Hin. lia. }
  revert st Hg Hgs Hl.
  induction names as [|n names IH]; intros st Hg Hgs Hl.
  - exists st. simpl. rewrite app_nil_r, Z.add_0_r.
    repeat split. constructor.
  - destruct (createViewPort_default st windowName n x y rx ry ratio
                g gs scene others Hg Hgs Hl)
      as (st1 & E1 & Hd1 & Hz1 & Hs1 & Hsl1).
    destruct (IH st1) as (st' & E & Hd & Hz & _).
    + now rewrite Hs1.
    + now rewrite Hs1.
    + now rewrite Hsl1.
    + exists st'. split; [|split; [|split]].
      * change (each (n :: names) ?f) with (then_ (f n) (fun _ => each names f)).
        unfold then_ at 1. rewrite E1. exact E.
      * rewrite Hd, Hd1, Hz1, <- app_assoc. f_equal.
        cbn [length seq map app]. rewrite Z.add_0_r. f_equal.
        rewrite <- seq_shift, map_map. apply map_ext. intros i. lia.
      * rewrite Hz, Hz1. cbn [length]. lia.
      * apply Hnd.
Qed.

(** X22: the viewer methods decline without graphics: [createWindow],
    [createViewPort], [resizeViewport] and [resizeWindow] when [graph] is
    [None], [attachViewPortToNode] and [attachViewPortToNewNode] when
    [graph_scn] is [None].  They return having asked nothing of the viewer,
    the depth counter untouched. *)
Theorem viewer_methods_without_graphics (st : State) :
  (graph (manager (sim st)) = None ->
   (forall windowName width height x y viewPortName,
      declines verbose
        (createWindow r0 r1 verbose windowName width height x y viewPortName)
        st)
   /\ (forall windowName viewportName x y rx ry ratio z,
         declines verbose
           (createViewPort verbose windowName viewportName x y rx ry ratio z)
           st)
   /\ (forall viewportName x y rx ry ratio,
         declines verbose
           (resizeViewport verbose viewportName x y rx ry ratio) st)
   /\ (forall windowName width height x y,
         declines verbose (resizeWindow verbose windowName width height x y)
           st))
  /\ (graph_scn (manager (sim st)) = None ->
      (forall viewportName nodeName,
         declines verbose (attachViewPortToNode verbose viewportName nodeName)
           st)
      /\ (forall viewportName parentNodeName (D : Disp),
            declines verbose
              (attachViewPortToNewNode verbose viewportName parentNodeName D)
              st)).
Proof.
  destruct st as [[[p g c m x0 gs ic] w e cs out] co z0 mk cp sl log].
  split; simpl; intros ->; repeat split; intros;
    unfold declines, createWindow, createViewPort, resizeViewport,
      resizeWindow, attachViewPortToNode, attachViewPortToNewNode,
      no_graphic_agent, said, after;
    run_life; destruct verbose; cbn; rewrite ?app_nil_r; reflexivity.
Qed.

(** X23: with a graphics agent, [createViewPort] raises [IndexError] when
    the viewer has no scene, before anything is done; and when the viewer
    has one but [graph_scn] is [None], it raises [AttributeError] after
    the scene has been bound to the window and the depth counter
    consumed. *)
Theorem createViewPort_failures (st : State) windowName viewportName
  x y rx ry ratio z g :
  graph (manager (sim st)) = Some g ->
  (scene_labels st = [] ->
   createViewPort verbose windowName viewportName x y rx ry ratio z st
   = Failed (PyError Py.IndexError) st)
  /\ (forall scene others,
        scene_labels st = scene :: others ->
        graph_scn (manager (sim st)) = None ->
        exists st',
          createViewPort verbose windowName viewportName x y rx ry ratio z st
          = Failed (PyError Py.AttributeError) st'
          /\ ops st'
             = ops st
               ++ [bindSceneWindow scene windowName viewportName
                     (match z with Some k => k | None => internal_z st end)]
          /\ internal_z st'
             = match z with
               | Some _ => internal_z st
               | None => (internal_z st + 1)%Z
               end).
Proof.
  destruct st as [[[p g0 c m x0 gs ic] w e cs out] co z0 mk cp sl log].
  simpl. intros ->.
  unfold createViewPort. run_life. split.
  - intros ->. reflexivity.
  - intros scene others -> ->.
    destruct z; cbn; eexists; repeat split.
Qed.

(** X24: with a graphics agent, [createWindow] creates the window, resizes
    and moves it, then creates a viewport at the next default depth, named
    [viewPortName] or, by default, [windowName + ".vp"], with the ratios
    0, 0, 1, 1 and 1; [attachViewPortToNode] on that viewport name then
    attaches the camera [createWindow] made.  When the viewer has no
    scene, the window is created, resized and moved, and [IndexError] is
    raised: the window stays without a viewport. *)
Theorem createWindow_makes_its_viewport (st : State) windowName
  width height x y viewPortName g :
  graph (manager (sim st)) = Some g ->
  let vp := match viewPortName with
            | Some n => n
            | None => (windowName ++ ".vp")%string
            end in
  let window_ops := [createOgreWindowAndInput windowName;
                     viewer_resizeWindow windowName width height;
                     viewer_moveWindow windowName x y] in
  (forall gs scene others,
     graph_scn (manager (sim st)) = Some gs ->
     scene_labels st = scene :: others ->
     exists st',
       createWindow r0 r1 verbose windowName width height x y viewPortName st
       = Done tt st'
       /\ ops st'
          = ops st ++ window_ops
            ++ [bindSceneWindow scene windowName vp (internal_z st);
                createCamera (vp ++ ".cam");
                switchToCamera (vp ++ ".cam") vp;
                viewer_resizeViewport vp r0 r0 r1 r1;
                setViewportCustomRatio vp r1]
       /\ internal_z st' = (internal_z st + 1)%Z
       /\ forall nodeName,
            exists st'',
              attachViewPortToNode verbose vp nodeName st' = Done tt st''
              /\ ops st''
                 = ops st' ++ [attachCameraToNode (vp ++ ".cam") nodeName])
  /\ (scene_labels st = [] ->
      exists st',
        createWindow r0 r1 verbose windowName width height x y viewPortName st
        = Failed (PyError Py.IndexError) st'
        /\ ops st' = ops st ++ window_ops).
Proof.
  destruct st as [[[p g0 c m x0 gs0 ic] w e cs out] co z0 mk cp sl log].
  simpl. intros ->.
  unfold createWindow, createViewPort, resizeViewport, resizeWindow,
    attachViewPortToNode.
  run_life. split.
  - intros gs scene others -> ->. cbn.
    eexists. split; [reflexivity|]. cbn. rewrite <- !app_assoc.
    repeat split. intros nodeName. eexists. split; reflexivity.
  - intros ->. cbn. eexists. split; [reflexivity|]. cbn.
    rewrite <- !app_assoc. reflexivity.
Qed.

(** X25: [getPhysicAgentFromCorba] raises [ImportError] and changes
    nothing when the manager was made without corba.  With corba it
    replaces [phy], [ms] and [xcd] and nothing else: [icsync] and
    [clock] still are those of the agents created before, and nothing is
    asked of the engines. *)
Theorem getPhysicAgentFromCorba_effect (st : State) phy_name :
  (corba st = false ->
   getPhysicAgentFromCorba phy_name st = Failed ImportError st)
  /\ (corba st = true ->
      exists st',
        getPhysicAgentFromCorba phy_name st = Done tt st'
        /\ manager (sim st')
           = {| phy := Some (handle phy_name);
                graph := graph (manager (sim st));
                clock := clock (manager (sim st));
                ms := Some (handle "main");
                xcd := Some (handle "xcd");
                graph_scn := graph_scn (manager (sim st));
                icsync := icsync (manager (sim st)) |}
        /\ ops st' = ops st ++ [get_proxy phy_name]
        /\ engine (sim st') = engine (sim st)
        /\ calls (sim st') = calls (sim st)).
Proof.
  destruct st as [[[p g0 c m x0 gs0 ic] w e cs out] co z0 mk cp sl log].
  unfold getPhysicAgentFromCorba. simpl.
  split; intros ->; [reflexivity|].
  cbn. eexists. repeat split.
Qed.

(** X26: [getGraphicAgentFromCorba] raises [ImportError] and changes
    nothing without corba.  With corba, when the remote viewer has no
    scene it raises [IndexError] with [graph] already replaced and
    [graph_scn] still the old one; otherwise it binds [graph_scn] to the
    first scene and, when there are more, prints its warning whatever
    [verbose] is. *)
Theorem getGraphicAgentFromCorba_effect (st : State) graph_name :
  (corba st = false ->
   getGraphicAgentFromCorba graph_name st = Failed ImportError st)
  /\ (corba st = true -> scene_labels st = [] ->
      exists st',
        getGraphicAgentFromCorba graph_name st
        = Failed (PyError Py.IndexError) st'
        /\ graph (manager (sim st')) = Some (handle graph_name)
        /\ graph_scn (manager (sim st')) = graph_scn (manager (sim st))
        /\ stdout (sim st') = stdout (sim st))
  /\ (forall first others,
        corba st = true -> scene_labels st = first :: others ->
        exists st',
          getGraphicAgentFromCorba graph_name st = Done tt st'
          /\ graph (manager (sim st')) = Some (handle graph_name)
          /\ graph_scn (manager (sim st')) = Some (handle first)
          /\ stdout (sim st')
             = stdout (sim st)
               ++ match others with
                  | [] => []
                  | _ :: _ =>
                      [("Warning: many graphical scenes found in new agent. "
                          ++ "Bind graph_scn with first: " ++ first)%string]
                  end).
Proof.
  destruct st as [[[p g0 c m x0 gs0 ic] w e cs out] co z0 mk cp sl log].
  unfold getGraphicAgentFromCorba, say, lift, print. simpl.
  split; [intros ->; reflexivity|]. split.
  - intros -> ->. cbn. eexists. repeat split.
  - intros first others -> ->.
    destruct others; cbn; eexists; rewrite ?app_nil_r; repeat split.
Qed.

(** X27: [test/main.py], on a new manager: [createAllAgents(TIME_STEP)]
    followed by [startAgents()] returns with the four agents running, the
    clock driving the physics agent, the physics agent and the marker
    manager feeding the graphics agent, the main scene and the marker
    manager at the period [TIME_STEP], and nothing asked of the scenes. *)
Theorem main_starts_everything TIME_STEP lmd_max uc_relaxation_factor
  (w : World) (e : B) :
  exists st' : State,
    main scene_name verbose TIME_STEP lmd_max uc_relaxation_factor
      (new false w e) = Done tt st'
    /\ (forall a, running (ops st') a false = true)
    /\ peers (ops st') (Physic, "clock_trigger") [] = [(Clock, "ticks")]
    /\ peers (ops st') (Graphic, "body_state_H") []
       = [(Physic, "body_state_H")]
    /\ peers (ops st') (Graphic, "contacts") [] = [(Physic, "contacts")]
    /\ peers (ops st') (Graphic, "framePosition") []
       = [(MarkerManager, "markerPositionPort_out")]
    /\ In (createGVMScene "main" TIME_STEP uc_relaxation_factor) (ops st')
    /\ In (create_marker_manager (Some TIME_STEP)) (ops st')
    /\ engine (sim st') = e
    /\ calls (sim st') = [].
Proof.
  unfold new. run_life.
  destruct verbose; cbn; eexists; (split; [reflexivity|]); cbn;
    (split; [intros a; destruct a; reflexivity|]);
    repeat split; tauto.
Qed.

End Facts.

End LifecycleFacts.

(** ** The further properties at work on the reference engine *)

Module Examples.

Import Lifecycle LifecycleFacts Stage Reference.

#[export] Instance component_laws : ComponentLaws Engine.
Proof.
  split. intros e c x Hx. simpl in Hx.
  apply in_map_iff in Hx. destruct Hx as ([n k] & <- & Hin).
  apply filter_In in Hin. destruct Hin as [Hin Hd]. simpl in *. split.
  - apply in_map_iff. exists (n, k). split; [reflexivity | exact Hin].
  - apply Scenario.differs_true in Hd. congruence.
Qed.

Lemma addWorldToPhysic_hands_over_witness :
  let s := start physics_only world_box1 floor_on_steel in
  exists kept,
    calls (final (addWorldToPhysic s))
    = [phy_deserializeWorld (set_contact_materials kept world_box1)]
    /\ incl kept ["rubber"]
    /\ (forall m, In m ["rubber"] -> ~ In m ["steel"] -> In m kept)
    /\ ((forall m, In m ["rubber"] -> ~ In m ["steel"]) -> kept = ["rubber"]).
Proof.
  exact (addWorldToPhysic_hands_over
           (start physics_only world_box1 floor_on_steel)
           (handle "physic") (handle "main") (handle "xcd")
           eq_refl eq_refl eq_refl).
Defined.

Lemma addWorldToPhysic_without_scene_witness :
  let s := start init world_box1 empty in
  addWorldToPhysic s = Raises Py.AttributeError s.
Proof.
  apply addWorldToPhysic_without_scene; [reflexivity | discriminate].
Defined.

Lemma addWorldToGraphic_registers_bodies_witness :
  (let s := start with_graphics world_ABC empty in
   returns (addWorldToGraphic true s) = true
   /\ calls (final (addWorldToGraphic true s))
      = [graph_deserializeWorld world_ABC;
         ocb_addBody "A"; ocb_addBody "B"; ocb_addBody "C"])
  /\ (let s := start graphics_only world_ABC empty in
      exists s',
        addWorldToGraphic true s = Raises Py.AttributeError s'
        /\ calls s' = [graph_deserializeWorld world_ABC]).
Proof.
  split.
  - exact (proj1 (addWorldToGraphic_registers_bodies true
                    (start with_graphics world_ABC empty)
                    (handle "graphic") eq_refl)
                 (handle "physic") eq_refl).
  - exact (proj2 (addWorldToGraphic_registers_bodies true
                    (start graphics_only world_ABC empty)
                    (handle "graphic") eq_refl)
                 eq_refl).
Defined.

Lemma removeWorldFromGraphic_without_physics_witness :
  let s := start graphics_only world_ABC empty in
  removeWorldFromGraphic true s
  = Raises Py.AttributeError
      (after [] ["REMOVE CONNECTION PHY/GRAPH..."] s).
Proof.
  exact (removeWorldFromGraphic_without_physics true
           (start graphics_only world_ABC empty) (handle "scene")
           eq_refl eq_refl).
Defined.

Lemma addWorld_call_sequence_witness :
  let s := start with_graphics world_box1 floor_on_steel in
  exists kept,
    incl kept ["rubber"]
    /\ returns (addWorld true s) = true
    /\ calls (final (addWorld true s))
       = [phy_deserializeWorld (set_contact_materials kept world_box1);
          graph_deserializeWorld (set_contact_materials [] world_box1);
          ocb_addBody "box1"].
Proof.
  exact (addWorld_call_sequence true
           (start with_graphics world_box1 floor_on_steel)
           (handle "physic") (handle "main") (handle "xcd")
           (handle "graphic") eq_refl eq_refl eq_refl eq_refl).
Defined.

Lemma removeMarkers_leaves_no_marker_witness :
  let s := start with_graphics world_b marked_b in
  returns (removeMarkers true None s) = true
  /\ forall m,
       In m (getMarkerLabels (engine (final (removeMarkers true None s)))) ->
       In m ["b"] /\ ~ In m ["b"].
Proof.
  exact (@removeMarkers_leaves_no_marker _ _ true Scenario.marker_laws None
           (start with_graphics world_b marked_b) (handle "scene") eq_refl).
Defined.

Lemma removeMarkers_checks_removeMarkerFromSimulation_does_not_witness :
  (let s := start with_graphics world_b marked_b in
   removeMarkers true (Some ["b"]) s = removeMarkerFromSimulation true "b" s)
  /\ (let s := start with_graphics world_b empty in
      calls (final (removeMarkers true (Some ["b"]) s)) = []
      /\ calls (final (removeMarkerFromSimulation true "b" s))
         = [mk_removeMarker "b"]).
Proof.
  split.
  - exact (proj1 (removeMarkers_checks_removeMarkerFromSimulation_does_not
                    true (start with_graphics world_b marked_b)
                    (handle "scene") "b" eq_refl) eq_refl).
  - exact (proj2 (removeMarkers_checks_removeMarkerFromSimulation_does_not
                    true (start with_graphics world_b empty)
                    (handle "scene") "b" eq_refl) eq_refl).
Defined.

Lemma cleanPhy_leaves_no_component_witness :
  let s := start physics_only world_ABC loaded_ABC in
  returns (cleanPhy s) = true
  /\ getComponents (engine (final (cleanPhy s))) = [].
Proof.
  exact (cleanPhy_leaves_no_component
           (start physics_only world_ABC loaded_ABC)
           (handle "physic") (handle "main") eq_refl eq_refl).
Defined.

Lemma cleanPhy_without_agent_or_scene_witness :
  (let s := start init world_ABC loaded_ABC in cleanPhy s = Returns tt s)
  /\ (let s := start agent_without_scene world_ABC loaded_ABC in
      cleanPhy s = Raises Py.AttributeError s).
Proof.
  split.
  - exact (proj1 (cleanPhy_without_agent_or_scene
                    (start init world_ABC loaded_ABC)) eq_refl).
  - exact (proj2 (cleanPhy_without_agent_or_scene
                    (start agent_without_scene world_ABC loaded_ABC))
                 (handle "physic") eq_refl eq_refl).
Defined.

Lemma removeWorldFromPhysic_stops_after_mechanisms_witness :
  let s := start agent_without_scene world_robot one_box in
  exists out,
    removeWorldFromPhysic true s
    = Raises Py.AttributeError (after [phy_deleteComponent "robot"] out s).
Proof.
  apply (removeWorldFromPhysic_stops_after_mechanisms true
           (start agent_without_scene world_robot one_box)
           (handle "physic") eq_refl eq_refl).
  discriminate.
Defined.


Lemma wiring_asserts_its_agents_witness :
  let st := fresh false in
  connectGraphToPhysic st = Failed AssertionError st
  /\ disconnectGraphFromPhysic st = Failed AssertionError st
  /\ connectClockToPhysic st = Failed AssertionError st.
Proof.
  intros st.
  destruct (wiring_asserts_its_agents Z unit st) as [H1 H2].
  destruct (H1 (or_introl eq_refl)) as [Ha Hb].
  exact (conj Ha (conj Hb (H2 (or_introl eq_refl)))).
Defined.

Lemma createGraphicAgent_needs_the_clock_witness :
  let st := fresh false in
  exists st',
    createGraphicAgent "scene" true "graphic" st
    = Failed (PyError Py.AttributeError) st'
    /\ graph (manager (sim st')) = Some (handle "graphic")
    /\ graph_scn (manager (sim st')) = Some (handle "scene")
    /\ Lifecycle.markers st' = Lifecycle.markers st
    /\ running (ops st') Graphic false = true
    /\ (forall period, In (create_marker_manager period) (ops st') ->
                       In (create_marker_manager period) (ops st))
    /\ peers (ops st') (Graphic, "framePosition") []
       = peers (ops st) (Graphic, "framePosition") [].
Proof.
  intros st.
  exact (createGraphicAgent_needs_the_clock Z unit "scene" true st "graphic"
           eq_refl).
Defined.

Lemma startAgents_stopAgents_skip_missing_agents_witness :
  let st := fresh false in
  startSimulation st = Failed (PyError Py.AttributeError) st
  /\ stopSimulation st = Failed (PyError Py.AttributeError) st
  /\ exists st1 st2,
       startAgents st = Done tt st1 /\ stopAgents st1 = Done tt st2
       /\ ops st2 = [].
Proof.
  intros st.
  destruct (startAgents_stopAgents_skip_missing_agents Z unit st)
    as (st1 & st2 & E1 & E2 & _ & _ & _ & Hsim).
  destruct (Hsim eq_refl) as [Ha Hb].
  split; [exact Ha | split; [exact Hb|]].
  exists st1, st2. split; [exact E1 | split; [exact E2|]].
  injection E1 as <-. injection E2 as <-. reflexivity.
Defined.

Lemma reconnecting_loses_the_marker_link_witness :
  let st := staged true in
  peers (ops st) (Graphic, "framePosition") []
  = [(MarkerManager, "markerPositionPort_out")]
  /\ exists st',
       then_ disconnectGraphFromPhysic (fun _ => connectGraphToPhysic) st
       = Done tt st'
       /\ sim st' = sim st
       /\ peers (ops st') (Graphic, "body_state_H") []
          = [(Physic, "body_state_H")]
       /\ peers (ops st') (Graphic, "contacts") [] = [(Physic, "contacts")]
       /\ peers (ops st') (Graphic, "framePosition") [] = [].
Proof.
  intros st. split; [reflexivity|].
  apply reconnecting_loses_the_marker_link; vm_compute; discriminate.
Defined.

Lemma changePhy_never_completes_witness :
  changePhy false "remote" (fresh false)
  = Failed AssertionError (fresh false)
  /\ (let st := staged true in
      exists st',
        changePhy false "remote" st
        = Failed (if corba st then PyError Py.AttributeError
                  else ImportError) st'
        /\ engine (sim st') = engine (final (cleanGraph (sim st)))
        /\ calls (sim st') = calls (final (cleanGraph (sim st)))
        /\ ops st'
           = ops st
             ++ [disconnect (Graphic, "body_state_H");
                 disconnect (Graphic, "framePosition");
                 disconnect (Graphic, "contacts")]
             ++ (if corba st then [get_proxy "remote"] else [])
        /\ phy (manager (sim st'))
           = if corba st then Some (handle "remote")
             else phy (manager (sim st))).
Proof.
  split.
  - exact (proj1 (proj2 (changePhy_never_completes Z unit false
                           (fresh false) "remote"))
                 (or_introl eq_refl)).
  - intros st.
    apply (proj2 (proj2 (changePhy_never_completes Z unit false st
                           "remote")));
      vm_compute; discriminate.
Defined.

Lemma createViewPort_depth_witness :
  let st := staged true in
  exists st',
    createViewPort false "w" "w.vp2" 0%Z 0%Z 1%Z 1%Z 1%Z (Some 5%Z) st
    = Done tt st'
    /\ ops st'
       = ops st
         ++ [bindSceneWindow "scene" "w" "w.vp2" 5%Z;
             createCamera "w.vp2.cam";
             switchToCamera "w.vp2.cam" "w.vp2";
             viewer_resizeViewport "w.vp2" 0%Z 0%Z 1%Z 1%Z;
             setViewportCustomRatio "w.vp2" 1%Z]
    /\ internal_z st' = 1%Z
    /\ sim st' = sim st
    /\ scene_labels st' = scene_labels st.
Proof.
  intros st.
  exact (createViewPort_depth Z unit false st "w" "w.vp2" 0%Z 0%Z 1%Z 1%Z
           1%Z (Some 5%Z) (handle "graphic") (handle "scene") "scene" []
           eq_refl eq_refl eq_refl).
Defined.

Lemma default_depths_are_consecutive_witness :
  let st := staged true in
  exists st',
    each ["a"; "b"; "c"]
      (fun n => createViewPort false "w" n 0%Z 0%Z 1%Z 1%Z 1%Z None) st
    = Done tt st'
    /\ depths (ops st') = [1%Z; 2%Z; 3%Z]
    /\ internal_z st' = 4%Z
    /\ NoDup [1%Z; 2%Z; 3%Z].
Proof.
  intros st.
  exact (default_depths_are_consecutive Z unit false ["a"; "b"; "c"] st "w"
           0%Z 0%Z 1%Z 1%Z 1%Z (handle "graphic") (handle "scene") "scene" []
           eq_refl eq_refl eq_refl).
Defined.

Lemma viewer_methods_without_graphics_witness :
  let st := fresh false in
  declines true (createWindow 0%Z 1%Z true "w" 800 600 0 0 None) st
  /\ declines true
       (createViewPort true "w" "w.vp" 0%Z 0%Z 1%Z 1%Z 1%Z None) st
  /\ declines true (resizeViewport true "w.vp" 0%Z 0%Z 1%Z 1%Z 1%Z) st
  /\ declines true (resizeWindow true "w" 800 600 0 0) st
  /\ declines true (attachViewPortToNode true "w.vp" "b") st
  /\ declines true (attachViewPortToNewNode true "w.vp" "b" tt) st.
Proof.
  intros st.
  destruct (viewer_methods_without_graphics Z unit 0%Z 1%Z true st)
    as [Hg Hs].
  destruct (Hg eq_refl) as (H1 & H2 & H3 & H4).
  destruct (Hs eq_refl) as (H5 & H6).
  exact (conj (H1 _ _ _ _ _ _)
           (conj (H2 _ _ _ _ _ _ _ _)
              (conj (H3 _ _ _ _ _ _)
                 (conj (H4 _ _ _ _ _) (conj (H5 _ _) (H6 _ _ _)))))).
Defined.

Lemma createViewPort_failures_witness :
  (let st := outcome (getGraphicAgentFromCorba "graphic" (fresh true)) in
   createViewPort false "w" "w.vp" 0%Z 0%Z 1%Z 1%Z 1%Z None st
   = Failed (PyError Py.IndexError) st)
  /\ (exists st',
        createViewPort false "w" "w.vp" 0%Z 0%Z 1%Z 1%Z 1%Z None unbound
        = Failed (PyError Py.AttributeError) st'
        /\ ops st' = [bindSceneWindow "scene" "w" "w.vp" 1%Z]
        /\ internal_z st' = 2%Z).
Proof.
  split.
  - intros st.
    exact (proj1 (createViewPort_failures Z unit false st "w" "w.vp"
                    0%Z 0%Z 1%Z 1%Z 1%Z None (handle "graphic") eq_refl)
                 eq_refl).
  - exact (proj2 (createViewPort_failures Z unit false unbound "w" "w.vp"
                    0%Z 0%Z 1%Z 1%Z 1%Z None (handle "graphic") eq_refl)
                 "scene" [] eq_refl eq_refl).
Defined.

Lemma createWindow_makes_its_viewport_witness :
  (let st := staged true in
   exists st',
     createWindow 0%Z 1%Z false "w" 800 600 0 0 None st = Done tt st'
     /\ ops st'
        = ops st
          ++ [createOgreWindowAndInput "w";
              viewer_resizeWindow "w" 800 600;
              viewer_moveWindow "w" 0 0]
          ++ [bindSceneWindow "scene" "w" "w.vp" 1%Z;
              createCamera "w.vp.cam";
              switchToCamera "w.vp.cam" "w.vp";
              viewer_resizeViewport "w.vp" 0%Z 0%Z 1%Z 1%Z;
              setViewportCustomRatio "w.vp" 1%Z]
     /\ internal_z st' = 2%Z
     /\ forall nodeName,
          exists st'',
            attachViewPortToNode false "w.vp" nodeName st' = Done tt st''
            /\ ops st'' = ops st' ++ [attachCameraToNode "w.vp.cam" nodeName])
  /\ (let st := outcome (getGraphicAgentFromCorba "graphic" (fresh true)) in
      exists st',
        createWindow 0%Z 1%Z false "w" 800 600 0 0 None st
        = Failed (PyError Py.IndexError) st'
        /\ ops st'
           = ops st
             ++ [createOgreWindowAndInput "w";
                 viewer_resizeWindow "w" 800 600;
                 viewer_moveWindow "w" 0 0]).
Proof.
  split.
  - intros st.
    exact (proj1 (createWindow_makes_its_viewport Z unit 0%Z 1%Z false st
                    "w" 800 600 0 0 None (handle "graphic") eq_refl)
                 (handle "scene") "scene" [] eq_refl eq_refl).
  - intros st.
    exact (proj2 (createWindow_makes_its_viewport Z unit 0%Z 1%Z false st
                    "w" 800 600 0 0 None (handle "graphic") eq_refl)
                 eq_refl).
Defined.

Lemma getPhysicAgentFromCorba_effect_witness :
  getPhysicAgentFromCorba "remote" (staged false)
  = Failed ImportError (staged false)
  /\ (let st := fresh true in
      exists st',
        getPhysicAgentFromCorba "remote" st = Done tt st'
        /\ manager (sim st')
           = {| phy := Some (handle "remote"); graph := None; clock := None;
                ms := Some (handle "main"); xcd := Some (handle "xcd");
                graph_scn := None; icsync := None |}
        /\ ops st' = ops st ++ [get_proxy "remote"]
        /\ engine (sim st') = engine (sim st)
        /\ calls (sim st') = calls (sim st)).
Proof.
  split.
  - exact (proj1 (getPhysicAgentFromCorba_effect Z unit (staged false)
                    "remote") eq_refl).
  - intros st.
    exact (proj2 (getPhysicAgentFromCorba_effect Z unit st "remote")
                 eq_refl).
Defined.

Lemma getGraphicAgentFromCorba_effect_witness :
  getGraphicAgentFromCorba "remote" (fresh false)
  = Failed ImportError (fresh false)
  /\ (let st := fresh true in
      exists st',
        getGraphicAgentFromCorba "remote" st
        = Failed (PyError Py.IndexError) st'
        /\ graph (manager (sim st')) = Some (handle "remote")
        /\ graph_scn (manager (sim st')) = None
        /\ stdout (sim st') = [])
  /\ (exists st',
        getGraphicAgentFromCorba "remote" remote = Done tt st'
        /\ graph (manager (sim st')) = Some (handle "remote")
        /\ graph_scn (manager (sim st')) = Some (handle "s1")
        /\ stdout (sim st')
           = [("Warning: many graphical scenes found in new agent. "
               ++ "Bind graph_scn with first: " ++ "s1")%string]).
Proof.
  split; [|split].
  - exact (proj1 (getGraphicAgentFromCorba_effect Z unit (fresh false)
                    "remote") eq_refl).
  - intros st.
    exact (proj1 (proj2 (getGraphicAgentFromCorba_effect Z unit st
                           "remote")) eq_refl eq_refl).
  - exact (proj2 (proj2 (getGraphicAgentFromCorba_effect Z unit remote
                           "remote")) "s1" ["s2"] eq_refl eq_refl).
Defined.

End Examples.
